(** * Edit-position resolution of the search/replace and apply-diff tools

    A shallow embedding of
    - [src/core/edit-position/EditPositionTracker.ts] (the position store),
    - the [search_and_replace] tool ([validateParams], [searchAndReplaceTool],
      [escapeRegExp]) and
    - the position tracking of [applyDiffToolLegacy]
      ([src/core/tools/applyDiffTool.ts]).

    JavaScript strings are lists of code units, here [ascii]; JavaScript
    numbers that hold line numbers, columns and indices are integers ([Z]),
    list positions and lengths are [nat].  The value [NaN] (what [parseInt]
    returns on a non-numeric parameter) is outside the model: a bound is
    either absent ([None], JavaScript's [undefined]) or an integer.

    Regular expressions are embedded for a fragment of the pattern language
    (see [JS.compile]), which holds every pattern of the literal mode; the
    last-match scan is given for that fragment ([SearchAndReplace.scan]) and
    for any regular expression, by what its [exec] answers
    ([SearchAndReplace.scanWith]). *)

From Stdlib Require Import Ascii String.
From Stdlib Require Import List ZArith Lia Bool Arith.
From Stdlib Require Import Sorting.Permutation Sorting.Sorted.
Import ListNotations.

Local Open Scope Z_scope.
Local Open Scope list_scope.

(** A JavaScript string: the list of its code units. *)
Definition jsstring := list ascii.

Definition lit (s : string) : jsstring := list_ascii_of_string s.

Definition nl : ascii := "010"%char.

Definition len {A : Type} (l : list A) : Z := Z.of_nat (length l).

(** ** The JavaScript primitives the two tools call *)

Module JS.

(** [a ?? b] on an optional number. *)
Definition nullish (a : option Z) (b : Z) : Z :=
  match a with Some v => v | None => b end.

(** [s.split("\n")]. *)
Fixpoint split (s : jsstring) : list jsstring :=
  match s with
  | [] => [[]]
  | c :: s' =>
      if Ascii.eqb c nl then [] :: split s'
      else match split s' with
           | l :: ls => (c :: l) :: ls
           | [] => [[c]]
           end
  end.

(** [lines.join("\n")]. *)
Fixpoint join (ls : list jsstring) : jsstring :=
  match ls with
  | [] => []
  | [l] => l
  | l :: ls' => l ++ nl :: join ls'
  end.

(** The relative index of [Array.prototype.slice] and
    [String.prototype.slice]: a negative argument counts from the end. *)
Definition relIndex (n k : Z) : Z :=
  if k <? 0 then Z.max (n + k) 0 else Z.min k n.

(** [l.slice(from, to)]. *)
Definition slice {A : Type} (l : list A) (from to : Z) : list A :=
  let k := relIndex (len l) from in
  let final := relIndex (len l) to in
  firstn (Z.to_nat (final - k)) (skipn (Z.to_nat k) l).

(** [l.slice(from)]. *)
Definition sliceFrom {A : Type} (l : list A) (from : Z) : list A :=
  slice l from (len l).

(** [l.map((x, i) => f(x, i))], the index counted from [i]. *)
Fixpoint mapi {A B : Type} (f : A -> Z -> B) (i : Z) (l : list A) : list B :=
  match l with
  | [] => []
  | x :: l' => f x i :: mapi f (i + 1) l'
  end.

(** White space and line terminators, as [trim] strips them (the code
    units below 256). *)
Definition isWhiteSpace (c : ascii) : bool :=
  let n := nat_of_ascii c in
  (Nat.leb 9 n && Nat.leb n 13) || Nat.eqb n 32 || Nat.eqb n 160.

Fixpoint trimStart (s : jsstring) : jsstring :=
  match s with
  | c :: s' => if isWhiteSpace c then trimStart s' else s
  | [] => []
  end.

Definition trimEnd (s : jsstring) : jsstring := rev (trimStart (rev s)).

Definition trim (s : jsstring) : jsstring := trimEnd (trimStart s).

(** Is [p] a prefix of [s]? *)
Fixpoint startsWith (p s : jsstring) : bool :=
  match p, s with
  | [], _ => true
  | _ :: _, [] => false
  | a :: p', b :: s' => Ascii.eqb a b && startsWith p' s'
  end.

(** [s.indexOf(p)]: the first index at which [p] occurs; [None] is -1. *)
Fixpoint indexOf (s p : jsstring) : option nat :=
  if startsWith p s then Some 0%nat
  else match s with
       | [] => None
       | _ :: s' => option_map S (indexOf s' p)
       end.

(** *** Regular expressions

    The fragment of the pattern language modelled here: literal code units,
    [.], a backslash before a syntax character, and the greedy [*] after
    one of these.  [compile] answers [None] on anything else.  Every
    pattern that [escapeRegExp] produces lies in the fragment. *)

Inductive Atom : Type :=
  | Lit (c : ascii)
  | AnyChar.

Record Item : Type := mkItem { atom : Atom; starred : bool }.

(** A compiled [RegExp]; the tools always set the [g] flag. *)
Record RegExp : Type := mkRegExp { source : list Item; ignoreCase : bool }.

(** The syntax characters of the pattern grammar:
    [^ $ \ . * + ? ( ) [ ] { } |]. *)
Definition isSyntaxChar (c : ascii) : bool :=
  existsb (Ascii.eqb c) (lit "^$\.*+?()[]{}|").

Definition isLineTerminator (c : ascii) : bool :=
  let n := nat_of_ascii c in Nat.eqb n 10 || Nat.eqb n 13.

Inductive Token : Type :=
  | TAtom (a : Atom)
  | TStar.

Fixpoint tokenize (s : jsstring) : option (list Token) :=
  match s with
  | [] => Some []
  | c :: rest =>
      if Ascii.eqb c "\"%char then
        match rest with
        | e :: rest' =>
            if isSyntaxChar e
            then option_map (cons (TAtom (Lit e))) (tokenize rest')
            else None
        | [] => None
        end
      else if Ascii.eqb c "."%char then
        option_map (cons (TAtom AnyChar)) (tokenize rest)
      else if Ascii.eqb c "*"%char then
        option_map (cons TStar) (tokenize rest)
      else if isSyntaxChar c then None
      else option_map (cons (TAtom (Lit c))) (tokenize rest)
  end.

Fixpoint items (ts : list Token) : option (list Item) :=
  match ts with
  | [] => Some []
  | TStar :: _ => None
  | TAtom a :: ts' =>
      match ts' with
      | TStar :: ts'' => option_map (cons (mkItem a true)) (items ts'')
      | _ => option_map (cons (mkItem a false)) (items ts')
      end
  end.

(** [new RegExp(pattern, ignoreCase ? "gi" : "g")]. *)
Definition compile (pattern : jsstring) (ic : bool) : option RegExp :=
  match tokenize pattern with
  | Some ts => option_map (fun p => mkRegExp p ic) (items ts)
  | None => None
  end.

(** Case folding of [ignoreCase] matching on the code units below 256:
    a lower-case letter goes to its upper-case form. *)
Definition canonicalize (c : ascii) : ascii :=
  let n := nat_of_ascii c in
  if (Nat.leb 97 n && Nat.leb n 122)
     || (Nat.leb 224 n && Nat.leb n 254 && negb (Nat.eqb n 247))
  then ascii_of_nat (n - 32) else c.

Definition charEq (ic : bool) (a b : ascii) : bool :=
  if ic then Ascii.eqb (canonicalize a) (canonicalize b) else Ascii.eqb a b.

Definition atomMatches (ic : bool) (a : Atom) (c : ascii) : bool :=
  match a with
  | Lit x => charEq ic x c
  | AnyChar => negb (isLineTerminator c)
  end.

(** The length of the match of pattern [p] at the head of [s]; a starred
    atom takes as many code units as the rest of the pattern allows. *)
Fixpoint matchHere (ic : bool) (p : list Item) (s : jsstring) : option nat :=
  match p with
  | [] => Some 0%nat
  | it :: p' =>
      if starred it then
        (fix star (s : jsstring) : option nat :=
           match s with
           | c :: s' =>
               if atomMatches ic (atom it) c then
                 match star s' with
                 | Some n => Some (S n)
                 | None => matchHere ic p' s
                 end
               else matchHere ic p' s
           | [] => matchHere ic p' s
           end) s
      else
        match s with
        | c :: s' =>
            if atomMatches ic (atom it) c
            then option_map S (matchHere ic p' s')
            else None
        | [] => None
        end
  end.

(** The first position of [s] at which the pattern matches, with the
    length of the match. *)
Fixpoint search (ic : bool) (p : list Item) (s : jsstring)
  : option (nat * nat) :=
  match matchHere ic p s with
  | Some n => Some (0%nat, n)
  | None =>
      match s with
      | [] => None
      | _ :: s' =>
          match search ic p s' with
          | Some (k, n) => Some (S k, n)
          | None => None
          end
      end
  end.

(** [re.exec(text)] of a global regular expression whose [lastIndex] is
    [lastIndex]: the match (its index and its length) and the new
    [lastIndex]. *)
Definition exec (re : RegExp) (text : jsstring) (lastIndex : nat)
  : option (nat * nat) * nat :=
  if Nat.ltb (length text) lastIndex then (None, 0%nat)
  else match search (ignoreCase re) (source re) (skipn lastIndex text) with
       | Some (k, n) => (Some (lastIndex + k, n), lastIndex + k + n)%nat
       | None => (None, 0%nat)
       end.

(** The expansion of the replacement string (GetSubstitution) for a
    pattern without capture groups: [$$], [$&], [$`] and [$']. *)
Fixpoint getSubstitution (matched before after replacement : jsstring)
  : jsstring :=
  match replacement with
  | [] => []
  | c :: r =>
      if Ascii.eqb c "$"%char then
        match r with
        | d :: r' =>
            if Ascii.eqb d "$"%char then
              "$"%char :: getSubstitution matched before after r'
            else if Ascii.eqb d "&"%char then
              matched ++ getSubstitution matched before after r'
            else if Ascii.eqb d "`"%char then
              before ++ getSubstitution matched before after r'
            else if Ascii.eqb d "'"%char then
              after ++ getSubstitution matched before after r'
            else c :: getSubstitution matched before after r
        | [] => [c]
        end
      else c :: getSubstitution matched before after r
  end.

(** The matches that [text.replace(re, ...)] collects: [exec] is called
    from [lastIndex] until it fails, and an empty match moves [lastIndex]
    one code unit on. *)
Fixpoint collect (fuel : nat) (re : RegExp) (text : jsstring)
  (lastIndex : nat) : list (nat * nat) :=
  match fuel with
  | O => []
  | S fuel' =>
      match exec re text lastIndex with
      | (Some (i, n), li) =>
          (i, n)
            :: collect fuel' re text (if Nat.eqb n 0 then li + 1 else li)%nat
      | (None, _) => []
      end
  end.

Definition substitute (text replaceValue : jsstring)
  (st : jsstring * nat) (m : nat * nat) : jsstring * nat :=
  let '(acc, next) := st in
  let '(pos, n) := m in
  let replacement :=
    getSubstitution (firstn n (skipn pos text)) (firstn pos text)
      (skipn (pos + n) text) replaceValue in
  if Nat.leb next pos
  then (acc ++ firstn (pos - next) (skipn next text) ++ replacement,
        (pos + n)%nat)
  else (acc, next).

(** [text.replace(re, replaceValue)] for a global [re].  There are at
    most [length text + 1] matches, see [collect_fuel]. *)
Definition replace (text : jsstring) (re : RegExp) (replaceValue : jsstring)
  : jsstring :=
  let results := collect (S (length text)) re text 0 in
  let '(acc, next) := fold_left (substitute text replaceValue) results ([], 0%nat) in
  acc ++ skipn next text.

End JS.

(** ** EditPositionTracker.ts *)

Module EditPositionTracker.

Inductive EditType : Type := modify | insert | replace | create.

Record EditPosition : Type := mkEditPosition {
  filePath : string;
  startLine : Z;
  endLine : Z;
  startColumn : option Z;
  endColumn : option Z;
  editType : EditType
}.

(** [positions: Map<string, EditPosition[]>]. *)
Definition t := string -> option (list EditPosition).

Definition empty : t := fun _ => None.

Definition set (m : t) (k : string) (v : list EditPosition) : t :=
  fun k' => if String.eqb k k' then Some v else m k'.

Definition trackPosition (m : t) (filePath : string) (position : EditPosition)
  : t :=
  let m1 := match m filePath with
            | None => set m filePath []
            | Some _ => m
            end in
  match m1 filePath with
  | Some ps => set m1 filePath (ps ++ [position])
  | None => m1
  end.

Definition getPrimaryPosition (m : t) (filePath : string)
  : option EditPosition :=
  match m filePath with
  | None => None
  | Some [] => None
  | Some (p :: _) => Some p
  end.

Definition clearPositions (m : t) (filePath : string) : t :=
  fun k' => if String.eqb filePath k' then None else m k'.

Definition clearAllPositions (m : t) : t := empty.

End EditPositionTracker.

(** ** The search_and_replace tool *)

Module SearchAndReplace.

(** [escapeRegExp]: a backslash goes before each of
    [. * + ? ^ $ { } ( ) | [ ] \]. *)
Definition isEscaped (c : ascii) : bool :=
  existsb (Ascii.eqb c) (lit ".*+?^${}()|[]\").

Fixpoint escapeRegExp (input : jsstring) : jsstring :=
  match input with
  | [] => []
  | c :: rest =>
      if isEscaped c then "\"%char :: c :: escapeRegExp rest
      else c :: escapeRegExp rest
  end.

(** The four optional bounds of a request. *)
Record Bounds : Type := mkBounds {
  bStartLine : option Z;
  bEndLine : option Z;
  bStartColumn : option Z;
  bEndColumn : option Z
}.

Definition noBounds : Bounds := mkBounds None None None None.

Definition isSome {A : Type} (o : option A) : bool :=
  match o with Some _ => true | None => false end.

Definition anyBound (b : Bounds) : bool :=
  isSome (bStartLine b) || isSome (bEndLine b)
  || isSome (bStartColumn b) || isSome (bEndColumn b).

(** [searchPattern]: [new RegExp(useRegex ? search : escapeRegExp(search),
    flags)]. *)
Definition searchPattern (useRegex ic : bool) (validSearch : jsstring)
  : option JS.RegExp :=
  if useRegex then JS.compile validSearch ic
  else JS.compile (escapeRegExp validSearch) ic.

(** The callback of [targetLines.map]. *)
Definition modifyLine (re : JS.RegExp) (validReplace : jsstring) (b : Bounds)
  (start end_ : Z) (line : jsstring) (lineIndex : Z) : jsstring :=
  let actualLineIndex := start + lineIndex in
  if (actualLineIndex >=? start) && (actualLineIndex <=? end_) then
    if isSome (bStartColumn b) || isSome (bEndColumn b) then
      let lineStart := Z.max (JS.nullish (bStartColumn b) 1 - 1) 0 in
      let lineEnd :=
        Z.min (JS.nullish (bEndColumn b) (len line) - 1) (len line - 1) in
      if lineStart <? lineEnd then
        let beforeColumn := JS.slice line 0 lineStart in
        let targetColumn := JS.slice line lineStart (lineEnd + 1) in
        let afterColumn := JS.sliceFrom line (lineEnd + 1) in
        let modifiedColumn := JS.replace targetColumn re validReplace in
        beforeColumn ++ modifiedColumn ++ afterColumn
      else line
    else line
  else line.

(** The branch taken when a bound is given (lines 239-271). *)
Definition boundedReplace (re : JS.RegExp) (validReplace : jsstring)
  (b : Bounds) (fileContent : jsstring) : jsstring :=
  let lines := JS.split fileContent in
  let start := Z.max (JS.nullish (bStartLine b) 1 - 1) 0 in
  let end_ :=
    Z.min (JS.nullish (bEndLine b) (len lines) - 1) (len lines - 1) in
  let beforeLines := JS.slice lines 0 start in
  let afterLines := JS.sliceFrom lines (end_ + 1) in
  let targetLines := JS.slice lines start (end_ + 1) in
  let modifiedLines :=
    JS.mapi (modifyLine re validReplace b start end_) 0 targetLines in
  JS.join (beforeLines ++ modifiedLines ++ afterLines).

(** [newContent] (lines 236-275). *)
Definition newContent (re : JS.RegExp) (validReplace : jsstring) (b : Bounds)
  (fileContent : jsstring) : jsstring :=
  if anyBound b then boundedReplace re validReplace b fileContent
  else JS.replace fileContent re validReplace.

(** *** The last-match scan (lines 328-438) *)

Record MatchPosition : Type := mkMatchPosition {
  mStartLine : Z;
  mEndLine : Z;
  mStartColumn : Z;
  mEndColumn : Z
}.

(** The [for] loop that finds the line and the column of [matchStart];
    the result is [(startLineIndex, startColumn)]. *)
Fixpoint findStart (lines : list jsstring) (i charCount matchStart : Z)
  : Z * Z :=
  match lines with
  | [] => (0, matchStart + 1)
  | line :: rest =>
      let lineLength := len line + 1 in
      if charCount + lineLength >? matchStart
      then (i, matchStart - charCount + 1)
      else findStart rest (i + 1) (charCount + lineLength) matchStart
  end.

(** The [while] loop that walks the match over the lines; [rest] holds the
    lines from [currentLineIndex] on, [dflt] the values [endLineIndex] and
    [endColumn] have before the loop. *)
Fixpoint findEnd (rest : list jsstring)
  (currentLineIndex remainingLength currentColumnInLine : Z) (dflt : Z * Z)
  : Z * Z :=
  match rest with
  | [] => dflt
  | line :: rest' =>
      if remainingLength >? 0 then
        let lineLength := len line in
        let availableInLine := lineLength - currentColumnInLine + 1 in
        if remainingLength <=? availableInLine
        then (currentLineIndex, currentColumnInLine + remainingLength - 1)
        else findEnd rest' (currentLineIndex + 1)
               (remainingLength - availableInLine) 1 dflt
      else dflt
  end.

(** Lines 351-397: the 1-based position of a match. *)
Definition positionOf (lines : list jsstring) (matchStart matchLength : nat)
  : MatchPosition :=
  let '(startLineIndex, startColumn) :=
    findStart lines 0 0 (Z.of_nat matchStart) in
  let '(endLineIndex, endColumn) :=
    findEnd (skipn (Z.to_nat startLineIndex) lines) startLineIndex
      (Z.of_nat matchLength) startColumn
      (startLineIndex, startColumn + Z.of_nat matchLength - 1) in
  mkMatchPosition (startLineIndex + 1) (endLineIndex + 1)
    startColumn endColumn.

(** Lines 400-403. *)
Definition withinLineRange (b : Bounds) (p : MatchPosition) : bool :=
  match bStartLine b, bEndLine b with
  | Some startLine, Some endLine =>
      (mStartLine p >=? startLine) && (mEndLine p <=? endLine)
  | _, _ => true
  end.

(** Lines 406-420.  Inside the loop [startColumn] and [endColumn] are the
    loop's own variables (declared at lines 356 and 371), which hide the
    two column bounds of the request: they are numbers, never [undefined],
    and each is compared with itself. *)
Definition withinColumnRange (b : Bounds) (p : MatchPosition) : bool :=
  let startColumn := mStartColumn p in
  let endColumn := mEndColumn p in
  if mStartLine p =? mEndLine p
  then (startColumn >=? startColumn) && (endColumn <=? endColumn)
  else startColumn >=? startColumn.

Definition qualifies (b : Bounds) (p : MatchPosition) : bool :=
  withinLineRange b p && withinColumnRange b p.

(** The state of the [while] loop at line 349. *)
Record ScanState : Type := mkScanState {
  lastIndex : nat;
  matchCount : Z;
  lastMatchPosition : option MatchPosition
}.

Definition scanStart : ScanState := mkScanState 0 0 None.

(** One turn of the loop: [None] when [exec] answers [null] and the loop
    is left, else the state after the body. *)
Definition scanStep (re : JS.RegExp) (fileContent : jsstring)
  (lines : list jsstring) (b : Bounds) (st : ScanState)
  : option ScanState :=
  match JS.exec re fileContent (lastIndex st) with
  | (None, _) => None
  | (Some (matchStart, matchLength), li) =>
      let p := positionOf lines matchStart matchLength in
      if qualifies b p then
        Some (mkScanState
                (if Nat.eqb matchLength 0 then li + 1 else li)%nat
                (matchCount st + 1) (Some p))
      else Some (mkScanState li (matchCount st) (lastMatchPosition st))
  end.

(** The loop, run for at most [fuel] turns: [None] when it has not been
    left by then. *)
Fixpoint scan (fuel : nat) (re : JS.RegExp) (fileContent : jsstring)
  (lines : list jsstring) (b : Bounds) (st : ScanState)
  : option ScanState :=
  match fuel with
  | O => None
  | S fuel' =>
      match scanStep re fileContent lines b st with
      | None => Some st
      | Some st' => scan fuel' re fileContent lines b st'
      end
  end.

(** Lines 441-464: the position handed to [trackPosition]. *)
Definition replacementPosition (validRelPath : string)
  (validReplace : jsstring) (last : MatchPosition)
  : EditPositionTracker.EditPosition :=
  let replacementLines := JS.split validReplace in
  let replacementEndLine := mStartLine last + len replacementLines - 1 in
  let replacementEndColumn :=
    if len replacementLines =? 1
    then mStartColumn last + len validReplace - 1
    else len (List.last replacementLines []) in
  EditPositionTracker.mkEditPosition validRelPath
    replacementEndLine replacementEndLine
    (Some replacementEndColumn) (Some (replacementEndColumn + 1))
    EditPositionTracker.replace.

(** Lines 328-465 for a tracker that is present: the position recorded,
    if any; [None] when the scan has not ended within [fuel] turns. *)
Definition trackedPosition (fuel : nat) (validRelPath : string)
  (re : JS.RegExp) (validReplace : jsstring) (b : Bounds)
  (fileContent : jsstring)
  : option (option EditPositionTracker.EditPosition) :=
  match scan fuel re fileContent (JS.split fileContent) b scanStart with
  | None => None
  | Some st =>
      Some (option_map (replacementPosition validRelPath validReplace)
              (lastMatchPosition st))
  end.

(** The loop of line 348 once more, for a regular expression that is
    given by what its [exec] answers: for the text and the [lastIndex]
    before the call, the index and the length of the match, if there is
    one, and the [lastIndex] after the call.  [scanStep] is this turn with
    [JS.exec re]. *)
Definition Exec : Type := jsstring -> nat -> option (nat * nat) * nat.

Definition scanStepWith (exec : Exec) (fileContent : jsstring)
  (lines : list jsstring) (b : Bounds) (st : ScanState)
  : option ScanState :=
  match exec fileContent (lastIndex st) with
  | (None, _) => None
  | (Some (matchStart, matchLength), li) =>
      let p := positionOf lines matchStart matchLength in
      if qualifies b p then
        Some (mkScanState
                (if Nat.eqb matchLength 0 then li + 1 else li)%nat
                (matchCount st + 1) (Some p))
      else Some (mkScanState li (matchCount st) (lastMatchPosition st))
  end.

Fixpoint scanWith (fuel : nat) (exec : Exec) (fileContent : jsstring)
  (lines : list jsstring) (b : Bounds) (st : ScanState)
  : option ScanState :=
  match fuel with
  | O => None
  | S fuel' =>
      match scanStepWith exec fileContent lines b st with
      | None => Some st
      | Some st' => scanWith fuel' exec fileContent lines b st'
      end
  end.

Definition trackedPositionWith (fuel : nat) (validRelPath : string)
  (exec : Exec) (validReplace : jsstring) (b : Bounds)
  (fileContent : jsstring)
  : option (option EditPositionTracker.EditPosition) :=
  match scanWith fuel exec fileContent (JS.split fileContent) b scanStart with
  | None => None
  | Some st =>
      Some (option_map (replacementPosition validRelPath validReplace)
              (lastMatchPosition st))
  end.

(** *** The tool around them (lines 85-520) *)

(** What [pushToolResult] receives. *)
Inductive ToolResult : Type :=
  | MissingParamError (toolName paramName : string)
  | RooIgnoreError (path : string)
  | FileNotFound (path : string)
  | ReadError (path : string)
  | NoChangesNeeded (path : string)
  | ChangesRejected
  | WriteResult (path : string).

(** The part of the task ([cline]) the tool reads and writes.
    [toolErrors] holds the names given to [recordToolError], [toolResults]
    what [pushToolResult] has received, [filesRead] the paths given to
    [readFileWithEncodingDetection] and [saved] the contents written by the
    diff view provider, each in the order of the calls. *)
Record Task : Type := mkTask {
  consecutiveMistakeCount : Z;
  toolErrors : list string;
  toolResults : list ToolResult;
  filesRead : list string;
  editPositionTracker : option EditPositionTracker.t;
  saved : list (string * jsstring);
  didEditFile : bool
}.

Definition recordMistake (cline : Task) (r : ToolResult) : Task :=
  mkTask (consecutiveMistakeCount cline + 1)
    (toolErrors cline ++ ["search_and_replace"%string])
    (toolResults cline ++ [r]) (filesRead cline)
    (editPositionTracker cline) (saved cline) (didEditFile cline).

Definition pushToolResult (cline : Task) (r : ToolResult) : Task :=
  mkTask (consecutiveMistakeCount cline) (toolErrors cline)
    (toolResults cline ++ [r]) (filesRead cline)
    (editPositionTracker cline) (saved cline) (didEditFile cline).

(** [!s] for an optional string: absent or empty. *)
Definition falsy {A : Type} (s : option (list A)) : bool :=
  match s with
  | None | Some [] => true
  | Some (_ :: _) => false
  end.

Definition falsyPath (s : option string) : bool :=
  match s with
  | None | Some EmptyString => true
  | Some (String _ _) => false
  end.

(** [validateParams]: the task after the call and the answer. *)
Definition validateParams (cline : Task) (relPath : option string)
  (search replace : option jsstring) : Task * bool :=
  if falsyPath relPath then
    (recordMistake cline (MissingParamError "search_and_replace" "path"),
     false)
  else if falsy search then
    (recordMistake cline (MissingParamError "search_and_replace" "search"),
     false)
  else match replace with
       | None =>
           (recordMistake cline
              (MissingParamError "search_and_replace" "replace"), false)
       | Some _ => (cline, true)
       end.

(** [block.params], the numbers already read by [parseInt], and
    [block.partial]. *)
Record ToolUse : Type := mkToolUse {
  path : option string;
  search : option jsstring;
  replace : option jsstring;
  use_regex : bool;
  ignore_case : bool;
  bounds : Bounds;
  partial : bool
}.

(** The collaborators of the tool, which are not among the sources: the
    ignore-file policy, the file system and the user's answer. *)
Record Env : Type := mkEnv {
  validateAccess : string -> bool;
  fileExistsAtPath : string -> bool;
  readFileWithEncodingDetection : string -> option jsstring;
  askApproval : bool
}.

Fixpoint eqString (a b : jsstring) : bool :=
  match a, b with
  | [], [] => true
  | x :: a', y :: b' => Ascii.eqb x y && eqString a' b'
  | _, _ => false
  end.

(** Modelled from the spec: [formatResponse.createPrettyPatch] is not among
    the sources; the spec's NoChangeNeeded case is "computed new text
    equals original", so the patch is empty exactly then. *)
Definition emptyPatch (fileContent newContent : jsstring) : bool :=
  eqString fileContent newContent.

(** How a run of the model ends: the tool returns, or the search text is
    a regular expression outside the fragment of [JS.compile], or the scan
    of the position tracking is still running after [fuel] turns. *)
Inductive Run : Type :=
  | Returned (cline : Task)
  | PatternOutsideFragment
  | ScanNotFinished.

Definition getOr {A : Type} (o : option A) (d : A) : A :=
  match o with Some v => v | None => d end.

Definition strOr (o : option string) : string :=
  match o with Some v => v | None => EmptyString end.

(** [searchAndReplaceTool]; the scan of the position tracking runs for at
    most [fuel] turns.  The collaborators are taken to answer: a call that
    throws (the save of lines 468-474, say, which comes after
    [trackPosition]) ends the source's run in the [catch] of line 516, and
    such a run is none of the runs below. *)
Definition searchAndReplaceTool (fuel : nat) (env : Env) (cline : Task)
  (block : ToolUse) : Run :=
  if partial block then Returned cline
  else
    let '(cline, ok) :=
      validateParams cline (path block) (search block) (replace block) in
    if negb ok then Returned cline
    else
      let validRelPath := strOr (path block) in
      let validSearch := getOr (search block) [] in
      let validReplace := getOr (replace block) [] in
      if negb (validateAccess env validRelPath) then
        Returned (pushToolResult cline (RooIgnoreError validRelPath))
      else if negb (fileExistsAtPath env validRelPath) then
        Returned (recordMistake cline (FileNotFound validRelPath))
      else
        let cline :=
          mkTask 0 (toolErrors cline) (toolResults cline)
            (filesRead cline ++ [validRelPath])
            (editPositionTracker cline) (saved cline) (didEditFile cline) in
        match readFileWithEncodingDetection env validRelPath with
        | None => Returned (recordMistake cline (ReadError validRelPath))
        | Some fileContent =>
            match searchPattern (use_regex block) (ignore_case block)
                    validSearch with
            | None => PatternOutsideFragment
            | Some re =>
                let new := newContent re validReplace (bounds block)
                             fileContent in
                if emptyPatch fileContent new then
                  Returned (pushToolResult cline
                              (NoChangesNeeded validRelPath))
                else if negb (askApproval env) then
                  Returned (pushToolResult cline ChangesRejected)
                else
                  let tracked :=
                    match editPositionTracker cline with
                    | None => Some None
                    | Some tr =>
                        match trackedPosition fuel validRelPath re
                                validReplace (bounds block) fileContent with
                        | None => None
                        | Some None => Some (Some tr)
                        | Some (Some pos) =>
                            Some (Some (EditPositionTracker.trackPosition
                                          tr validRelPath pos))
                        end
                    end in
                  match tracked with
                  | None => ScanNotFinished
                  | Some tracker' =>
                      Returned
                        (mkTask (consecutiveMistakeCount cline)
                           (toolErrors cline)
                           (toolResults cline ++ [WriteResult validRelPath])
                           (filesRead cline) tracker'
                           (saved cline ++ [(validRelPath, new)]) true)
                  end
            end
        end.

End SearchAndReplace.

(** ** The position tracking of apply_diff (applyDiffTool.ts, lines 149-331) *)

Module ApplyDiff.

(** An element of [allMatches]: one SEARCH/REPLACE block as the regular
    expression of line 165 reads it. *)
Record SearchReplaceMatch : Type := mkMatch {
  startLine : Z;
  searchContent : jsstring;
  replaceContent : jsstring;
  matchIndex : nat
}.

(** [allMatches.sort((a, b) => a.startLine - b.startLine)].  The sort of
    an array is stable, and [sortMatches_stable_sort] shows that this
    insertion sort is the stable sort by [startLine]. *)
Fixpoint insertMatch (m : SearchReplaceMatch) (l : list SearchReplaceMatch)
  : list SearchReplaceMatch :=
  match l with
  | [] => [m]
  | x :: l' =>
      if startLine m <=? startLine x then m :: x :: l'
      else x :: insertMatch m l'
  end.

Definition sortMatches (l : list SearchReplaceMatch)
  : list SearchReplaceMatch :=
  fold_right insertMatch [] l.

(** [finalStartLine], [finalStartColumn], [finalEndLine], [finalEndColumn]. *)
Record Final : Type := mkFinal {
  finalStartLine : Z;
  finalStartColumn : Z;
  finalEndLine : Z;
  finalEndColumn : Z
}.

(** A non-empty string is truthy. *)
Definition truthy (s : jsstring) : bool :=
  match s with [] => false | _ :: _ => true end.

(** [lines[n - 1]]. *)
Definition lineAt (lines : list jsstring) (n : Z) : option jsstring :=
  nth_error lines (Z.to_nat (n - 1)).

(** Lines 209-228. *)
Definition startColumnOf (modifiedContentLines : list jsstring)
  (adjustedStartLine : Z) (replaceLines : list jsstring) : Z :=
  if (adjustedStartLine <=? len modifiedContentLines)
     && (adjustedStartLine >? 0) then
    match lineAt modifiedContentLines adjustedStartLine with
    | Some modifiedFirstLine =>
        if truthy modifiedFirstLine && (len replaceLines >? 0) then
          let replaceFirstLine := nth 0 replaceLines [] in
          match JS.indexOf modifiedFirstLine (JS.trim replaceFirstLine) with
          | Some startIndex => Z.of_nat startIndex + 1
          | None =>
              let leadingSpaces :=
                len replaceFirstLine - len (JS.trimStart replaceFirstLine) in
              leadingSpaces + 1
          end
        else 1
    | None => 1
    end
  else 1.

(** Lines 230-250. *)
Definition endColumnOf (modifiedContentLines : list jsstring)
  (adjustedEndLine : Z) (replaceLines : list jsstring) : Z :=
  if (adjustedEndLine <=? len modifiedContentLines)
     && (adjustedEndLine >? 0) && (len replaceLines >? 0) then
    match lineAt modifiedContentLines adjustedEndLine with
    | Some modifiedLastLine =>
        let replaceLastLine := List.last replaceLines [] in
        if truthy modifiedLastLine then
          let trimmedReplaceLastLine := JS.trimEnd replaceLastLine in
          match JS.indexOf modifiedLastLine trimmedReplaceLastLine with
          | Some startIndex =>
              Z.of_nat startIndex + len trimmedReplaceLastLine + 1
          | None => len (JS.trimEnd modifiedLastLine) + 1
          end
        else 1
    | None => 1
    end
  else 1.

(** The state of the loop of line 189. *)
Record LoopState : Type := mkLoopState {
  cumulativeLineOffset : Z;
  final : Final
}.

Definition lineDelta (m : SearchReplaceMatch) : Z :=
  len (JS.split (replaceContent m)) - len (JS.split (searchContent m)).

Definition adjustedStartLine (cumulative : Z) (m : SearchReplaceMatch) : Z :=
  startLine m + cumulative.

Definition adjustedEndLine (cumulative : Z) (m : SearchReplaceMatch) : Z :=
  adjustedStartLine cumulative m + len (JS.split (replaceContent m)) - 1.

(** The body of the loop (lines 190-259). *)
Definition processBlock (modifiedContentLines : list jsstring)
  (st : LoopState) (m : SearchReplaceMatch) : LoopState :=
  let replaceLines := JS.split (replaceContent m) in
  let aStart := adjustedStartLine (cumulativeLineOffset st) m in
  let aEnd := adjustedEndLine (cumulativeLineOffset st) m in
  let startColumn := startColumnOf modifiedContentLines aStart replaceLines in
  let endColumn := endColumnOf modifiedContentLines aEnd replaceLines in
  mkLoopState (cumulativeLineOffset st + lineDelta m)
    (mkFinal aStart startColumn aEnd endColumn).

(** The loop over the sorted blocks. *)
Definition processBlocks (modifiedContentLines : list jsstring)
  (st : LoopState) (sortedMatches : list SearchReplaceMatch) : LoopState :=
  fold_left (processBlock modifiedContentLines) sortedMatches st.

(** The states the loop goes through, one after each block. *)
Fixpoint blockStates (modifiedContentLines : list jsstring)
  (st : LoopState) (sortedMatches : list SearchReplaceMatch)
  : list LoopState :=
  match sortedMatches with
  | [] => []
  | m :: rest =>
      let st' := processBlock modifiedContentLines st m in
      st' :: blockStates modifiedContentLines st' rest
  end.

(** Lines 262-319, taken when [allMatches] is empty; [startLineMatch] is
    the number that [/:start_line:(\d+)/] finds, [searchMatch] the replace
    text that the single-block expression finds. *)
Definition legacyBlock (modifiedContentLines : list jsstring) (f : Final)
  (startLineMatch : option Z) (searchMatch : option jsstring) : Final :=
  let finalStartLine' :=
    match startLineMatch with
    | Some n => n
    | None => finalStartLine f
    end in
  match searchMatch with
  | None =>
      mkFinal finalStartLine' (finalStartColumn f) (finalEndLine f)
        (finalEndColumn f)
  | Some replaceContent =>
      let replaceLines := JS.split replaceContent in
      let startColumn :=
        if (len replaceLines >? 0)
           && (finalStartLine' <=? len modifiedContentLines)
           && (finalStartLine' >? 0)
        then
          match lineAt modifiedContentLines finalStartLine' with
          | Some modifiedFirstLine =>
              if truthy modifiedFirstLine then
                let replaceFirstLine := nth 0 replaceLines [] in
                match JS.indexOf modifiedFirstLine (JS.trim replaceFirstLine)
                with
                | Some startIndex => Z.of_nat startIndex + 1
                | None =>
                    len replaceFirstLine
                    - len (JS.trimStart replaceFirstLine) + 1
                end
              else finalStartColumn f
          | None => finalStartColumn f
          end
        else finalStartColumn f in
      if len replaceLines >? 0 then
        let finalEndLine' := finalStartLine' + len replaceLines - 1 in
        let endColumn :=
          if (finalEndLine' <=? len modifiedContentLines)
             && (finalEndLine' >? 0)
          then
            match lineAt modifiedContentLines finalEndLine' with
            | Some modifiedLastLine =>
                if truthy modifiedLastLine then
                  let trimmedReplaceLastLine :=
                    JS.trimEnd (List.last replaceLines []) in
                  match JS.indexOf modifiedLastLine trimmedReplaceLastLine
                  with
                  | Some startIndex =>
                      Z.of_nat startIndex + len trimmedReplaceLastLine + 1
                  | None => len (JS.trimEnd modifiedLastLine) + 1
                  end
                else finalEndColumn f
            | None => finalEndColumn f
            end
          else finalEndColumn f in
        mkFinal finalStartLine' startColumn finalEndLine' endColumn
      else
        mkFinal finalStartLine' startColumn (finalEndLine f)
          (finalEndColumn f)
  end.

(** Lines 151-321: the four [final] variables when [trackPosition] is
    reached.  [content] is [diffResult.content]; [allMatches] is what the
    loop of line 170 collects from [diffContent], [startLineMatch] and
    [searchMatch] what the two [match] calls of lines 263 and 269 find in
    it.  The three are inputs here: the regular expressions that produce
    them are not part of the embedding.  In the source the expression of
    line 269 is that of line 165 without the [g] flag, so [searchMatch] is
    [null] whenever [allMatches] is empty. *)
Definition finalPosition (blockStartLine : Z) (diffContent : jsstring)
  (content : option jsstring) (allMatches : list SearchReplaceMatch)
  (startLineMatch : option Z) (searchMatch : option jsstring) : Final :=
  let f0 := mkFinal blockStartLine 1 blockStartLine 1 in
  match content with
  | Some (c :: cs) =>
      if truthy diffContent then
        let modifiedContentLines := JS.split (c :: cs) in
        match allMatches with
        | _ :: _ =>
            final (processBlocks modifiedContentLines (mkLoopState 0 f0)
                     (sortMatches allMatches))
        | [] => legacyBlock modifiedContentLines f0 startLineMatch searchMatch
        end
      else f0
  | _ => f0
  end.

(** Lines 323-330: the position handed to [trackPosition]. *)
Definition trackedPosition (relPath : string) (f : Final)
  : EditPositionTracker.EditPosition :=
  EditPositionTracker.mkEditPosition relPath (finalEndLine f) (finalEndLine f)
    (Some (finalEndColumn f)) (Some (finalEndColumn f))
    EditPositionTracker.modify.

End ApplyDiff.

(** ** What the specification says, in its own words *)

Module Spec.

(** Replacing every non-overlapping occurrence of the literal [P] by [R],
    left to right in one pass; [skip] counts the code units of an
    occurrence still to pass over.  Case is ignored when [ic] is set. *)
Fixpoint occursHere (ic : bool) (P T : jsstring) : bool :=
  match P, T with
  | [], _ => true
  | _ :: _, [] => false
  | a :: P', b :: T' => JS.charEq ic a b && occursHere ic P' T'
  end.

Fixpoint replaceAll (ic : bool) (P R : jsstring) (skip : nat) (T : jsstring)
  : jsstring :=
  match T with
  | [] => match skip, P with O, [] => R | _, _ => [] end
  | c :: T' =>
      match skip with
      | S k => replaceAll ic P R k T'
      | O =>
          if occursHere ic P T then
            R ++ match P with
                 | [] => c :: replaceAll ic P R 0 T'
                 | _ :: P' => replaceAll ic P R (length P') T'
                 end
          else c :: replaceAll ic P R 0 T'
      end
  end.

(** The replacement holds none of the substitution patterns [$$], [$&],
    [$`] and [$']. *)
Definition isPatternChar (d : ascii) : bool :=
  Ascii.eqb d "$"%char || Ascii.eqb d "&"%char || Ascii.eqb d "`"%char
  || Ascii.eqb d "'"%char.

Fixpoint hasSubstitutionPattern (R : jsstring) : bool :=
  match R with
  | [] => false
  | c :: r =>
      (Ascii.eqb c "$"%char
       && match r with d :: _ => isPatternChar d | [] => false end)
      || hasSubstitutionPattern r
  end.

Definition plain (R : jsstring) : Prop := hasSubstitutionPattern R = false.

(** [needle] occurs in [hay] at index [i]. *)
Definition occursAt (needle hay : jsstring) (i : nat) : Prop :=
  (i <= length hay)%nat /\ firstn (length needle) (skipn i hay) = needle.

(** [i] is the index of [needle] within [hay]: its first occurrence. *)
Definition indexIs (needle hay : jsstring) (i : nat) : Prop :=
  occursAt needle hay i /\ forall j, (j < i)%nat -> ~ occursAt needle hay j.

Definition notFound (needle hay : jsstring) : Prop :=
  forall j, ~ occursAt needle hay j.

(** The number of white-space code units a string starts with. *)
Fixpoint leadingWhitespace (s : jsstring) : Z :=
  match s with
  | c :: s' => if JS.isWhiteSpace c then 1 + leadingWhitespace s' else 0
  | [] => 0
  end.

(** The final line with the 1-based number [n], when there is one. *)
Definition finalLine (finalLines : list jsstring) (n : Z)
  : option jsstring :=
  if 0 <? n then nth_error finalLines (Z.to_nat (n - 1)) else None.

(** The order of the blocks by declared start line, and the blocks
    declared at line [k]. *)
Definition byStartLine (a b : ApplyDiff.SearchReplaceMatch) : Prop :=
  ApplyDiff.startLine a <= ApplyDiff.startLine b.

Definition declaredAt (k : Z) (m : ApplyDiff.SearchReplaceMatch) : bool :=
  ApplyDiff.startLine m =? k.

(** The sum of the line deltas of the blocks processed so far. *)
Definition sumDeltas (blocks : list ApplyDiff.SearchReplaceMatch) : Z :=
  fold_right (fun m acc => ApplyDiff.lineDelta m + acc) 0 blocks.

(** A match lies within the bounds of the request: each bound that is
    given is respected. *)
Definition respects (lo : option Z) (v : Z) (hi : option Z) : bool :=
  match lo with Some l => l <=? v | None => true end
  && match hi with Some h => v <=? h | None => true end.

Definition withinRequestedBounds (b : SearchAndReplace.Bounds)
  (p : SearchAndReplace.MatchPosition) : bool :=
  respects (SearchAndReplace.bStartLine b) (SearchAndReplace.mStartLine p) None
  && respects None (SearchAndReplace.mEndLine p) (SearchAndReplace.bEndLine b)
  && respects (SearchAndReplace.bStartColumn b)
       (SearchAndReplace.mStartColumn p) None
  && respects None (SearchAndReplace.mEndColumn p)
       (SearchAndReplace.bEndColumn b).

(** The invariant of the data model on a recorded position. *)
Definition oneBased (c : option Z) : Prop :=
  match c with Some v => 1 <= v | None => True end.

Definition columnsOrdered (p : EditPositionTracker.EditPosition) : Prop :=
  match EditPositionTracker.startColumn p, EditPositionTracker.endColumn p with
  | Some s, Some e => s <= e + 1
  | _, _ => True
  end.

Definition invariant (p : EditPositionTracker.EditPosition) : Prop :=
  EditPositionTracker.startLine p <= EditPositionTracker.endLine p
  /\ oneBased (EditPositionTracker.startColumn p)
  /\ oneBased (EditPositionTracker.endColumn p)
  /\ columnsOrdered p.

(** The matches the scan of the search/replace tool visits, in order, each
    with its position; the scan itself keeps the last qualifying one. *)
Fixpoint visited (fuel : nat) (re : JS.RegExp) (fileContent : jsstring)
  (lines : list jsstring) (b : SearchAndReplace.Bounds)
  (st : SearchAndReplace.ScanState) : list SearchAndReplace.MatchPosition :=
  match fuel with
  | O => []
  | S fuel' =>
      match JS.exec re fileContent (SearchAndReplace.lastIndex st),
            SearchAndReplace.scanStep re fileContent lines b st with
      | (Some (i, n), _), Some st' =>
          SearchAndReplace.positionOf lines i n
            :: visited fuel' re fileContent lines b st'
      | _, _ => []
      end
  end.

(** Every turn of the scan moves the cursor on. *)
Definition movesOn (re : JS.RegExp) (fileContent : jsstring)
  (lines : list jsstring) (b : SearchAndReplace.Bounds) : Prop :=
  forall st st',
    SearchAndReplace.scanStep re fileContent lines b st = Some st' ->
    (SearchAndReplace.lastIndex st < SearchAndReplace.lastIndex st')%nat.

(** The last element of a list that satisfies [f]. *)
Fixpoint lastThat {A : Type} (f : A -> bool) (l : list A) : option A :=
  match l with
  | [] => None
  | x :: l' =>
      match lastThat f l' with
      | Some y => Some y
      | None => if f x then Some x else None
      end
  end.

(** The items of the regular expression that matches [P] literally. *)
Definition literalItems (P : jsstring) : list JS.Item :=
  map (fun c => JS.mkItem (JS.Lit c) false) P.

Definition literal (ic : bool) (P : jsstring) : JS.RegExp :=
  JS.mkRegExp (literalItems P) ic.

End Spec.

(** ** Concrete inputs used below *)

Module Inputs.

Definition lines3 (a b c : string) : jsstring :=
  lit a ++ nl :: lit b ++ nl :: lit c.

Definition lines2 (a b : string) : jsstring := lit a ++ nl :: lit b.

(** A block declared at line 10 that replaces one line by four, and a
    block declared at line 20. *)
Definition blockAt10 : ApplyDiff.SearchReplaceMatch :=
  ApplyDiff.mkMatch 10 (lit "old")
    (lit "new" ++ nl :: lit "b" ++ nl :: lit "c" ++ nl :: lit "d") 0.

Definition blockAt20 : ApplyDiff.SearchReplaceMatch :=
  ApplyDiff.mkMatch 20 (lit "x") (lit "y") 60.

(** A block whose replace text is indented, and the block of the comment
    at line 154 of applyDiffTool.ts. *)
Definition indentedBlock : ApplyDiff.SearchReplaceMatch :=
  ApplyDiff.mkMatch 1 (lit "a") (lit "  b") 0.

Definition headingBlock : ApplyDiff.SearchReplaceMatch :=
  ApplyDiff.mkMatch 1 (lit "    <h1>123</h1>") (lit "    <h1>333</h1>") 0.

Definition start0 : ApplyDiff.LoopState :=
  ApplyDiff.mkLoopState 0 (ApplyDiff.mkFinal 1 1 1 1).

(** A task with an empty tracker, and collaborators that allow the access,
    find the file with the content [fileContent] and approve the edit. *)
Definition task0 : SearchAndReplace.Task :=
  SearchAndReplace.mkTask 0 [] [] [] (Some EditPositionTracker.empty) []
    false.

Definition envWith (fileContent : jsstring) : SearchAndReplace.Env :=
  SearchAndReplace.mkEnv (fun _ => true) (fun _ => true)
    (fun _ => Some fileContent) true.

(** A request on the file [f] without the regex and ignore-case options. *)
Definition request (search replace : string) (b : SearchAndReplace.Bounds)
  : SearchAndReplace.ToolUse :=
  SearchAndReplace.mkToolUse (Some "f"%string) (Some (lit search))
    (Some (lit replace)) false false b false.

Definition regexRequest (search replace : string)
  (b : SearchAndReplace.Bounds) : SearchAndReplace.ToolUse :=
  SearchAndReplace.mkToolUse (Some "f"%string) (Some (lit search))
    (Some (lit replace)) true false b false.

(** The positions the task holds for the file [f] after a run, and what
    the run has saved. *)
Definition recorded (r : SearchAndReplace.Run)
  : list EditPositionTracker.EditPosition :=
  match r with
  | SearchAndReplace.Returned cline =>
      match SearchAndReplace.editPositionTracker cline with
      | Some tr =>
          match tr "f"%string with Some ps => ps | None => [] end
      | None => []
      end
  | _ => []
  end.

Definition savedBy (r : SearchAndReplace.Run) : list (string * jsstring) :=
  match r with
  | SearchAndReplace.Returned cline => SearchAndReplace.saved cline
  | _ => []
  end.

End Inputs.

(** ** Notions used for the other properties of the code *)

Module Props.

(** The positions a store holds for a file, oldest first. *)
Definition positionsOf (m : EditPositionTracker.t) (filePath : string)
  : list EditPositionTracker.EditPosition :=
  match m filePath with Some ps => ps | None => [] end.

(** A sequence of [trackPosition] calls, each for a file and a position. *)
Definition trackAll (m : EditPositionTracker.t)
  (calls : list (string * EditPositionTracker.EditPosition))
  : EditPositionTracker.t :=
  fold_left
    (fun m' c => EditPositionTracker.trackPosition m' (fst c) (snd c))
    calls m.

Definition forFile (filePath : string)
  (c : string * EditPositionTracker.EditPosition) : bool :=
  String.eqb (fst c) filePath.

(** The index in the text of the first code unit of the line with the
    0-based number [k]: every line before it counts with its newline. *)
Fixpoint lineOffset (lines : list jsstring) (k : nat) : Z :=
  match k, lines with
  | S k', line :: rest => len line + 1 + lineOffset rest k'
  | _, _ => 0
  end.

(** The parameter a rejection by [validateParams] names: the first one
    missing in the order path, search, replace. *)
Definition firstMissing (relPath : option string)
  (search replace : option jsstring) : option string :=
  match relPath with
  | None | Some EmptyString => Some "path"%string
  | Some (String _ _) =>
      match search with
      | None | Some [] => Some "search"%string
      | Some (_ :: _) =>
          match replace with
          | None => Some "replace"%string
          | Some _ => None
          end
      end
  end.

(** Taking the backslashes of [escapeRegExp] away again. *)
Fixpoint unescape (s : jsstring) : jsstring :=
  match s with
  | [] => []
  | c :: r =>
      if Ascii.eqb c "\"%char then
        match r with
        | d :: r' => d :: unescape r'
        | [] => [c]
        end
      else c :: unescape r
  end.

(** The position, as a line and a column, after a code unit that stands
    at [pos]: a newline leads to the first column of the next line. *)
Definition advance (pos : Z * Z) (c : ascii) : Z * Z :=
  if Ascii.eqb c nl then (fst pos + 1, 1) else (fst pos, snd pos + 1).

(** The position after the text [s] when it is written from [pos] on, and
    the 1-based line and column of the index [i] of a text. *)
Definition after (pos : Z * Z) (s : jsstring) : Z * Z :=
  fold_left advance s pos.

Definition locate (text : jsstring) (i : nat) : Z * Z :=
  after (1, 1) (firstn i text).

(** The end of the replacement [validReplace] when it is written from the
    index [i] of the text on: the line on which it ends, the column of its
    last code unit and the column after it. *)
Definition endOfReplacement (validRelPath : string)
  (text validReplace : jsstring) (i : nat)
  : EditPositionTracker.EditPosition :=
  let '(line, column) := after (locate text i) validReplace in
  EditPositionTracker.mkEditPosition validRelPath line line
    (Some (column - 1)) (Some column) EditPositionTracker.replace.

(** What [exec] of a global regular expression answers on [text]
    (RegExpBuiltinExec of ECMAScript, without the sticky flag): a match
    starts at or after [lastIndex] and lies inside the text, and
    [lastIndex] becomes the index of its end. *)
Definition execContract (exec : SearchAndReplace.Exec) (text : jsstring)
  : Prop :=
  forall (li i n li' : nat),
    exec text li = (Some (i, n), li') ->
    (li <= i)%nat /\ (i + n <= length text)%nat /\ li' = (i + n)%nat.

(** The matches of a global regular expression in a text, from [li] on,
    each with its index and its length: a search starts where the match
    before it ended, and one code unit further after an empty match. *)
Fixpoint matchesWith (fuel : nat) (exec : SearchAndReplace.Exec)
  (text : jsstring) (li : nat) : list (nat * nat) :=
  match fuel with
  | O => []
  | S fuel' =>
      match exec text li with
      | (Some (i, n), li') =>
          (i, n)
            :: matchesWith fuel' exec text
                 (if Nat.eqb n 0 then li' + 1 else li')%nat
      | (None, _) => []
      end
  end.

(** The last element of a list. *)
Definition lastOf {A : Type} (l : list A) : option A :=
  last (map Some l) None.

End Props.

(** * Proofs *)

(** ** Facts about the primitives *)

Section Primitives.

Lemma len_nonneg {A : Type} (l : list A) : 0 <= len l.
Proof. unfold len; lia. Qed.

Lemma len_cons {A : Type} (x : A) (l : list A) : len (x :: l) = len l + 1.
Proof. unfold len; cbn [length]; lia. Qed.

Lemma len_app {A : Type} (l1 l2 : list A) : len (l1 ++ l2) = len l1 + len l2.
Proof. unfold len; rewrite length_app; lia. Qed.

Lemma split_not_nil (s : jsstring) : JS.split s <> [].
Proof.
  destruct s as [|c s]; cbn; [discriminate|].
  destruct (Ascii.eqb c nl); [discriminate|].
  destruct (JS.split s); discriminate.
Qed.

Lemma len_split_pos (s : jsstring) : 1 <= len (JS.split s).
Proof.
  pose proof (split_not_nil s) as H.
  destruct (JS.split s) as [|l ls]; [congruence|].
  rewrite len_cons. pose proof (len_nonneg ls). lia.
Qed.

Lemma join_split (s : jsstring) : JS.join (JS.split s) = s.
Proof.
  induction s as [|c s IH]; [reflexivity|].
  cbn [JS.split].
  destruct (Ascii.eqb c nl) eqn:E.
  - apply Ascii.eqb_eq in E; subst c.
    pose proof (split_not_nil s) as Hne.
    cbn [JS.join]. destruct (JS.split s) as [|l ls]; [congruence|].
    cbn [app]. now rewrite IH.
  - pose proof (split_not_nil s) as Hne.
    destruct (JS.split s) as [|l ls]; [congruence|].
    rewrite <- IH. cbn [JS.join]. destruct ls; reflexivity.
Qed.

Lemma startsWith_firstn (p s : jsstring) :
  JS.startsWith p s = true <-> firstn (length p) s = p.
Proof.
  revert s; induction p as [|a p IH]; intros s; cbn.
  - tauto.
  - destruct s as [|b s]; [split; discriminate|].
    rewrite andb_true_iff, Ascii.eqb_eq, IH. split.
    + intros [-> ->]; reflexivity.
    + intros H; injection H as -> H; auto.
Qed.

Lemma indexOf_Some (s p : jsstring) (i : nat) :
  JS.indexOf s p = Some i -> Spec.indexIs p s i.
Proof.
  revert i; induction s as [|c s IH]; intros i; cbn [JS.indexOf].
  - destruct (JS.startsWith p []) eqn:E; [|discriminate].
    intros [= <-]. apply (proj1 (startsWith_firstn _ _)) in E.
    split; [split; [cbn; lia|exact E]|intros j Hj; lia].
  - destruct (JS.startsWith p (c :: s)) eqn:E.
    + intros [= <-]. apply (proj1 (startsWith_firstn _ _)) in E.
      split; [split; [cbn; lia|exact E]|intros j Hj; lia].
    + destruct (JS.indexOf s p) as [k|] eqn:Ek; [|discriminate].
      cbn. intros [= <-]. destruct (IH k eq_refl) as [[Hle Hocc] Hmin].
      split; [split; [cbn; lia|exact Hocc]|].
      intros [|j] Hj [Hjl Hjo].
      * cbn [skipn] in Hjo. apply (proj2 (startsWith_firstn _ _)) in Hjo.
        rewrite E in Hjo; discriminate.
      * apply (Hmin j); [lia|]. split; [cbn in Hjl; lia|exact Hjo].
Qed.

Lemma indexOf_None (s p : jsstring) :
  JS.indexOf s p = None -> Spec.notFound p s.
Proof.
  induction s as [|c s IH]; cbn [JS.indexOf].
  - destruct (JS.startsWith p []) eqn:E; [discriminate|].
    intros _ j [Hj Ho]. cbn in Hj. replace j with 0%nat in Ho by lia.
    cbn [skipn] in Ho. apply (proj2 (startsWith_firstn _ _)) in Ho.
    rewrite E in Ho; discriminate.
  - destruct (JS.startsWith p (c :: s)) eqn:E; [discriminate|].
    destruct (JS.indexOf s p) as [k|] eqn:Ek; [discriminate|].
    intros _ [|j] [Hj Ho].
    + cbn [skipn] in Ho. apply (proj2 (startsWith_firstn _ _)) in Ho.
      rewrite E in Ho; discriminate.
    + apply (IH eq_refl j). split; [cbn in Hj; lia|exact Ho].
Qed.

Lemma indexIs_unique (p s : jsstring) (i j : nat) :
  Spec.indexIs p s i -> Spec.indexIs p s j -> i = j.
Proof.
  intros [Hi Hmi] [Hj Hmj].
  destruct (Nat.lt_trichotomy i j) as [H|[H|H]]; [|exact H|].
  - exfalso; exact (Hmj i H Hi).
  - exfalso; exact (Hmi j H Hj).
Qed.

Lemma leadingWhitespace_trimStart (s : jsstring) :
  Spec.leadingWhitespace s = len s - len (JS.trimStart s).
Proof.
  induction s as [|c s IH]; cbn [Spec.leadingWhitespace JS.trimStart].
  - reflexivity.
  - destruct (JS.isWhiteSpace c).
    + rewrite IH, len_cons. lia.
    + lia.
Qed.

End Primitives.

(** ** apply_diff: the order of the blocks and the line offsets *)

Section LineOffsets.

Import ApplyDiff.
Import Spec.

Lemma insertMatch_perm (m : SearchReplaceMatch) (l : list SearchReplaceMatch) :
  Permutation (m :: l) (insertMatch m l).
Proof.
  induction l as [|x l IH]; cbn [insertMatch]; [reflexivity|].
  destruct (startLine m <=? startLine x); [reflexivity|].
  etransitivity; [apply perm_swap|]. now constructor.
Qed.

Lemma sortMatches_perm (l : list SearchReplaceMatch) :
  Permutation l (sortMatches l).
Proof.
  induction l as [|m l IH]; cbn; [constructor|].
  etransitivity; [|apply insertMatch_perm]. now constructor.
Qed.

Lemma insertMatch_sorted (m : SearchReplaceMatch)
  (l : list SearchReplaceMatch) :
  StronglySorted byStartLine l -> StronglySorted byStartLine (insertMatch m l).
Proof.
  induction 1 as [|x l Hs IH Hx]; cbn [insertMatch].
  - repeat constructor.
  - destruct (startLine m <=? startLine x) eqn:E.
    + apply Z.leb_le in E. constructor; [now constructor|].
      constructor; [exact E|].
      eapply Forall_impl; [|exact Hx]. unfold byStartLine; intros; lia.
    + apply Z.leb_gt in E. constructor; [exact IH|].
      eapply Permutation_Forall; [apply insertMatch_perm|].
      constructor; [unfold byStartLine; lia|exact Hx].
Qed.

Lemma sortMatches_sorted (l : list SearchReplaceMatch) :
  StronglySorted byStartLine (sortMatches l).
Proof.
  induction l; cbn; [constructor|now apply insertMatch_sorted].
Qed.

(** Inserting [m] puts it before every block of the same start line. *)
Lemma insertMatch_filter (k : Z) (m : SearchReplaceMatch)
  (l : list SearchReplaceMatch) :
  filter (declaredAt k) (insertMatch m l) = filter (declaredAt k) (m :: l).
Proof.
  induction l as [|x l IH]; cbn [insertMatch]; [reflexivity|].
  destruct (startLine m <=? startLine x) eqn:E; [reflexivity|].
  apply Z.leb_gt in E.
  cbn [filter] in *. rewrite IH.
  unfold declaredAt.
  destruct (startLine m =? k) eqn:Em; [|reflexivity].
  apply Z.eqb_eq in Em.
  replace (startLine x =? k) with false by (symmetry; apply Z.eqb_neq; lia).
  reflexivity.
Qed.

Lemma sortMatches_stable (k : Z) (l : list SearchReplaceMatch) :
  filter (declaredAt k) (sortMatches l) = filter (declaredAt k) l.
Proof.
  induction l as [|m l IH]; [reflexivity|].
  cbn [sortMatches fold_right]. fold (sortMatches l).
  rewrite insertMatch_filter. cbn [filter]. now rewrite IH.
Qed.

Lemma blockStates_length (ls : list jsstring) (st : LoopState)
  (ms : list SearchReplaceMatch) :
  length (blockStates ls st ms) = length ms.
Proof.
  revert st; induction ms as [|m ms IH]; intros st; cbn; [reflexivity|].
  now rewrite IH.
Qed.

Lemma last_cons_default {A : Type} (l : list A) (a d : A) :
  last (a :: l) d = last l a.
Proof.
  revert a d; induction l as [|b l IH]; intros a d; [reflexivity|].
  change (last (a :: b :: l) d) with (last (b :: l) d).
  now rewrite !IH.
Qed.

Lemma processBlocks_last (ls : list jsstring) (st : LoopState)
  (ms : list SearchReplaceMatch) :
  processBlocks ls st ms = last (blockStates ls st ms) st.
Proof.
  revert st; induction ms as [|m ms IH]; intros st; [reflexivity|].
  cbn [processBlocks fold_left blockStates].
  fold (processBlocks ls (processBlock ls st m) ms). rewrite IH.
  now rewrite last_cons_default.
Qed.

(** The state after the block of rank [i]: the offset it saw is the sum
    of the deltas of the blocks before it. *)
Lemma blockStates_nth (ls : list jsstring) (ms : list SearchReplaceMatch) :
  forall (st : LoopState) (i : nat) (m : SearchReplaceMatch) (s : LoopState),
    nth_error ms i = Some m ->
    nth_error (blockStates ls st ms) i = Some s ->
    let seen := cumulativeLineOffset st + Spec.sumDeltas (firstn i ms) in
    finalStartLine (final s) = startLine m + seen
    /\ finalEndLine (final s)
       = startLine m + seen + len (JS.split (replaceContent m)) - 1
    /\ cumulativeLineOffset s
       = seen + (len (JS.split (replaceContent m))
                 - len (JS.split (searchContent m))).
Proof.
  induction ms as [|x ms IH]; intros st [|i] m s; cbn [nth_error]; try discriminate.
  - intros [= ->] [= <-]. cbn.
    unfold adjustedEndLine, adjustedStartLine, lineDelta. repeat split; lia.
  - intros Hm Hs. cbn [blockStates] in Hs. cbn [nth_error] in Hs.
    destruct (IH _ _ _ _ Hm Hs) as (H1 & H2 & H3).
    cbn [firstn Spec.sumDeltas fold_right].
    fold (Spec.sumDeltas (firstn i ms)).
    cbn [processBlock cumulativeLineOffset] in H1, H2, H3 |- *.
    repeat split; lia.
Qed.

End LineOffsets.

(** C2.  The blocks are processed in the order of their declared start
    lines, blocks of the same start line in source order (the sorted list
    is a permutation of the parsed one, is ascending, and keeps the blocks
    of every start line in their order); the block of rank [i] gets
    adjustedStartLine = declared start line + the line deltas of the blocks
    before it, adjustedEndLine = adjustedStartLine + lines of the replace
    text - 1, and its own delta is added to the offset afterwards; the loop
    ends in the state after the last block.  With blocks declared at 10 and
    20, in either input order, where the first adds 3 net lines, the
    second is adjusted to line 23. *)
Theorem C2_line_offset_tracker :
  forall (modifiedContentLines : list jsstring) (f0 : ApplyDiff.Final)
         (allMatches : list ApplyDiff.SearchReplaceMatch),
    let start := ApplyDiff.mkLoopState 0 f0 in
    let sorted := ApplyDiff.sortMatches allMatches in
    let states := ApplyDiff.blockStates modifiedContentLines start sorted in
    (Permutation allMatches sorted
     /\ StronglySorted Spec.byStartLine sorted
     /\ forall k, filter (Spec.declaredAt k) sorted
                  = filter (Spec.declaredAt k) allMatches)
    /\ (length states = length sorted
        /\ ApplyDiff.processBlocks modifiedContentLines start sorted
           = last states start)
    /\ (forall i m st,
          nth_error sorted i = Some m ->
          nth_error states i = Some st ->
          let offset := Spec.sumDeltas (firstn i sorted) in
          let replaceLines := len (JS.split (ApplyDiff.replaceContent m)) in
          let searchLines := len (JS.split (ApplyDiff.searchContent m)) in
          ApplyDiff.finalStartLine (ApplyDiff.final st)
          = ApplyDiff.startLine m + offset
          /\ ApplyDiff.finalEndLine (ApplyDiff.final st)
             = ApplyDiff.finalStartLine (ApplyDiff.final st) + replaceLines - 1
          /\ ApplyDiff.cumulativeLineOffset st
             = offset + (replaceLines - searchLines))
    /\ (forall b1 b2 st,
          ApplyDiff.startLine b1 = 10 ->
          ApplyDiff.startLine b2 = 20 ->
          ApplyDiff.lineDelta b1 = 3 ->
          allMatches = [b1; b2] \/ allMatches = [b2; b1] ->
          nth_error states 1 = Some st ->
          ApplyDiff.finalStartLine (ApplyDiff.final st) = 23).
Proof.
  intros ls f0 allMatches start sorted states.
  assert (Hnth : forall i m st,
             nth_error sorted i = Some m ->
             nth_error states i = Some st ->
             ApplyDiff.finalStartLine (ApplyDiff.final st)
             = ApplyDiff.startLine m + Spec.sumDeltas (firstn i sorted)
             /\ ApplyDiff.finalEndLine (ApplyDiff.final st)
                = ApplyDiff.startLine m + Spec.sumDeltas (firstn i sorted)
                  + len (JS.split (ApplyDiff.replaceContent m)) - 1
             /\ ApplyDiff.cumulativeLineOffset st
                = Spec.sumDeltas (firstn i sorted)
                  + (len (JS.split (ApplyDiff.replaceContent m))
                     - len (JS.split (ApplyDiff.searchContent m)))).
  { intros i m st Hm Hst.
    destruct (blockStates_nth ls sorted start i m st Hm Hst) as (H1 & H2 & H3).
    cbn [start ApplyDiff.cumulativeLineOffset] in H1, H2, H3.
    repeat split; lia. }
  split; [|split; [|split]].
  - split; [apply sortMatches_perm|].
    split; [apply sortMatches_sorted|intros k; apply sortMatches_stable].
  - split; [apply blockStates_length|apply processBlocks_last].
  - intros i m st Hm Hst offset replaceLines searchLines.
    destruct (Hnth i m st Hm Hst) as (H1 & H2 & H3).
    subst offset replaceLines searchLines. repeat split; lia.
  - intros b1 b2 st H10 H20 Hd Hall Hst.
    assert (Hsorted : sorted = [b1; b2]).
    { subst sorted. destruct Hall as [-> | ->]; cbn.
      - rewrite H10, H20. reflexivity.
      - rewrite H10, H20. reflexivity. }
    assert (Hm : nth_error sorted 1 = Some b2) by (now rewrite Hsorted).
    destruct (Hnth 1%nat b2 st Hm Hst) as (H1 & _).
    rewrite H1, Hsorted. cbn. rewrite Hd, H20. reflexivity.
Qed.

(** The claim at two concrete blocks given in reverse order. *)
Lemma C2_line_offset_tracker_witness :
  exists st,
    nth_error
      (ApplyDiff.blockStates [] Inputs.start0
         (ApplyDiff.sortMatches [Inputs.blockAt20; Inputs.blockAt10])) 1
    = Some st
    /\ ApplyDiff.finalStartLine (ApplyDiff.final st) = 23.
Proof.
  eexists. split; [reflexivity|].
  refine (proj2 (proj2 (proj2
            (C2_line_offset_tracker [] (ApplyDiff.mkFinal 1 1 1 1)
               [Inputs.blockAt20; Inputs.blockAt10])))
            Inputs.blockAt10 Inputs.blockAt20 _ eq_refl eq_refl eq_refl
            (or_intror eq_refl) eq_refl).
Defined.

(** ** apply_diff: the columns *)

Section Columns.

Import ApplyDiff.

Lemma finalLine_lineAt (ls : list jsstring) (n : Z) (line : jsstring) :
  Spec.finalLine ls n = Some line ->
  ((n <=? len ls) && (n >? 0) = true) /\ lineAt ls n = Some line.
Proof.
  unfold Spec.finalLine, lineAt. destruct (0 <? n) eqn:E; [|discriminate].
  apply Z.ltb_lt in E. intros H. split; [|exact H].
  assert (Hlt : (Z.to_nat (n - 1) < length ls)%nat)
    by (apply nth_error_Some; congruence).
  apply andb_true_iff. split; [apply Z.leb_le; unfold len; lia|].
  apply Z.gtb_lt; lia.
Qed.

Lemma finalLine_None (ls : list jsstring) (n : Z) :
  Spec.finalLine ls n = None -> (n <=? len ls) && (n >? 0) = false.
Proof.
  unfold Spec.finalLine. destruct (0 <? n) eqn:E.
  - apply Z.ltb_lt in E. intros H. apply nth_error_None in H.
    apply andb_false_iff. left. apply Z.leb_gt. unfold len. lia.
  - intros _. apply Z.ltb_ge in E. apply andb_false_iff. right.
    destruct (n >? 0) eqn:G; [apply Z.gtb_lt in G; lia|reflexivity].
Qed.

Lemma len_split_gtb (s : jsstring) : (len (JS.split s) >? 0) = true.
Proof. pose proof (len_split_pos s). apply Z.gtb_lt. lia. Qed.

End Columns.

(** C6 (amended).  When the final document has a non-empty line at
    adjustedStartLine, the start column is the index of the trimmed first
    line of the replace text within it, plus 1, and when the text is not
    found, the number of leading white-space characters of that first
    line, plus 1; when the line is missing or empty the start column is 1.
    When the final document has a line at adjustedEndLine, the end column
    is the index of the right-trimmed last line of the replace text within
    it plus the trimmed length plus 1, and when the text is not found, the
    right-trimmed length of the final line, plus 1; when the line is
    missing the end column is 1. *)
Theorem C6_position_resolver_columns :
  forall (finalLines : list jsstring) (st : ApplyDiff.LoopState)
         (m : ApplyDiff.SearchReplaceMatch),
    let replaceLines := JS.split (ApplyDiff.replaceContent m) in
    let firstLine := nth 0 replaceLines [] in
    let lastLine := last replaceLines [] in
    let aStart :=
      ApplyDiff.adjustedStartLine (ApplyDiff.cumulativeLineOffset st) m in
    let aEnd :=
      ApplyDiff.adjustedEndLine (ApplyDiff.cumulativeLineOffset st) m in
    let result := ApplyDiff.final (ApplyDiff.processBlock finalLines st m) in
    (forall line,
        Spec.finalLine finalLines aStart = Some line -> line <> [] ->
        (forall i, Spec.indexIs (JS.trim firstLine) line i ->
                   ApplyDiff.finalStartColumn result = Z.of_nat i + 1)
        /\ (Spec.notFound (JS.trim firstLine) line ->
            ApplyDiff.finalStartColumn result
            = Spec.leadingWhitespace firstLine + 1))
    /\ (Spec.finalLine finalLines aStart = None
        \/ Spec.finalLine finalLines aStart = Some [] ->
        ApplyDiff.finalStartColumn result = 1)
    /\ (forall line,
          Spec.finalLine finalLines aEnd = Some line ->
          (forall i, Spec.indexIs (JS.trimEnd lastLine) line i ->
                     ApplyDiff.finalEndColumn result
                     = Z.of_nat i + len (JS.trimEnd lastLine) + 1)
          /\ (Spec.notFound (JS.trimEnd lastLine) line ->
              ApplyDiff.finalEndColumn result = len (JS.trimEnd line) + 1))
    /\ (Spec.finalLine finalLines aEnd = None ->
        ApplyDiff.finalEndColumn result = 1).
Proof.
  intros ls st m replaceLines firstLine lastLine aStart aEnd result.
  assert (Hs : ApplyDiff.finalStartColumn result
               = ApplyDiff.startColumnOf ls aStart replaceLines) by reflexivity.
  assert (He : ApplyDiff.finalEndColumn result
               = ApplyDiff.endColumnOf ls aEnd replaceLines) by reflexivity.
  rewrite Hs, He. clear Hs He.
  unfold ApplyDiff.startColumnOf, ApplyDiff.endColumnOf.
  fold firstLine. fold lastLine.
  assert (Hpos : (len replaceLines >? 0) = true) by apply len_split_gtb.
  rewrite !Hpos, !andb_true_r.
  split; [|split; [|split]].
  - intros line Hline Hne.
    destruct (finalLine_lineAt _ _ _ Hline) as [-> ->].
    destruct line as [|c line]; [congruence|]. cbn [ApplyDiff.truthy].
    destruct (JS.indexOf (c :: line) (JS.trim firstLine)) as [k|] eqn:E.
    + apply indexOf_Some in E. split.
      * intros i Hi. now rewrite (indexIs_unique _ _ _ _ Hi E).
      * intros Hnf. exfalso. destruct E as [E _]. exact (Hnf k E).
    + apply indexOf_None in E. split.
      * intros i [Hi _]. exfalso. exact (E i Hi).
      * intros _. now rewrite leadingWhitespace_trimStart.
  - intros [H|H].
    + now rewrite (finalLine_None _ _ H).
    + destruct (finalLine_lineAt _ _ _ H) as [-> ->]. reflexivity.
  - intros line Hline.
    destruct (finalLine_lineAt _ _ _ Hline) as [-> ->].
    destruct (JS.indexOf line (JS.trimEnd lastLine)) as [k|] eqn:E.
    + apply indexOf_Some in E. split.
      * intros i Hi. rewrite (indexIs_unique _ _ _ _ Hi E).
        destruct line as [|c line]; cbn [ApplyDiff.truthy]; [|reflexivity].
        destruct E as [[Hk Ho] _]. cbn in Hk.
        replace k with 0%nat in * by lia. cbn [skipn] in Ho.
        rewrite firstn_nil in Ho. rewrite <- Ho. reflexivity.
      * intros Hnf. exfalso. destruct E as [E _]. exact (Hnf k E).
    + apply indexOf_None in E. split.
      * intros i [Hi _]. exfalso. exact (E i Hi).
      * intros _. destruct line; reflexivity.
  - intros H. now rewrite (finalLine_None _ _ H).
Qed.

(** The claim as stated fails where the final line is empty: the block
    [Inputs.indentedBlock] lands on the empty first line of the final
    document, its text is not found there, its first line starts with two
    blanks, and the start column is 1, not 3. *)
Lemma C6_position_resolver_columns_counterexample :
  let finalLines := JS.split (nl :: lit "x") in
  let m := Inputs.indentedBlock in
  let firstLine := nth 0 (JS.split (ApplyDiff.replaceContent m)) [] in
  Spec.finalLine finalLines (ApplyDiff.adjustedStartLine 0 m) = Some []
  /\ Spec.notFound (JS.trim firstLine) []
  /\ Spec.leadingWhitespace firstLine + 1 = 3
  /\ ApplyDiff.finalStartColumn
       (ApplyDiff.final (ApplyDiff.processBlock finalLines Inputs.start0 m))
     = 1.
Proof.
  cbv zeta. split; [reflexivity|]. split; [|split; reflexivity].
  apply indexOf_None. reflexivity.
Qed.

(** The amended claim at the block of the source's own comment. *)
Lemma C6_position_resolver_columns_witness :
  ApplyDiff.finalStartColumn
    (ApplyDiff.final
       (ApplyDiff.processBlock [lit "    <h1>333</h1>"] Inputs.start0
          Inputs.headingBlock)) = 5
  /\ ApplyDiff.finalEndColumn
       (ApplyDiff.final
          (ApplyDiff.processBlock [lit "    <h1>333</h1>"] Inputs.start0
             Inputs.headingBlock)) = 17.
Proof.
  pose proof (C6_position_resolver_columns [lit "    <h1>333</h1>"]
                Inputs.start0 Inputs.headingBlock) as H.
  cbv zeta in H. destruct H as (Hs & _ & He & _). split.
  - refine (proj1 (Hs (lit "    <h1>333</h1>") eq_refl _) 4%nat _).
    + discriminate.
    + apply indexOf_Some. reflexivity.
  - refine (proj1 (He (lit "    <h1>333</h1>") eq_refl) 0%nat _).
    apply indexOf_Some. reflexivity.
Defined.

(** ** search_and_replace: parameter validation *)

(** C10 (amended).  For an invocation that is not partial and has a
    non-empty path, an empty search string is rejected as the missing
    parameter "search": the mistake is recorded, no file is read and
    nothing is saved or tracked, whatever the collaborators answer.  With
    path and search present, the empty replacement is accepted, and the
    replacement is rejected exactly when it is undefined. *)
Theorem C10_empty_search_rejected :
  forall (fuel : nat) (env : SearchAndReplace.Env)
         (cline : SearchAndReplace.Task) (block : SearchAndReplace.ToolUse)
         (c : ascii) (p : string),
    SearchAndReplace.partial block = false ->
    SearchAndReplace.path block = Some (String c p) ->
    let rejected :=
      SearchAndReplace.recordMistake cline
        (SearchAndReplace.MissingParamError "search_and_replace" "search") in
    (SearchAndReplace.search block = Some [] ->
     SearchAndReplace.searchAndReplaceTool fuel env cline block
     = SearchAndReplace.Returned rejected
     /\ SearchAndReplace.filesRead rejected = SearchAndReplace.filesRead cline
     /\ SearchAndReplace.saved rejected = SearchAndReplace.saved cline
     /\ SearchAndReplace.editPositionTracker rejected
        = SearchAndReplace.editPositionTracker cline
     /\ SearchAndReplace.consecutiveMistakeCount rejected
        = SearchAndReplace.consecutiveMistakeCount cline + 1)
    /\ (forall (d : ascii) (s : jsstring),
          SearchAndReplace.search block = Some (d :: s) ->
          (SearchAndReplace.replace block = Some [] ->
           SearchAndReplace.validateParams cline (SearchAndReplace.path block)
             (SearchAndReplace.search block) (SearchAndReplace.replace block)
           = (cline, true))
          /\ (snd (SearchAndReplace.validateParams cline
                     (SearchAndReplace.path block)
                     (SearchAndReplace.search block)
                     (SearchAndReplace.replace block)) = false
              <-> SearchAndReplace.replace block = None)).
Proof.
  intros fuel env cline block c p Hpartial Hpath rejected. split.
  - intros Hsearch. unfold SearchAndReplace.searchAndReplaceTool.
    rewrite Hpartial, Hpath, Hsearch. cbn. repeat split; reflexivity.
  - intros d s Hsearch. rewrite Hpath, Hsearch. cbn. split.
    + intros ->. reflexivity.
    + destruct (SearchAndReplace.replace block); cbn; split;
        intros H; try reflexivity; discriminate.
Qed.

(** As the claim states it, every invocation with an empty search string
    is rejected for "search".  An invocation without a path is rejected
    for "path"; a partial one is not rejected at all. *)
Lemma C10_empty_search_rejected_counterexample :
  let noPath :=
    SearchAndReplace.mkToolUse None (Some []) (Some (lit "x")) false false
      SearchAndReplace.noBounds false in
  let partialBlock :=
    SearchAndReplace.mkToolUse (Some "f"%string) (Some []) (Some (lit "x"))
      false false SearchAndReplace.noBounds true in
  SearchAndReplace.searchAndReplaceTool 0 (Inputs.envWith []) Inputs.task0
    noPath
  = SearchAndReplace.Returned
      (SearchAndReplace.recordMistake Inputs.task0
         (SearchAndReplace.MissingParamError "search_and_replace" "path"))
  /\ SearchAndReplace.searchAndReplaceTool 0 (Inputs.envWith []) Inputs.task0
       partialBlock
     = SearchAndReplace.Returned Inputs.task0
  /\ SearchAndReplace.MissingParamError "search_and_replace" "path"
     <> SearchAndReplace.MissingParamError "search_and_replace" "search".
Proof.
  cbv zeta. split; [reflexivity|]. split; [reflexivity|discriminate].
Qed.

(** The amended claim at the request to replace an empty search string in
    the file [f]. *)
Lemma C10_empty_search_rejected_witness :
  SearchAndReplace.searchAndReplaceTool 0 (Inputs.envWith (lit "foo"))
    Inputs.task0 (Inputs.request "" "bar" SearchAndReplace.noBounds)
  = SearchAndReplace.Returned
      (SearchAndReplace.recordMistake Inputs.task0
         (SearchAndReplace.MissingParamError "search_and_replace" "search"))
  /\ SearchAndReplace.validateParams Inputs.task0 (Some "f"%string)
       (Some (lit "foo")) (Some [])
     = (Inputs.task0, true).
Proof.
  split.
  - exact (proj1 (proj1 (C10_empty_search_rejected 0
                           (Inputs.envWith (lit "foo")) Inputs.task0
                           (Inputs.request "" "bar" SearchAndReplace.noBounds)
                           "f"%char EmptyString eq_refl eq_refl) eq_refl)).
  - exact (proj1 (proj2 (C10_empty_search_rejected 0
                           (Inputs.envWith (lit "foo")) Inputs.task0
                           (Inputs.request "foo" "" SearchAndReplace.noBounds)
                           "f"%char EmptyString eq_refl eq_refl)
                    "f"%char (lit "oo") eq_refl) eq_refl).
Defined.

(** ** Facts about the regular expressions *)

Section RegExpFacts.

Lemma matchHere_length (ic : bool) (p : list JS.Item) :
  forall (s : jsstring) (n : nat),
    JS.matchHere ic p s = Some n -> (n <= length s)%nat.
Proof.
  induction p as [|it p IH]; intros s n; cbn [JS.matchHere].
  - intros [= <-]. lia.
  - destruct (JS.starred it).
    + revert n. induction s as [|c s IHs]; intros n.
      * intros H. apply IH in H. exact H.
      * destruct (JS.atomMatches ic (JS.atom it) c).
        -- match goal with
           | |- context [match ?star s with _ => _ end] =>
               destruct (star s) as [k|] eqn:Ek
           end.
           ++ intros [= <-]. specialize (IHs k eq_refl). cbn. lia.
           ++ intros H. apply IH in H. exact H.
        -- intros H. apply IH in H. exact H.
    + destruct s as [|c s]; [discriminate|].
      destruct (JS.atomMatches ic (JS.atom it) c); [|discriminate].
      destruct (JS.matchHere ic p s) as [k|] eqn:Ek; [|discriminate].
      cbn. intros [= <-]. apply IH in Ek. cbn. lia.
Qed.

Lemma search_bounds (ic : bool) (p : list JS.Item) :
  forall (s : jsstring) (k n : nat),
    JS.search ic p s = Some (k, n) ->
    (k + n <= length s)%nat
    /\ JS.matchHere ic p (skipn k s) = Some n
    /\ forall j, (j < k)%nat -> JS.matchHere ic p (skipn j s) = None.
Proof.
  induction s as [|c s IH]; intros k n; cbn [JS.search].
  - destruct (JS.matchHere ic p []) as [m|] eqn:E; [|discriminate].
    intros [= <- <-]. split; [apply matchHere_length in E; cbn in *; lia|].
    split; [exact E|intros j Hj; lia].
  - destruct (JS.matchHere ic p (c :: s)) as [m|] eqn:E.
    + intros [= <- <-]. split; [apply matchHere_length in E; cbn in *; lia|].
      split; [exact E|intros j Hj; lia].
    + destruct (JS.search ic p s) as [[k' n']|] eqn:Es; [|discriminate].
      intros [= <- <-]. destruct (IH k' n' eq_refl) as (Hb & Hm & Hmin).
      split; [cbn; lia|]. split; [exact Hm|].
      intros [|j] Hj; [exact E|]. apply Hmin. lia.
Qed.

Lemma search_None (ic : bool) (p : list JS.Item) :
  forall (s : jsstring),
    JS.search ic p s = None ->
    forall j, (j <= length s)%nat -> JS.matchHere ic p (skipn j s) = None.
Proof.
  induction s as [|c s IH]; cbn [JS.search].
  - destruct (JS.matchHere ic p []) eqn:E; [discriminate|].
    intros _ j Hj. cbn in Hj. replace j with 0%nat by lia. exact E.
  - destruct (JS.matchHere ic p (c :: s)) eqn:E; [discriminate|].
    destruct (JS.search ic p s) as [[k n]|] eqn:Es; [discriminate|].
    intros _ [|j] Hj; [exact E|]. apply (IH eq_refl). cbn in Hj. lia.
Qed.

(** What [exec] answers: a match at or after [lastIndex], inside the text,
    and [lastIndex] moves to its end. *)
Lemma exec_Some (re : JS.RegExp) (text : jsstring) (li i n li' : nat) :
  JS.exec re text li = (Some (i, n), li') ->
  (li <= i)%nat /\ (i + n <= length text)%nat /\ li' = (i + n)%nat
  /\ JS.matchHere (JS.ignoreCase re) (JS.source re) (skipn i text) = Some n.
Proof.
  unfold JS.exec. destruct (Nat.ltb (length text) li) eqn:E; [discriminate|].
  apply Nat.ltb_ge in E.
  destruct (JS.search _ _ _) as [[k m]|] eqn:Es; [|discriminate].
  intros [= <- <- <-]. apply search_bounds in Es.
  destruct Es as (Hb & Hm & _). rewrite length_skipn in Hb.
  rewrite skipn_skipn in Hm. rewrite (Nat.add_comm li k).
  repeat split; try lia. exact Hm.
Qed.


End RegExpFacts.

(** ** search_and_replace: the last-match scan *)

Section ScanFacts.

Import SearchAndReplace.

Variable re : JS.RegExp.
Variable fileContent : jsstring.
Variable lines : list jsstring.
Variable b : Bounds.

(** Each of the loop's two column variables is compared with itself, so
    the column test holds for every match. *)
Lemma withinColumnRange_always (b' : Bounds) (p : MatchPosition) :
  withinColumnRange b' p = true.
Proof.
  unfold withinColumnRange. rewrite Z.geb_leb, !Z.leb_refl.
  now destruct (mStartLine p =? mEndLine p).
Qed.

Lemma qualifies_lines (p : MatchPosition) :
  qualifies b p = withinLineRange b p.
Proof.
  unfold qualifies. now rewrite withinColumnRange_always, andb_true_r.
Qed.

Lemma lastThat_Some {A : Type} (f : A -> bool) (l : list A) (m : A) :
  Spec.lastThat f l = Some m -> In m l /\ f m = true.
Proof.
  induction l as [|x l IH]; cbn [Spec.lastThat]; [discriminate|].
  destruct (Spec.lastThat f l) as [y|].
  - intros [= <-]. destruct (IH eq_refl) as [Hin Hf]. split; [now right|exact Hf].
  - destruct (f x) eqn:E; [|discriminate].
    intros [= <-]. split; [now left|exact E].
Qed.

(** The scan keeps the last qualifying match among those it visits. *)
Lemma scan_lastThat (fuel : nat) :
  forall (st st' : ScanState),
    scan fuel re fileContent lines b st = Some st' ->
    lastMatchPosition st'
    = match Spec.lastThat (qualifies b)
              (Spec.visited fuel re fileContent lines b st) with
      | Some m => Some m
      | None => lastMatchPosition st
      end.
Proof.
  induction fuel as [|fuel IH]; intros st st'; [discriminate|].
  cbn [scan Spec.visited].
  destruct (scanStep re fileContent lines b st) as [st1|] eqn:Estep.
  - intros Hscan. rewrite (IH _ _ Hscan).
    unfold scanStep in Estep.
    destruct (JS.exec re fileContent (lastIndex st)) as [[[i n]|] li];
      [|discriminate].
    cbn [Spec.lastThat].
    destruct (Spec.lastThat (qualifies b)
                (Spec.visited fuel re fileContent lines b st1)) as [y|];
      [reflexivity|].
    destruct (qualifies b (positionOf lines i n)).
    + now injection Estep as <-.
    + now injection Estep as <-.
  - intros [= <-].
    destruct (JS.exec re fileContent (lastIndex st)) as [[[i n]|] li];
      reflexivity.
Qed.

(** A scan that has ended within [fuel] turns ends the same way with
    more. *)
Lemma scan_more_fuel (fuel extra : nat) :
  forall (st st' : ScanState),
    scan fuel re fileContent lines b st = Some st' ->
    scan (fuel + extra) re fileContent lines b st = Some st'.
Proof.
  induction fuel as [|fuel IH]; intros st st'; [discriminate|].
  cbn [Nat.add scan].
  destruct (scanStep re fileContent lines b st) as [st1|]; [apply IH|auto].
Qed.

Lemma scanStep_cursor (st st' : ScanState) :
  scanStep re fileContent lines b st = Some st' ->
  (lastIndex st <= length fileContent)%nat.
Proof.
  unfold scanStep, JS.exec.
  destruct (Nat.ltb (length fileContent) (lastIndex st)) eqn:E; [discriminate|].
  intros _. now apply Nat.ltb_ge in E.
Qed.

(** When every turn moves the cursor on, the scan ends. *)
Lemma scan_ends (Hmove : Spec.movesOn re fileContent lines b) (fuel : nat) :
  forall (st : ScanState),
    (length fileContent + 1 - lastIndex st < fuel)%nat ->
    exists st', scan fuel re fileContent lines b st = Some st'.
Proof.
  induction fuel as [|fuel IH]; intros st Hf; [lia|].
  cbn [scan].
  destruct (scanStep re fileContent lines b st) as [st1|] eqn:Estep.
  - apply IH. pose proof (Hmove _ _ Estep). pose proof (scanStep_cursor _ _ Estep).
    lia.
  - now exists st.
Qed.

(** The turns of a scan whose every turn moves the cursor on: at most
    [length fileContent + 1] matches are visited. *)
Lemma visited_count (Hmove : Spec.movesOn re fileContent lines b)
  (fuel : nat) :
  forall (st : ScanState),
    (length (Spec.visited fuel re fileContent lines b st)
     <= length fileContent + 1 - lastIndex st)%nat.
Proof.
  induction fuel as [|fuel IH]; intros st; cbn [Spec.visited]; [cbn; lia|].
  destruct (scanStep re fileContent lines b st) as [st1|] eqn:Estep.
  - destruct (JS.exec re fileContent (lastIndex st)) as [[[i n]|] li];
      [|cbn; lia].
    cbn [length]. specialize (IH st1).
    pose proof (Hmove _ _ Estep). pose proof (scanStep_cursor _ _ Estep). lia.
  - destruct (JS.exec re fileContent (lastIndex st)) as [[[i n]|] li]; cbn; lia.
Qed.

End ScanFacts.

(** ** Literal patterns *)

Section LiteralFacts.

Import SearchAndReplace.

(** [escapeRegExp] escapes exactly the syntax characters. *)
Lemma isEscaped_isSyntaxChar (c : ascii) : isEscaped c = JS.isSyntaxChar c.
Proof.
  destruct c as [[] [] [] [] [] [] [] []]; reflexivity.
Qed.

Lemma unescaped_plain (c : ascii) :
  isEscaped c = false ->
  Ascii.eqb c "\"%char = false /\ Ascii.eqb c "."%char = false
  /\ Ascii.eqb c "*"%char = false.
Proof.
  destruct c as [[] [] [] [] [] [] [] []]; cbn; intros H;
    repeat split; try reflexivity; discriminate.
Qed.

Lemma tokenize_escapeRegExp (P : jsstring) :
  JS.tokenize (escapeRegExp P)
  = Some (map (fun c => JS.TAtom (JS.Lit c)) P).
Proof.
  induction P as [|c P IH]; [reflexivity|].
  cbn [escapeRegExp]. destruct (isEscaped c) eqn:E.
  - cbn [JS.tokenize].
    replace (Ascii.eqb "\"%char "\"%char) with true by reflexivity.
    rewrite <- isEscaped_isSyntaxChar, E, IH. reflexivity.
  - destruct (unescaped_plain c E) as (H1 & H2 & H3).
    cbn [JS.tokenize]. rewrite H1, H2, H3.
    rewrite <- isEscaped_isSyntaxChar, E, IH. reflexivity.
Qed.

Lemma items_literal (P : jsstring) :
  JS.items (map (fun c => JS.TAtom (JS.Lit c)) P)
  = Some (Spec.literalItems P).
Proof.
  induction P as [|c P IH]; [reflexivity|].
  cbn [map JS.items]. destruct P as [|d P].
  - reflexivity.
  - cbn [map] in *. rewrite IH. reflexivity.
Qed.

(** In literal mode the search pattern matches the search text itself. *)
Lemma searchPattern_literal (ic : bool) (P : jsstring) :
  searchPattern false ic P = Some (Spec.literal ic P).
Proof.
  unfold searchPattern, JS.compile.
  now rewrite tokenize_escapeRegExp, items_literal.
Qed.

Lemma matchHere_literal (ic : bool) (P : jsstring) :
  forall s : jsstring,
    JS.matchHere ic (Spec.literalItems P) s
    = if Spec.occursHere ic P s then Some (length P) else None.
Proof.
  induction P as [|a P IH]; intros s; [reflexivity|].
  cbn [Spec.literalItems map JS.matchHere JS.starred JS.atom JS.atomMatches].
  destruct s as [|c s]; [reflexivity|].
  cbn [Spec.occursHere]. destruct (JS.charEq ic a c); [|reflexivity].
  fold (Spec.literalItems P). rewrite IH. cbn [andb].
  now destruct (Spec.occursHere ic P s).
Qed.

Lemma occursHere_length (ic : bool) (P s : jsstring) :
  Spec.occursHere ic P s = true -> (length P <= length s)%nat.
Proof.
  revert s; induction P as [|a P IH]; intros s; cbn; [lia|].
  destruct s as [|c s]; [discriminate|].
  intros H. apply andb_true_iff in H. destruct H as [_ H].
  apply IH in H. cbn. lia.
Qed.

Lemma occursHere_exact (P s : jsstring) :
  Spec.occursHere false P s = true <-> firstn (length P) s = P.
Proof.
  revert s; induction P as [|a P IH]; intros s; cbn; [tauto|].
  destruct s as [|c s]; [split; discriminate|].
  rewrite andb_true_iff, Ascii.eqb_eq, IH. split.
  - intros [-> ->]; reflexivity.
  - intros H; injection H as -> H; auto.
Qed.

(** A literal match has the length of the search text. *)
Lemma exec_literal (ic : bool) (P text : jsstring) (li i n li' : nat) :
  JS.exec (Spec.literal ic P) text li = (Some (i, n), li') ->
  n = length P /\ Spec.occursHere ic P (skipn i text) = true.
Proof.
  intros H. apply exec_Some in H. destruct H as (_ & _ & _ & H).
  cbn [Spec.literal JS.source JS.ignoreCase] in H.
  rewrite matchHere_literal in H.
  destruct (Spec.occursHere ic P (skipn i text)); [|discriminate].
  injection H as <-. split; reflexivity.
Qed.

(** With a non-empty literal search text every turn of the scan moves the
    cursor on, whatever the bounds. *)
Lemma movesOn_literal (ic : bool) (a : ascii) (P text : jsstring)
  (lines : list jsstring) (b : Bounds) :
  Spec.movesOn (Spec.literal ic (a :: P)) text lines b.
Proof.
  intros st st'. unfold scanStep.
  destruct (JS.exec _ text (lastIndex st)) as [[[i n]|] li] eqn:E;
    [|discriminate].
  destruct (exec_literal _ _ _ _ _ _ _ E) as [Hn _].
  apply exec_Some in E. destruct E as (H1 & H2 & -> & _).
  cbn [length] in Hn. subst n.
  destruct (qualifies b _); intros [= <-]; cbn [lastIndex Nat.eqb]; lia.
Qed.

(** With at most one line bound every turn of the scan moves the cursor
    on, whatever the pattern. *)
Lemma movesOn_open_lines (re : JS.RegExp) (text : jsstring)
  (lines : list jsstring) (b : Bounds) :
  bStartLine b = None \/ bEndLine b = None ->
  Spec.movesOn re text lines b.
Proof.
  intros Hb st st'. unfold scanStep.
  destruct (JS.exec re text (lastIndex st)) as [[[i n]|] li] eqn:E;
    [|discriminate].
  apply exec_Some in E. destruct E as (H1 & H2 & -> & _).
  rewrite qualifies_lines.
  replace (withinLineRange b (positionOf lines i n)) with true.
  - intros [= <-]. cbn [lastIndex]. destruct (Nat.eqb n 0) eqn:En; [lia|].
    apply Nat.eqb_neq in En. lia.
  - unfold withinLineRange. destruct Hb as [-> | ->]; [reflexivity|].
    now destruct (bStartLine b).
Qed.

End LiteralFacts.

(** The scan of a request without both line bounds, or with a non-empty
    literal search text, ends within [length fileContent + 2] turns and
    visits at most [length fileContent + 1] matches. *)
Lemma scan_ends_within_length (re : JS.RegExp) (text : jsstring)
  (b : SearchAndReplace.Bounds) :
  Spec.movesOn re text (JS.split text) b ->
  (exists st,
      SearchAndReplace.scan (length text + 2) re text (JS.split text) b
        SearchAndReplace.scanStart = Some st)
  /\ (forall fuel,
        length (Spec.visited fuel re text (JS.split text) b
                  SearchAndReplace.scanStart) <= length text + 1)%nat.
Proof.
  intros Hmove. split.
  - apply scan_ends; [exact Hmove|]. cbn. lia.
  - intros fuel.
    pose proof (visited_count re text (JS.split text) b Hmove fuel
                  SearchAndReplace.scanStart) as H.
    cbn in H. lia.
Qed.

(** C4, at a failing input.  The request replaces the pattern [x*] by [Y]
    in columns 1-2 of line 2 of the two-line text [ab / ab].  The edit
    changes the text, so the position tracking runs.  [x*] matches the
    empty string at index 0, on line 1, outside the line bounds: the turn
    leaves the cursor at 0 (the step that moves it on is reached only for
    a qualifying match), the state after the turn is the state before it,
    and the scan has not ended after any number of turns. *)
Theorem C4_scan_repeats_on_empty_match_outside_bounds :
  let text := Inputs.lines2 "ab" "ab" in
  let b := SearchAndReplace.mkBounds (Some 2) (Some 2) (Some 1) (Some 2) in
  exists re,
    SearchAndReplace.searchPattern true false (lit "x*") = Some re
    /\ SearchAndReplace.newContent re (lit "Y") b text
       = lit "ab" ++ nl :: lit "YaYbY"
    /\ JS.exec re text 0 = (Some (0%nat, 0%nat), 0%nat)
    /\ SearchAndReplace.scanStep re text (JS.split text) b
         SearchAndReplace.scanStart
       = Some SearchAndReplace.scanStart
    /\ (forall fuel,
          SearchAndReplace.scan fuel re text (JS.split text) b
            SearchAndReplace.scanStart = None)
    /\ (forall fuel,
          SearchAndReplace.trackedPosition fuel "f" re (lit "Y") b text
          = None)
    /\ (forall fuel,
          SearchAndReplace.searchAndReplaceTool fuel (Inputs.envWith text)
            Inputs.task0 (Inputs.regexRequest "x*" "Y" b)
          = SearchAndReplace.ScanNotFinished).
Proof.
  cbv zeta. eexists. split; [reflexivity|].
  split; [reflexivity|]. split; [reflexivity|].
  assert (Hstep : SearchAndReplace.scanStep
                    (JS.mkRegExp [JS.mkItem (JS.Lit "x"%char) true] false)
                    (Inputs.lines2 "ab" "ab")
                    (JS.split (Inputs.lines2 "ab" "ab"))
                    (SearchAndReplace.mkBounds (Some 2) (Some 2) (Some 1)
                       (Some 2)) SearchAndReplace.scanStart
                  = Some SearchAndReplace.scanStart) by reflexivity.
  assert (Hscan : forall fuel,
             SearchAndReplace.scan fuel
               (JS.mkRegExp [JS.mkItem (JS.Lit "x"%char) true] false)
               (Inputs.lines2 "ab" "ab") (JS.split (Inputs.lines2 "ab" "ab"))
               (SearchAndReplace.mkBounds (Some 2) (Some 2) (Some 1) (Some 2))
               SearchAndReplace.scanStart = None).
  { induction fuel as [|fuel IH]; [reflexivity|].
    cbn [SearchAndReplace.scan]. rewrite Hstep. exact IH. }
  assert (Htracked : forall fuel,
             SearchAndReplace.trackedPosition fuel "f"
               (JS.mkRegExp [JS.mkItem (JS.Lit "x"%char) true] false)
               (lit "Y")
               (SearchAndReplace.mkBounds (Some 2) (Some 2) (Some 1) (Some 2))
               (Inputs.lines2 "ab" "ab") = None).
  { intros fuel. unfold SearchAndReplace.trackedPosition.
    now rewrite Hscan. }
  split; [exact Hstep|]. split; [exact Hscan|]. split; [exact Htracked|].
  intros fuel. specialize (Htracked fuel).
  unfold SearchAndReplace.searchAndReplaceTool.
  lazy -[SearchAndReplace.trackedPosition] in Htracked |- *.
  now rewrite Htracked.
Qed.

(** ** The invariant of the recorded positions *)

Section Invariant.

Import ApplyDiff.

Lemma endColumnOf_pos (ls : list jsstring) (n : Z) (rl : list jsstring) :
  1 <= endColumnOf ls n rl.
Proof.
  unfold endColumnOf.
  destruct ((n <=? len ls) && (n >? 0) && (len rl >? 0)); [|lia].
  destruct (lineAt ls n) as [line|]; [|lia].
  destruct (truthy line); [|lia].
  destruct (JS.indexOf line _) as [k|].
  - pose proof (len_nonneg (JS.trimEnd (last rl []))). lia.
  - pose proof (len_nonneg (JS.trimEnd line)). lia.
Qed.

Lemma processBlocks_endColumn (ls : list jsstring)
  (ms : list SearchReplaceMatch) :
  forall st : LoopState,
    1 <= finalEndColumn (final st) ->
    1 <= finalEndColumn (final (processBlocks ls st ms)).
Proof.
  induction ms as [|m ms IH]; intros st Hst; [exact Hst|].
  cbn [processBlocks fold_left]. apply IH. cbn. apply endColumnOf_pos.
Qed.

Lemma legacyBlock_endColumn (ls : list jsstring) (f : Final)
  (startLineMatch : option Z) (searchMatch : option jsstring) :
  1 <= finalEndColumn f ->
  1 <= finalEndColumn (legacyBlock ls f startLineMatch searchMatch).
Proof.
  intros Hf. unfold legacyBlock.
  destruct searchMatch as [r|]; [|exact Hf].
  destruct (len (JS.split r) >? 0); [|exact Hf].
  cbn [finalEndColumn].
  match goal with |- 1 <= (if ?c then _ else _) => destruct c end; [|exact Hf].
  destruct (lineAt ls _) as [line|]; [|exact Hf].
  destruct (truthy line); [|exact Hf].
  destruct (JS.indexOf line _) as [k|].
  - pose proof (len_nonneg (JS.trimEnd (last (JS.split r) []))). lia.
  - pose proof (len_nonneg (JS.trimEnd line)). lia.
Qed.

(** Every position that apply_diff hands to [trackPosition] satisfies the
    invariant of the data model. *)
Lemma applyDiff_position_invariant (relPath : string) (blockStartLine : Z)
  (diffContent : jsstring) (content : option jsstring)
  (allMatches : list SearchReplaceMatch) (startLineMatch : option Z)
  (searchMatch : option jsstring) :
  Spec.invariant
    (trackedPosition relPath
       (finalPosition blockStartLine diffContent content allMatches
          startLineMatch searchMatch)).
Proof.
  assert (H : 1 <= finalEndColumn
                     (finalPosition blockStartLine diffContent content
                        allMatches startLineMatch searchMatch)).
  { unfold finalPosition. destruct content as [[|c cs]|]; cbn; try lia.
    destruct (truthy diffContent); cbn; try lia.
    destruct allMatches as [|m ms].
    - apply legacyBlock_endColumn. cbn. lia.
    - apply processBlocks_endColumn. cbn. lia. }
  unfold Spec.invariant, Spec.columnsOrdered, Spec.oneBased, trackedPosition.
  cbn. lia.
Qed.

End Invariant.

(** C9, at a failing input.  Replacing [foo] by the empty string in the
    file ["foo"] changes the file, the match starts at column 1, and the
    position recorded through [trackPosition] has the start column
    1 + 0 - 1 = 0, which is not a 1-based column. *)
Theorem C9_empty_replacement_records_column_zero :
  let run :=
    SearchAndReplace.searchAndReplaceTool 5 (Inputs.envWith (lit "foo"))
      Inputs.task0 (Inputs.request "foo" "" SearchAndReplace.noBounds) in
  let position :=
    EditPositionTracker.mkEditPosition "f" 1 1 (Some 0) (Some 1)
      EditPositionTracker.replace in
  SearchAndReplace.trackedPosition 5 "f" (Spec.literal false (lit "foo")) []
    SearchAndReplace.noBounds (lit "foo") = Some (Some position)
  /\ Inputs.savedBy run = [("f"%string, [])]
  /\ Inputs.recorded run = [position]
  /\ ~ Spec.invariant position.
Proof.
  cbv zeta. split; [reflexivity|]. split; [reflexivity|].
  split; [reflexivity|].
  unfold Spec.invariant, Spec.oneBased. cbn. lia.
Qed.

(** C1, at a failing input.  Without column bounds the callback of
    [targetLines.map] returns every line as it is, whatever the line
    bounds, the pattern and the replacement.  With the start line 1, the
    request [foo -> bar] leaves the file ["foo"] unchanged and the tool
    answers that no changes are needed. *)
Theorem C1_line_bounds_alone_replace_nothing :
  (forall (re : JS.RegExp) (validReplace : jsstring)
          (startLine endLine : option Z) (start end_ : Z) (line : jsstring)
          (lineIndex : Z),
      SearchAndReplace.modifyLine re validReplace
        (SearchAndReplace.mkBounds startLine endLine None None) start end_
        line lineIndex = line)
  /\ (let b := SearchAndReplace.mkBounds (Some 1) None None None in
      Spec.occursHere false (lit "foo") (lit "foo") = true
      /\ SearchAndReplace.newContent (Spec.literal false (lit "foo"))
           (lit "bar") b (lit "foo") = lit "foo"
      /\ SearchAndReplace.searchAndReplaceTool 5 (Inputs.envWith (lit "foo"))
           Inputs.task0 (Inputs.request "foo" "bar" b)
         = SearchAndReplace.Returned
             (SearchAndReplace.mkTask 0 [] [SearchAndReplace.NoChangesNeeded "f"]
                ["f"%string] (Some EditPositionTracker.empty) [] false)).
Proof.
  split.
  - intros. unfold SearchAndReplace.modifyLine. cbn.
    now destruct ((start + lineIndex >=? start) && (start + lineIndex <=? end_)).
  - cbv zeta. split; [reflexivity|]. split; reflexivity.
Qed.

(** C8, at a failing input.  With the start line 3 and the end line 1 on
    the three-line text [a / b / c], for every pattern and replacement,
    the lines before the range are [a], [b], the lines after it are [b],
    [c]: line [b] comes out twice and [c] moves to line 4. *)
Theorem C8_crossed_line_bounds_repeat_a_line :
  forall (re : JS.RegExp) (validReplace : jsstring),
    SearchAndReplace.newContent re validReplace
      (SearchAndReplace.mkBounds (Some 3) (Some 1) None None)
      (Inputs.lines3 "a" "b" "c")
    = lit "a" ++ nl :: lit "b" ++ nl :: lit "b" ++ nl :: lit "c".
Proof.
  intros re R. reflexivity.
Qed.

(** ** search_and_replace: the replacement without bounds *)

Section ReplaceAll.

Variable ic : bool.
Variable R : jsstring.
Variable text : jsstring.

Hypothesis R_plain : Spec.plain R.

Lemma getSubstitution_cons (matched before after : jsstring) (c : ascii)
  (r : jsstring) :
  JS.getSubstitution matched before after (c :: r)
  = if Ascii.eqb c "$"%char then
      match r with
      | d :: r' =>
          if Ascii.eqb d "$"%char then
            "$"%char :: JS.getSubstitution matched before after r'
          else if Ascii.eqb d "&"%char then
            matched ++ JS.getSubstitution matched before after r'
          else if Ascii.eqb d "`"%char then
            before ++ JS.getSubstitution matched before after r'
          else if Ascii.eqb d "'"%char then
            after ++ JS.getSubstitution matched before after r'
          else c :: JS.getSubstitution matched before after r
      | [] => [c]
      end
    else c :: JS.getSubstitution matched before after r.
Proof. reflexivity. Qed.

(** A replacement without substitution patterns is inserted as it is. *)
Lemma getSubstitution_plain (matched before after : jsstring) :
  JS.getSubstitution matched before after R = R.
Proof.
  unfold Spec.plain in R_plain. clear text.
  induction R as [|c r IH]; [reflexivity|].
  cbn [Spec.hasSubstitutionPattern] in R_plain.
  apply orb_false_iff in R_plain. destruct R_plain as [Hc Hr].
  rewrite getSubstitution_cons, (IH Hr).
  destruct (Ascii.eqb c "$"%char); [|reflexivity].
  destruct r as [|d r']; [reflexivity|].
  cbn [andb] in Hc. unfold Spec.isPatternChar in Hc.
  apply orb_false_iff in Hc. destruct Hc as [Hc H4].
  apply orb_false_iff in Hc. destruct Hc as [Hc H3].
  apply orb_false_iff in Hc. destruct Hc as [H1 H2].
  now rewrite H1, H2, H3, H4.
Qed.

(** The text accumulated so far is only ever extended. *)
Lemma substitute_acc (rs : list (nat * nat)) :
  forall (acc : jsstring) (next : nat),
    fold_left (JS.substitute text R) rs (acc, next)
    = (acc ++ fst (fold_left (JS.substitute text R) rs ([], next)),
       snd (fold_left (JS.substitute text R) rs ([], next))).
Proof.
  induction rs as [|[pos n] rs IH]; intros acc next.
  - cbn. now rewrite app_nil_r.
  - cbn [fold_left JS.substitute].
    destruct (Nat.leb next pos).
    + rewrite IH. rewrite (IH ([] ++ _)). cbn [fst snd app].
      now rewrite <- !app_assoc.
    + apply IH.
Qed.

Lemma exec_first (re : JS.RegExp) (li i n li' : nat) :
  JS.exec re text li = (Some (i, n), li') ->
  forall j, (j < i - li)%nat ->
            JS.matchHere (JS.ignoreCase re) (JS.source re)
              (skipn j (skipn li text)) = None.
Proof.
  unfold JS.exec. destruct (Nat.ltb (length text) li); [discriminate|].
  destruct (JS.search _ _ _) as [[k m]|] eqn:Es; [|discriminate].
  intros [= <- <- <-] j Hj. apply search_bounds in Es.
  destruct Es as (_ & _ & Hmin). apply Hmin. lia.
Qed.

Lemma exec_None (re : JS.RegExp) (li li' : nat) :
  JS.exec re text li = (None, li') ->
  (li <= length text)%nat ->
  forall j, (j <= length (skipn li text))%nat ->
            JS.matchHere (JS.ignoreCase re) (JS.source re)
              (skipn j (skipn li text)) = None.
Proof.
  unfold JS.exec. intros H Hli.
  replace (Nat.ltb (length text) li) with false in H
    by (symmetry; apply Nat.ltb_ge; exact Hli).
  destruct (JS.search _ _ _) as [[k m]|] eqn:Es; [discriminate|].
  intros j Hj. now apply (search_None _ _ _ Es).
Qed.

Lemma occursHere_matchHere (P s : jsstring) :
  JS.matchHere ic (Spec.literalItems P) s = None ->
  Spec.occursHere ic P s = false.
Proof.
  rewrite matchHere_literal. now destruct (Spec.occursHere ic P s).
Qed.

Lemma replaceAll_none (P s : jsstring) :
  (forall j, (j <= length s)%nat -> Spec.occursHere ic P (skipn j s) = false) ->
  Spec.replaceAll ic P R 0 s = s.
Proof.
  induction s as [|c s IH]; intros H.
  - specialize (H 0%nat (Nat.le_refl _)). cbn in *.
    destruct P; [discriminate|reflexivity].
  - cbn [Spec.replaceAll].
    pose proof (H 0%nat (Nat.le_0_l _)) as H0. cbn [skipn] in H0.
    rewrite H0. f_equal. apply IH.
    intros j Hj. apply (H (S j)). cbn. lia.
Qed.

Lemma replaceAll_skip (P : jsstring) (k : nat) :
  forall s : jsstring,
    (k <= length s)%nat ->
    k <> 0%nat ->
    Spec.replaceAll ic P R k s = Spec.replaceAll ic P R 0 (skipn k s).
Proof.
  induction k as [|k IH]; intros s Hk Hne; [congruence|].
  destruct s as [|c s]; [cbn in Hk; lia|].
  cbn [Spec.replaceAll skipn]. cbn in Hk.
  destruct k as [|k]; [reflexivity|].
  apply IH; [lia|discriminate].
Qed.

Lemma replaceAll_prefix (P : jsstring) (k : nat) :
  forall s : jsstring,
    (k <= length s)%nat ->
    (forall j, (j < k)%nat -> Spec.occursHere ic P (skipn j s) = false) ->
    Spec.replaceAll ic P R 0 s
    = firstn k s ++ Spec.replaceAll ic P R 0 (skipn k s).
Proof.
  induction k as [|k IH]; intros s Hk H; [reflexivity|].
  destruct s as [|c s]; [cbn in Hk; lia|].
  cbn [Spec.replaceAll firstn skipn app].
  pose proof (H 0%nat (Nat.lt_0_succ _)) as H0. cbn [skipn] in H0.
  rewrite H0. f_equal. apply IH.
  - cbn in Hk. lia.
  - intros j Hj. apply (H (S j)). lia.
Qed.

Lemma replaceAll_here (P s : jsstring) :
  P <> [] ->
  Spec.occursHere ic P s = true ->
  Spec.replaceAll ic P R 0 s
  = R ++ Spec.replaceAll ic P R 0 (skipn (length P) s).
Proof.
  intros Hne Hocc. pose proof (occursHere_length _ _ _ Hocc) as Hlen.
  destruct P as [|a P']; [congruence|].
  destruct s as [|c s]; [discriminate|].
  cbn [Spec.replaceAll]. rewrite Hocc. f_equal.
  cbn [length skipn]. cbn in Hlen.
  destruct P' as [|a' P'']; [reflexivity|].
  apply replaceAll_skip; [cbn in *; lia|discriminate].
Qed.

End ReplaceAll.

Section ReplaceLiteral.

Variable ic : bool.
Variable R : jsstring.
Variable text : jsstring.

Hypothesis R_plain : Spec.plain R.

(** From the cursor [li] on, the matches of a non-empty literal pattern
    and their substitution give what the specification describes. *)
Lemma replace_from (P : jsstring) (fuel : nat) :
  P <> [] ->
  forall li : nat,
    (li <= length text)%nat ->
    (length text < fuel + li)%nat ->
    let rs := JS.collect fuel (Spec.literal ic P) text li in
    let out := fold_left (JS.substitute text R) rs ([], li) in
    fst out ++ skipn (snd out) text
    = Spec.replaceAll ic P R 0 (skipn li text).
Proof.
  intros Hne. induction fuel as [|fuel IH]; intros li Hli Hfuel; [lia|].
  cbv zeta. cbn [JS.collect].
  destruct (JS.exec (Spec.literal ic P) text li) as [[[i n]|] li'] eqn:E.
  - pose proof (exec_first _ _ _ _ _ _ E) as Hfirst.
    destruct (exec_literal _ _ _ _ _ _ _ E) as [Hn Hocc].
    apply exec_Some in E. destruct E as (H1 & H2 & -> & _).
    assert (Hpos : n <> 0%nat)
      by (subst n; destruct P; [congruence|discriminate]).
    replace (Nat.eqb n 0) with false by (symmetry; now apply Nat.eqb_neq).
    cbn [fold_left JS.substitute].
    replace (Nat.leb li i) with true by (symmetry; now apply Nat.leb_le).
    rewrite (getSubstitution_plain R R_plain).
    rewrite (substitute_acc R text). cbn [fst snd app].
    rewrite <- !app_assoc.
    specialize (IH (i + n)%nat H2 ltac:(lia)). cbv zeta in IH. rewrite IH.
    rewrite (replaceAll_prefix ic R P (i - li) (skipn li text)).
    + f_equal. rewrite skipn_skipn.
      replace (i - li + li)%nat with i by lia.
      rewrite (replaceAll_here ic R P _ Hne Hocc).
      f_equal. rewrite skipn_skipn. f_equal. f_equal. lia.
    + rewrite length_skipn. lia.
    + intros j Hj. apply occursHere_matchHere. now apply Hfirst.
  - cbn [fold_left fst snd app].
    pose proof (exec_None _ _ _ _ E Hli) as Hnone.
    symmetry. apply replaceAll_none.
    intros j Hj. apply occursHere_matchHere. now apply Hnone.
Qed.

(** The same for the empty pattern, which matches before every code unit
    and at the end of the text. *)
Lemma replace_from_empty (fuel : nat) :
  forall li next : nat,
    (next <= li)%nat ->
    (li <= length text)%nat ->
    (length text < fuel + li)%nat ->
    let rs := JS.collect fuel (Spec.literal ic []) text li in
    let out := fold_left (JS.substitute text R) rs ([], next) in
    fst out ++ skipn (snd out) text
    = firstn (li - next) (skipn next text)
        ++ Spec.replaceAll ic [] R 0 (skipn li text).
Proof.
  induction fuel as [|fuel IH]; intros li next Hnext Hli Hfuel; [lia|].
  cbv zeta. cbn [JS.collect].
  assert (E : JS.exec (Spec.literal ic []) text li
              = (Some ((li + 0)%nat, 0%nat), (li + 0 + 0)%nat)).
  { unfold JS.exec.
    replace (Nat.ltb (length text) li) with false
      by (symmetry; now apply Nat.ltb_ge).
    cbn [Spec.literal Spec.literalItems map JS.source JS.ignoreCase].
    destruct (skipn li text); cbn [JS.search JS.matchHere]; reflexivity. }
  rewrite E. replace (li + 0)%nat with li by lia.
  cbn [Nat.eqb fold_left JS.substitute].
  replace (Nat.leb next li) with true by (symmetry; now apply Nat.leb_le).
  rewrite (getSubstitution_plain R R_plain).
  rewrite (substitute_acc R text). cbn [fst snd app].
  rewrite <- !app_assoc. f_equal.
  replace (li + 0 + 1)%nat with (S li) by lia.
  replace (li + 0)%nat with li by lia.
  destruct (Nat.eq_dec li (length text)) as [Heq|Hneq].
  - assert (Hc : JS.collect fuel (Spec.literal ic []) text (S li) = []).
    { destruct fuel as [|fuel']; [reflexivity|]. cbn [JS.collect].
      unfold JS.exec.
      replace (Nat.ltb (length text) (S li)) with true
        by (symmetry; apply Nat.ltb_lt; lia).
      reflexivity. }
    rewrite Hc. cbn [fold_left fst snd app].
    rewrite Heq, skipn_all. cbn. now rewrite app_nil_r.
  - specialize (IH (S li) li ltac:(lia) ltac:(lia) ltac:(lia)).
    cbv zeta in IH. rewrite IH.
    replace (S li - li)%nat with 1%nat by lia.
    assert (Hs : exists c, skipn li text = c :: skipn (S li) text).
    { clear -Hli Hneq. revert li Hli Hneq.
      induction text as [|c t IHt]; intros li Hli Hneq; [cbn in *; lia|].
      destruct li as [|li]; [now exists c|].
      cbn [skipn]. apply IHt; cbn in *; lia. }
    destruct Hs as [c Hs]. rewrite Hs. reflexivity.
Qed.

(** Without bounds the new content is the text with every occurrence of
    the literal search text replaced, left to right. *)
Lemma replace_literal (P : jsstring) :
  JS.replace text (Spec.literal ic P) R = Spec.replaceAll ic P R 0 text.
Proof.
  unfold JS.replace.
  destruct P as [|a P'].
  - pose proof (replace_from_empty (S (length text)) 0 0 (Nat.le_refl _)
                  (Nat.le_0_l _) ltac:(lia)) as H.
    cbv zeta in H. cbn [skipn firstn Nat.sub app] in H.
    destruct (fold_left _ _ _) as [acc next]. exact H.
  - pose proof (replace_from (a :: P') (S (length text)) ltac:(discriminate)
                  0 (Nat.le_0_l _) ltac:(lia)) as H.
    cbv zeta in H. cbn [skipn] in H.
    destruct (fold_left _ _ _) as [acc next]. exact H.
Qed.

End ReplaceLiteral.

(** C7 (amended).  For every text [T], literal pattern [P] and replacement
    [R] that holds none of the substitution patterns [$$], [$&], [$`] and
    [$'], with no bound given, the new content is [T] with every
    non-overlapping occurrence of [P] replaced by [R], left to right in
    one pass (occurrences are compared modulo case when [ignoreCase] is
    set); the search pattern is [P] with its syntax characters escaped.  The pattern made from the literal ["a.b"]
    matches only where the text reads ["a.b"], and does not match
    ["axb"], which the unescaped pattern would match. *)
Theorem C7_unbounded_literal_replace :
  (forall (ic : bool) (T P R : jsstring),
      Spec.plain R ->
      exists re,
        SearchAndReplace.searchPattern false ic P = Some re
        /\ SearchAndReplace.newContent re R SearchAndReplace.noBounds T
           = Spec.replaceAll ic P R 0 T)
  /\ (exists re,
        SearchAndReplace.searchPattern false false (lit "a.b") = Some re
        /\ (forall (T : jsstring) (lastIndex i n lastIndex' : nat),
              JS.exec re T lastIndex = (Some (i, n), lastIndex') ->
              firstn n (skipn i T) = lit "a.b")
        /\ JS.exec re (lit "axb") 0 = (None, 0%nat))
  /\ (exists re,
        SearchAndReplace.searchPattern true false (lit "a.b") = Some re
        /\ JS.exec re (lit "axb") 0 = (Some (0%nat, 3%nat), 3%nat)).
Proof.
  split; [|split].
  - intros ic T P R HR. exists (Spec.literal ic P).
    split; [apply searchPattern_literal|].
    unfold SearchAndReplace.newContent. cbn [SearchAndReplace.anyBound
      SearchAndReplace.noBounds SearchAndReplace.bStartLine
      SearchAndReplace.bEndLine SearchAndReplace.bStartColumn
      SearchAndReplace.bEndColumn SearchAndReplace.isSome orb].
    now apply replace_literal.
  - exists (Spec.literal false (lit "a.b")).
    split; [apply searchPattern_literal|]. split; [|reflexivity].
    intros T li i n li' E.
    destruct (exec_literal _ _ _ _ _ _ _ E) as [-> Hocc].
    now apply occursHere_exact.
  - eexists. split; reflexivity.
Qed.

(** As the claim states it, every replacement is inserted as it is.
    Replacing [a] by [$$] in the text ["a"] gives ["$"]: the replacement
    string goes through the substitution patterns of [String.replace]. *)
Lemma C7_unbounded_literal_replace_counterexample :
  SearchAndReplace.searchPattern false false (lit "a")
  = Some (Spec.literal false (lit "a"))
  /\ SearchAndReplace.newContent (Spec.literal false (lit "a")) (lit "$$")
       SearchAndReplace.noBounds (lit "a") = lit "$"
  /\ Spec.replaceAll false (lit "a") (lit "$$") 0 (lit "a") = lit "$$".
Proof.
  split; [reflexivity|]. split; reflexivity.
Qed.

(** The amended claim at [foo -> bar] on ["foo foo foo"]. *)
Lemma C7_unbounded_literal_replace_witness :
  exists re,
    SearchAndReplace.searchPattern false false (lit "foo") = Some re
    /\ SearchAndReplace.newContent re (lit "bar") SearchAndReplace.noBounds
         (lit "foo foo foo")
       = Spec.replaceAll false (lit "foo") (lit "bar") 0 (lit "foo foo foo").
Proof.
  refine (proj1 C7_unbounded_literal_replace false (lit "foo foo foo")
            (lit "foo") (lit "bar") eq_refl).
Defined.

(** * Further properties of the code *)

(** ** The position store *)

Section TrackerFacts.

Import EditPositionTracker.

Lemma trackPosition_lookup (m : t) (f g : string) (p : EditPosition) :
  Props.positionsOf (trackPosition m f p) g
  = if String.eqb f g then Props.positionsOf m f ++ [p]
    else Props.positionsOf m g.
Proof.
  unfold Props.positionsOf, trackPosition, set.
  destruct (m f) as [ps|] eqn:Ef.
  - rewrite Ef. destruct (String.eqb f g) eqn:E; [reflexivity|reflexivity].
  - rewrite String.eqb_refl. destruct (String.eqb f g) eqn:E; reflexivity.
Qed.

Lemma trackAll_positions (calls : list (string * EditPosition)) :
  forall (m : t) (g : string),
    Props.positionsOf (Props.trackAll m calls) g
    = Props.positionsOf m g ++ map snd (filter (Props.forFile g) calls).
Proof.
  induction calls as [|[f p] calls IH]; intros m g.
  - cbn. now rewrite app_nil_r.
  - cbn [Props.trackAll fold_left fst snd].
    fold (Props.trackAll (trackPosition m f p) calls).
    rewrite IH, trackPosition_lookup. cbn [filter].
    change (Props.forFile g (f, p)) with (String.eqb f g).
    destruct (String.eqb f g) eqn:E.
    + apply String.eqb_eq in E. subst g. cbn [map snd].
      now rewrite <- app_assoc.
    + reflexivity.
Qed.

Lemma primary_positionsOf (m : t) (g : string) :
  getPrimaryPosition m g = hd_error (Props.positionsOf m g).
Proof.
  unfold getPrimaryPosition, Props.positionsOf.
  destruct (m g) as [[|p ps]|]; reflexivity.
Qed.

End TrackerFacts.

(** X1.  The store is append-only and per file: after any sequence of
    [trackPosition] calls on a store, the positions held for a file are
    those it held before followed by the positions tracked for that file,
    in the order of the calls; calls for other files leave them alone. *)
Theorem X1_store_keeps_call_order :
  forall (m : EditPositionTracker.t)
         (calls : list (string * EditPositionTracker.EditPosition))
         (filePath : string),
    Props.positionsOf (Props.trackAll m calls) filePath
    = Props.positionsOf m filePath
        ++ map snd (filter (Props.forFile filePath) calls).
Proof.
  intros m calls g. apply trackAll_positions.
Qed.

(** X2.  [getPrimaryPosition] answers the oldest position of the file:
    on a store that starts empty it is the position of the first call made
    for that file, however many calls follow, and it is absent exactly
    when no call was made for the file. *)
Theorem X2_primary_is_first_tracked :
  forall (calls : list (string * EditPositionTracker.EditPosition))
         (filePath : string),
    EditPositionTracker.getPrimaryPosition
      (Props.trackAll EditPositionTracker.empty calls) filePath
    = option_map snd (find (Props.forFile filePath) calls).
Proof.
  intros calls g. rewrite primary_positionsOf, trackAll_positions.
  cbn [Props.positionsOf EditPositionTracker.empty app].
  induction calls as [|c calls IH]; [reflexivity|].
  cbn [filter find]. destruct (Props.forFile g c); [reflexivity|exact IH].
Qed.

(** X3.  [clearPositions] forgets the file it is given and no other:
    afterwards the file has no primary position, every other file has the
    one it had, and the next position tracked for the cleared file becomes
    its primary position.  [clearAllPositions] leaves no file with a
    primary position. *)
Theorem X3_clearing_the_store :
  forall (m : EditPositionTracker.t) (filePath other : string)
         (p : EditPositionTracker.EditPosition),
    EditPositionTracker.getPrimaryPosition
      (EditPositionTracker.clearPositions m filePath) other
    = (if String.eqb filePath other then None
       else EditPositionTracker.getPrimaryPosition m other)
    /\ EditPositionTracker.getPrimaryPosition
         (EditPositionTracker.trackPosition
            (EditPositionTracker.clearPositions m filePath) filePath p)
         filePath = Some p
    /\ EditPositionTracker.getPrimaryPosition
         (EditPositionTracker.clearAllPositions m) other = None.
Proof.
  intros m f g p. split; [|split].
  - unfold EditPositionTracker.getPrimaryPosition,
      EditPositionTracker.clearPositions.
    now destruct (String.eqb f g).
  - rewrite primary_positionsOf, trackPosition_lookup, String.eqb_refl.
    unfold Props.positionsOf, EditPositionTracker.clearPositions.
    now rewrite String.eqb_refl.
  - reflexivity.
Qed.

(** ** validateParams *)

(** X4.  [validateParams] accepts exactly the requests with a non-empty
    path, a non-empty search text and a defined replacement, and leaves
    the task as it is for them.  Every other request is rejected once: the
    mistake counter goes up by one, one tool error is recorded, and one
    result is pushed that names the first parameter missing in the order
    path, search, replace; nothing else of the task changes. *)
Theorem X4_validateParams_verdict :
  forall (cline : SearchAndReplace.Task) (relPath : option string)
         (search replace : option jsstring),
    let out := SearchAndReplace.validateParams cline relPath search replace in
    match Props.firstMissing relPath search replace with
    | None => out = (cline, true)
    | Some param =>
        snd out = false
        /\ SearchAndReplace.consecutiveMistakeCount (fst out)
           = SearchAndReplace.consecutiveMistakeCount cline + 1
        /\ SearchAndReplace.toolErrors (fst out)
           = SearchAndReplace.toolErrors cline ++ ["search_and_replace"%string]
        /\ SearchAndReplace.toolResults (fst out)
           = SearchAndReplace.toolResults cline
               ++ [SearchAndReplace.MissingParamError "search_and_replace"
                     param]
        /\ SearchAndReplace.filesRead (fst out)
           = SearchAndReplace.filesRead cline
        /\ SearchAndReplace.saved (fst out) = SearchAndReplace.saved cline
        /\ SearchAndReplace.editPositionTracker (fst out)
           = SearchAndReplace.editPositionTracker cline
        /\ SearchAndReplace.didEditFile (fst out)
           = SearchAndReplace.didEditFile cline
    end.
Proof.
  intros cline relPath search replace.
  destruct relPath as [[|c p]|]; cbn; try (repeat split; reflexivity).
  destruct search as [[|d s]|]; cbn; try (repeat split; reflexivity).
  destruct replace as [r|]; cbn; repeat split; reflexivity.
Qed.

(** ** escapeRegExp and the literal search pattern *)

Section EscapeFacts.

Import SearchAndReplace.

Lemma unescape_escapeRegExp (P : jsstring) :
  Props.unescape (escapeRegExp P) = P.
Proof.
  induction P as [|c P IH]; [reflexivity|].
  cbn [escapeRegExp]. destruct (isEscaped c) eqn:E.
  - cbn [Props.unescape].
    replace (Ascii.eqb "\"%char "\"%char) with true by reflexivity.
    now rewrite IH.
  - destruct (unescaped_plain c E) as (H1 & _).
    cbn [Props.unescape]. now rewrite H1, IH.
Qed.

Lemma escapeRegExp_length (P : jsstring) :
  (length P <= length (escapeRegExp P) <= 2 * length P)%nat.
Proof.
  induction P as [|c P IH]; [cbn; lia|].
  cbn [escapeRegExp]. destruct (isEscaped c); cbn [length]; lia.
Qed.

Lemma escapeRegExp_plain (P : jsstring) :
  escapeRegExp P = P <-> forallb (fun c => negb (isEscaped c)) P = true.
Proof.
  induction P as [|c P IH]; [cbn; tauto|].
  cbn [escapeRegExp forallb]. destruct (isEscaped c) eqn:E; cbn [negb andb].
  - split; [|discriminate]. intros H.
    pose proof (escapeRegExp_length P) as HL.
    apply (f_equal (@length ascii)) in H. cbn [length] in H. lia.
  - rewrite <- IH. split; [now intros [= ->]|now intros ->].
Qed.

End EscapeFacts.

(** X5.  [escapeRegExp] puts a backslash before each of the fourteen
    syntax characters and before nothing else: the escaped text is at
    least as long as the search text and at most twice as long, it is the
    search text itself exactly when that holds no syntax character, and
    different search texts have different escaped texts. *)
Theorem X5_escapeRegExp_shape :
  forall (P Q : jsstring),
    (length P <= length (SearchAndReplace.escapeRegExp P) <= 2 * length P)%nat
    /\ (SearchAndReplace.escapeRegExp P = P
        <-> forallb (fun c => negb (JS.isSyntaxChar c)) P = true)
    /\ (SearchAndReplace.escapeRegExp P = SearchAndReplace.escapeRegExp Q ->
        P = Q).
Proof.
  intros P Q. split; [apply escapeRegExp_length|]. split.
  - rewrite escapeRegExp_plain.
    replace (forallb (fun c => negb (JS.isSyntaxChar c)) P)
      with (forallb (fun c => negb (SearchAndReplace.isEscaped c)) P);
      [tauto|].
    clear Q. induction P as [|c P IH]; [reflexivity|].
    cbn [forallb]. now rewrite IH, isEscaped_isSyntaxChar.
  - intros H. apply (f_equal Props.unescape) in H.
    now rewrite !unescape_escapeRegExp in H.
Qed.

(** The property at the search texts ["a.b"] and ["a+b"]. *)
Lemma X5_escapeRegExp_shape_witness :
  SearchAndReplace.escapeRegExp (lit "a.b") = lit "a\.b"
  /\ (SearchAndReplace.escapeRegExp (lit "ab") = lit "ab"
      <-> forallb (fun c => negb (JS.isSyntaxChar c)) (lit "ab") = true)
  /\ lit "a.b" = lit "a.b".
Proof.
  split; [reflexivity|]. split.
  - exact (proj1 (proj2 (X5_escapeRegExp_shape (lit "ab") (lit "ab")))).
  - exact (proj2 (proj2 (X5_escapeRegExp_shape (lit "a.b") (lit "a.b")))
             eq_refl).
Defined.

(** X6.  In literal mode every search text gives a pattern, and [exec]
    on it finds the first occurrence of the search text at or after
    [lastIndex] (modulo case when [ignoreCase] is set): the match has the
    length of the search text, lies inside the text, no occurrence starts
    between [lastIndex] and it, and [lastIndex] moves to its end; [exec]
    answers [null] and resets [lastIndex] to 0 exactly when the search
    text does not occur from [lastIndex] on. *)
Theorem X6_literal_exec_finds_first_occurrence :
  forall (ic : bool) (P text : jsstring) (lastIndex : nat),
  exists re,
    SearchAndReplace.searchPattern false ic P = Some re
    /\ (forall i n lastIndex',
          JS.exec re text lastIndex = (Some (i, n), lastIndex') ->
          n = length P
          /\ (lastIndex <= i)%nat /\ (i + n <= length text)%nat
          /\ lastIndex' = (i + n)%nat
          /\ Spec.occursHere ic P (skipn i text) = true
          /\ forall j, (lastIndex <= j < i)%nat ->
                       Spec.occursHere ic P (skipn j text) = false)
    /\ (forall lastIndex',
          JS.exec re text lastIndex = (None, lastIndex') ->
          lastIndex' = 0%nat
          /\ forall j, (lastIndex <= j <= length text)%nat ->
                       Spec.occursHere ic P (skipn j text) = false).
Proof.
  intros ic P text li. exists (Spec.literal ic P).
  split; [apply searchPattern_literal|]. split.
  - intros i n li' E.
    destruct (exec_literal _ _ _ _ _ _ _ E) as [Hn Hocc].
    pose proof (exec_first _ _ _ _ _ _ E) as Hfirst.
    apply exec_Some in E. destruct E as (H1 & H2 & H3 & _).
    repeat split; try assumption.
    intros j Hj. apply occursHere_matchHere.
    specialize (Hfirst (j - li)%nat ltac:(lia)).
    rewrite skipn_skipn in Hfirst.
    now replace (j - li + li)%nat with j in Hfirst by lia.
  - intros li' E. split.
    + unfold JS.exec in E. destruct (Nat.ltb (length text) li).
      * now injection E as <-.
      * destruct (JS.search _ _ _) as [[k m]|]; [discriminate|].
        now injection E as <-.
    + intros j Hj. apply occursHere_matchHere.
      pose proof (exec_None _ _ _ _ E ltac:(lia) (j - li)%nat) as Hn.
      rewrite length_skipn, skipn_skipn in Hn.
      replace (j - li + li)%nat with j in Hn by lia.
      apply Hn. lia.
Qed.

(** The property at the second [foo] of ["foo foo"], searched from 1. *)
Lemma X6_literal_exec_finds_first_occurrence_witness :
  exists re,
    SearchAndReplace.searchPattern false false (lit "foo") = Some re
    /\ JS.exec re (lit "foo foo") 1 = (Some (4%nat, 3%nat), 7%nat)
    /\ Spec.occursHere false (lit "foo") (skipn 4 (lit "foo foo")) = true.
Proof.
  destruct (X6_literal_exec_finds_first_occurrence false (lit "foo")
              (lit "foo foo") 1) as (re & Hre & Hsome & _).
  exists re. split; [exact Hre|].
  injection Hre as <-. split; [reflexivity|].
  exact (proj1 (proj2 (proj2 (proj2 (proj2
           (Hsome 4%nat 3%nat 7%nat eq_refl)))))).
Defined.

(** ** The bounded replacement *)

Section SliceFacts.

Lemma slice_inside {A : Type} (l : list A) (a b : Z) :
  0 <= a -> a <= b -> b <= len l ->
  JS.slice l a b = firstn (Z.to_nat (b - a)) (skipn (Z.to_nat a) l).
Proof.
  intros Ha Hab Hb. unfold JS.slice, JS.relIndex.
  replace (a <? 0) with false by (symmetry; apply Z.ltb_ge; lia).
  replace (b <? 0) with false by (symmetry; apply Z.ltb_ge; lia).
  now rewrite !Z.min_l by lia.
Qed.

Lemma sliceFrom_inside {A : Type} (l : list A) (a : Z) :
  0 <= a -> a <= len l -> JS.sliceFrom l a = skipn (Z.to_nat a) l.
Proof.
  intros Ha Hb. unfold JS.sliceFrom.
  rewrite slice_inside by lia. apply firstn_all2.
  rewrite length_skipn. unfold len in *. lia.
Qed.

End SliceFacts.

(** X7.  A column-bounded replacement changes only the bounded part of a
    line in range.  With the first column [max(startColumn ?? 1, 1)] and
    the last column [min(endColumn ?? length, length)], when the first is
    before the last, the new line is the text before the first column as
    it was, then the replacement made inside the columns first..last,
    then the text after the last column as it was. *)
Theorem X7_column_bounds_keep_prefix_and_suffix :
  forall (re : JS.RegExp) (validReplace : jsstring)
         (b : SearchAndReplace.Bounds) (start end_ lineIndex : Z)
         (line : jsstring),
    let first :=
      Z.max (JS.nullish (SearchAndReplace.bStartColumn b) 1) 1 in
    let last :=
      Z.min (JS.nullish (SearchAndReplace.bEndColumn b) (len line))
        (len line) in
    SearchAndReplace.bStartColumn b <> None
    \/ SearchAndReplace.bEndColumn b <> None ->
    0 <= lineIndex -> start + lineIndex <= end_ ->
    first < last ->
    SearchAndReplace.modifyLine re validReplace b start end_ line lineIndex
    = firstn (Z.to_nat (first - 1)) line
        ++ JS.replace
             (firstn (Z.to_nat (last - first + 1))
                (skipn (Z.to_nat (first - 1)) line))
             re validReplace
        ++ skipn (Z.to_nat last) line.
Proof.
  intros re R b start end_ i line first last Hcol Hi Hend Hlt.
  unfold SearchAndReplace.modifyLine.
  replace (start + i >=? start) with true
    by (symmetry; rewrite Z.geb_leb; apply Z.leb_le; lia).
  replace (start + i <=? end_) with true by (symmetry; apply Z.leb_le; lia).
  cbn [andb].
  replace (SearchAndReplace.isSome (SearchAndReplace.bStartColumn b)
           || SearchAndReplace.isSome (SearchAndReplace.bEndColumn b))
    with true.
  2:{ destruct (SearchAndReplace.bStartColumn b), (SearchAndReplace.bEndColumn b);
        cbn; try reflexivity. destruct Hcol; congruence. }
  replace (Z.max (JS.nullish (SearchAndReplace.bStartColumn b) 1 - 1) 0)
    with (first - 1) by (unfold first; lia).
  replace (Z.min (JS.nullish (SearchAndReplace.bEndColumn b) (len line) - 1)
             (len line - 1))
    with (last - 1) by (unfold last; lia).
  replace (first - 1 <? last - 1) with true by (symmetry; apply Z.ltb_lt; lia).
  assert (Hf : 1 <= first) by (unfold first; lia).
  assert (Hl : last <= len line) by (unfold last; lia).
  rewrite (slice_inside line 0 (first - 1)) by lia.
  rewrite (slice_inside line (first - 1) (last - 1 + 1)) by lia.
  rewrite (sliceFrom_inside line (last - 1 + 1)) by lia.
  cbn [Z.to_nat skipn].
  replace (first - 1 - 0) with (first - 1) by lia.
  replace (last - 1 + 1 - (first - 1)) with (last - first + 1) by lia.
  replace (last - 1 + 1) with last by lia.
  reflexivity.
Qed.

(** The property at columns 5-7 of the line ["foo foo"]. *)
Lemma X7_column_bounds_keep_prefix_and_suffix_witness :
  SearchAndReplace.modifyLine (Spec.literal false (lit "foo")) (lit "bar")
    (SearchAndReplace.mkBounds None None (Some 5) (Some 7)) 0 0
    (lit "foo foo") 0
  = firstn 4 (lit "foo foo")
      ++ JS.replace (firstn 3 (skipn 4 (lit "foo foo")))
           (Spec.literal false (lit "foo")) (lit "bar")
      ++ skipn 7 (lit "foo foo").
Proof.
  refine (X7_column_bounds_keep_prefix_and_suffix
            (Spec.literal false (lit "foo")) (lit "bar")
            (SearchAndReplace.mkBounds None None (Some 5) (Some 7)) 0 0 0
            (lit "foo foo") _ _ _ _).
  - left. discriminate.
  - lia.
  - lia.
  - reflexivity.
Defined.

(** X8.  A line is returned unchanged, whatever the pattern, when the
    column range is empty or one column wide (the end column, by default
    the line length, is not after the start column, by default 1), when
    the line has at most one character, or when the start column is at or
    after the last character of the line. *)
Theorem X8_narrow_column_range_changes_nothing :
  forall (re : JS.RegExp) (validReplace : jsstring)
         (b : SearchAndReplace.Bounds) (start end_ lineIndex : Z)
         (line : jsstring),
    JS.nullish (SearchAndReplace.bEndColumn b) (len line)
    <= JS.nullish (SearchAndReplace.bStartColumn b) 1
    \/ len line <= 1
    \/ len line <= JS.nullish (SearchAndReplace.bStartColumn b) 1 ->
    SearchAndReplace.modifyLine re validReplace b start end_ line lineIndex
    = line.
Proof.
  intros re R b start end_ i line H.
  unfold SearchAndReplace.modifyLine.
  destruct ((start + i >=? start) && (start + i <=? end_)); [|reflexivity].
  destruct (SearchAndReplace.isSome (SearchAndReplace.bStartColumn b)
            || SearchAndReplace.isSome (SearchAndReplace.bEndColumn b));
    [|reflexivity].
  pose proof (len_nonneg line).
  replace (_ <? _) with false; [reflexivity|].
  symmetry. apply Z.ltb_ge. lia.
Qed.

(** The property at the one-column range 2-2 of the line ["aaa"]. *)
Lemma X8_narrow_column_range_changes_nothing_witness :
  SearchAndReplace.modifyLine (Spec.literal false (lit "a")) (lit "b")
    (SearchAndReplace.mkBounds None None (Some 2) (Some 2)) 0 0 (lit "aaa") 0
  = lit "aaa".
Proof.
  refine (X8_narrow_column_range_changes_nothing
            (Spec.literal false (lit "a")) (lit "b")
            (SearchAndReplace.mkBounds None None (Some 2) (Some 2)) 0 0 0
            (lit "aaa") _).
  left. cbn. lia.
Defined.

(** X9.  When the line bounds are in order (the first line
    [max(startLine ?? 1, 1)] is at most one after the last line
    [min(endLine ?? count, count)]), the bounded replacement passes the
    lines before the first line and the lines after the last line through
    as they are and in place, and gives each line from the first to the
    last to the callback once, with its index in the range. *)
Theorem X9_ordered_line_bounds_frame :
  forall (re : JS.RegExp) (validReplace : jsstring)
         (b : SearchAndReplace.Bounds) (fileContent : jsstring),
    let lines := JS.split fileContent in
    let first := Z.max (JS.nullish (SearchAndReplace.bStartLine b) 1) 1 in
    let last :=
      Z.min (JS.nullish (SearchAndReplace.bEndLine b) (len lines))
        (len lines) in
    first <= last + 1 ->
    SearchAndReplace.boundedReplace re validReplace b fileContent
    = JS.join
        (firstn (Z.to_nat (first - 1)) lines
           ++ JS.mapi
                (SearchAndReplace.modifyLine re validReplace b (first - 1)
                   (last - 1))
                0
                (firstn (Z.to_nat (last - first + 1))
                   (skipn (Z.to_nat (first - 1)) lines))
           ++ skipn (Z.to_nat last) lines).
Proof.
  intros re R b text lines first last Hord.
  unfold SearchAndReplace.boundedReplace. fold lines.
  replace (Z.max (JS.nullish (SearchAndReplace.bStartLine b) 1 - 1) 0)
    with (first - 1) by (unfold first; lia).
  replace (Z.min (JS.nullish (SearchAndReplace.bEndLine b) (len lines) - 1)
             (len lines - 1))
    with (last - 1) by (unfold last; lia).
  assert (Hf : 1 <= first) by (unfold first; lia).
  assert (Hl : last <= len lines) by (unfold last; lia).
  rewrite (slice_inside lines 0 (first - 1)) by lia.
  rewrite (slice_inside lines (first - 1) (last - 1 + 1)) by lia.
  rewrite (sliceFrom_inside lines (last - 1 + 1)) by lia.
  cbn [Z.to_nat skipn].
  replace (first - 1 - 0) with (first - 1) by lia.
  replace (last - 1 + 1 - (first - 1)) with (last - first + 1) by lia.
  replace (last - 1 + 1) with last by lia.
  reflexivity.
Qed.

(** The property at lines 2-2, columns 1-3, of a three-line text. *)
Lemma X9_ordered_line_bounds_frame_witness :
  SearchAndReplace.boundedReplace (Spec.literal false (lit "foo")) (lit "bar")
    (SearchAndReplace.mkBounds (Some 2) (Some 2) (Some 1) (Some 3))
    (Inputs.lines3 "foo" "foo" "foo")
  = Inputs.lines3 "foo" "bar" "foo".
Proof.
  refine (X9_ordered_line_bounds_frame (Spec.literal false (lit "foo"))
            (lit "bar")
            (SearchAndReplace.mkBounds (Some 2) (Some 2) (Some 1) (Some 3))
            (Inputs.lines3 "foo" "foo" "foo") _).
  cbn. lia.
Defined.

(** ** The run of the search_and_replace tool *)

Section ToolFacts.

Import SearchAndReplace.

Lemma eqString_eq (a b : jsstring) : eqString a b = true <-> a = b.
Proof.
  revert b; induction a as [|x a IH]; intros [|y b]; cbn;
    try (split; [discriminate|discriminate]); [tauto|].
  rewrite andb_true_iff, Ascii.eqb_eq, IH. split.
  - intros [-> ->]; reflexivity.
  - intros [= -> ->]; auto.
Qed.

(** Without a match [replace] returns the text as it is. *)
Lemma replace_no_match (re : JS.RegExp) (text R : jsstring) :
  JS.search (JS.ignoreCase re) (JS.source re) text = None ->
  JS.replace text re R = text.
Proof.
  intros H. unfold JS.replace. cbn [JS.collect]. unfold JS.exec.
  replace (Nat.ltb (length text) 0) with false by reflexivity.
  cbn [skipn]. rewrite H. reflexivity.
Qed.

(** The tool from the point where the parameters are valid. *)
Lemma tool_valid (fuel : nat) (env : Env) (cline : Task) (block : ToolUse)
  (c : ascii) (p : string) (d : ascii) (s R : jsstring) :
  partial block = false ->
  path block = Some (String c p) ->
  search block = Some (d :: s) ->
  replace block = Some R ->
  searchAndReplaceTool fuel env cline block
  = let validRelPath := String c p in
    if negb (validateAccess env validRelPath) then
      Returned (pushToolResult cline (RooIgnoreError validRelPath))
    else if negb (fileExistsAtPath env validRelPath) then
      Returned (recordMistake cline (FileNotFound validRelPath))
    else
      let cline0 :=
        mkTask 0 (toolErrors cline) (toolResults cline)
          (filesRead cline ++ [validRelPath])
          (editPositionTracker cline) (saved cline) (didEditFile cline) in
      match readFileWithEncodingDetection env validRelPath with
      | None => Returned (recordMistake cline0 (ReadError validRelPath))
      | Some fileContent =>
          match searchPattern (use_regex block) (ignore_case block) (d :: s)
          with
          | None => PatternOutsideFragment
          | Some re =>
              let new := newContent re R (bounds block) fileContent in
              if emptyPatch fileContent new then
                Returned (pushToolResult cline0 (NoChangesNeeded validRelPath))
              else if negb (askApproval env) then
                Returned (pushToolResult cline0 ChangesRejected)
              else
                match
                  match editPositionTracker cline0 with
                  | None => Some None
                  | Some tr =>
                      match trackedPosition fuel validRelPath re R
                              (bounds block) fileContent with
                      | None => None
                      | Some None => Some (Some tr)
                      | Some (Some pos) =>
                          Some (Some (EditPositionTracker.trackPosition tr
                                        validRelPath pos))
                      end
                  end
                with
                | None => ScanNotFinished
                | Some tracker' =>
                    Returned
                      (mkTask 0 (toolErrors cline0)
                         (toolResults cline0 ++ [WriteResult validRelPath])
                         (filesRead cline0) tracker'
                         (saved cline0 ++ [(validRelPath, new)]) true)
                end
          end
      end.
Proof.
  intros Hpartial Hpath Hsearch Hreplace.
  unfold searchAndReplaceTool.
  rewrite Hpartial, Hpath, Hsearch, Hreplace. reflexivity.
Qed.

End ToolFacts.

Section ToolCases.

Import SearchAndReplace.

(** A request is partial, or is rejected by [validateParams], or has its
    three parameters. *)
Lemma request_cases (fuel : nat) (env : Env) (cline : Task) (block : ToolUse) :
  searchAndReplaceTool fuel env cline block = Returned cline
  \/ (exists param,
        searchAndReplaceTool fuel env cline block
        = Returned (recordMistake cline
                      (MissingParamError "search_and_replace" param)))
  \/ (exists c p d s R,
        partial block = false /\ path block = Some (String c p)
        /\ search block = Some (d :: s) /\ replace block = Some R).
Proof.
  unfold searchAndReplaceTool.
  destruct (partial block) eqn:Hp; [now left|]. right.
  destruct (path block) as [[|c p]|] eqn:Hpath;
    try (left; eexists; reflexivity).
  destruct (search block) as [[|d s]|] eqn:Hs;
    try (left; eexists; reflexivity).
  destruct (replace block) as [R|] eqn:Hr;
    try (left; eexists; reflexivity).
  right. now exists c, p, d, s, R.
Qed.

End ToolCases.

(** X10.  When the pattern has no match in the file and no bound is
    given, the new content is the file content, and the tool reads the
    file, answers that no changes are needed for the path and returns:
    nothing is saved, nothing is tracked, no approval is asked for and
    the mistake counter is 0. *)
Theorem X10_no_match_needs_no_change :
  forall (fuel : nat) (env : SearchAndReplace.Env)
         (cline : SearchAndReplace.Task) (block : SearchAndReplace.ToolUse)
         (c d : ascii) (p : string) (s R fileContent : jsstring)
         (re : JS.RegExp),
    SearchAndReplace.partial block = false ->
    SearchAndReplace.path block = Some (String c p) ->
    SearchAndReplace.search block = Some (d :: s) ->
    SearchAndReplace.replace block = Some R ->
    SearchAndReplace.bounds block = SearchAndReplace.noBounds ->
    SearchAndReplace.validateAccess env (String c p) = true ->
    SearchAndReplace.fileExistsAtPath env (String c p) = true ->
    SearchAndReplace.readFileWithEncodingDetection env (String c p)
    = Some fileContent ->
    SearchAndReplace.searchPattern (SearchAndReplace.use_regex block)
      (SearchAndReplace.ignore_case block) (d :: s) = Some re ->
    JS.search (JS.ignoreCase re) (JS.source re) fileContent = None ->
    SearchAndReplace.newContent re R SearchAndReplace.noBounds fileContent
    = fileContent
    /\ SearchAndReplace.searchAndReplaceTool fuel env cline block
       = SearchAndReplace.Returned
           (SearchAndReplace.mkTask 0 (SearchAndReplace.toolErrors cline)
              (SearchAndReplace.toolResults cline
                 ++ [SearchAndReplace.NoChangesNeeded (String c p)])
              (SearchAndReplace.filesRead cline ++ [String c p])
              (SearchAndReplace.editPositionTracker cline)
              (SearchAndReplace.saved cline)
              (SearchAndReplace.didEditFile cline)).
Proof.
  intros fuel env cline block c d p s R text re
    Hpartial Hpath Hsearch Hreplace Hb Ha He Hr Hre Hnone.
  assert (Hnew : SearchAndReplace.newContent re R SearchAndReplace.noBounds
                   text = text).
  { unfold SearchAndReplace.newContent. cbn. now apply replace_no_match. }
  split; [exact Hnew|].
  rewrite (tool_valid fuel env cline block c p d s R Hpartial Hpath Hsearch
             Hreplace).
  cbv zeta. rewrite Ha, He, Hr, Hre, Hb, Hnew. cbn [negb].
  unfold SearchAndReplace.emptyPatch.
  now rewrite (proj2 (eqString_eq text text) eq_refl).
Qed.

(** The property at the request [zzz -> y] on the file ["foo"]. *)
Lemma X10_no_match_needs_no_change_witness :
  SearchAndReplace.searchAndReplaceTool 0 (Inputs.envWith (lit "foo"))
    Inputs.task0 (Inputs.request "zzz" "y" SearchAndReplace.noBounds)
  = SearchAndReplace.Returned
      (SearchAndReplace.mkTask 0 []
         [SearchAndReplace.NoChangesNeeded "f"] ["f"%string]
         (Some EditPositionTracker.empty) [] false).
Proof.
  refine (proj2 (X10_no_match_needs_no_change 0 (Inputs.envWith (lit "foo"))
                   Inputs.task0
                   (Inputs.request "zzz" "y" SearchAndReplace.noBounds)
                   "f"%char "z"%char EmptyString (lit "zz") (lit "y")
                   (lit "foo") (Spec.literal false (lit "zzz"))
                   eq_refl eq_refl eq_refl eq_refl eq_refl eq_refl eq_refl
                   eq_refl eq_refl eq_refl)).
Defined.

(** X12.  A run never removes a recorded position and adds at most one:
    the tracker of the task holds afterwards, for every file, the
    positions it held before, followed for the file of the request by at
    most one new position, which is of type [replace], names that file
    and spans one line; a position is added only in a run that the user
    approved.  A task without a tracker stays without one. *)
Theorem X12_run_tracks_at_most_one_position :
  forall (fuel : nat) (env : SearchAndReplace.Env)
         (cline cline' : SearchAndReplace.Task)
         (block : SearchAndReplace.ToolUse),
    SearchAndReplace.searchAndReplaceTool fuel env cline block
    = SearchAndReplace.Returned cline' ->
    match SearchAndReplace.editPositionTracker cline with
    | None => SearchAndReplace.editPositionTracker cline' = None
    | Some tr =>
        exists tr' added,
          SearchAndReplace.editPositionTracker cline' = Some tr'
          /\ (length added <= 1)%nat
          /\ (forall g,
                Props.positionsOf tr' g
                = Props.positionsOf tr g
                    ++ (if String.eqb
                             (SearchAndReplace.strOr
                                (SearchAndReplace.path block)) g
                        then added else []))
          /\ (added <> [] -> SearchAndReplace.askApproval env = true)
          /\ (forall pos,
                In pos added ->
                EditPositionTracker.filePath pos
                = SearchAndReplace.strOr (SearchAndReplace.path block)
                /\ EditPositionTracker.editType pos
                   = EditPositionTracker.replace
                /\ EditPositionTracker.startLine pos
                   = EditPositionTracker.endLine pos)
    end.
Proof.
  intros fuel env cline cline' block Hrun.
  assert (Hsame : SearchAndReplace.editPositionTracker cline'
                  = SearchAndReplace.editPositionTracker cline ->
                  match SearchAndReplace.editPositionTracker cline with
                  | None => SearchAndReplace.editPositionTracker cline' = None
                  | Some tr =>
                      exists tr' added,
                        SearchAndReplace.editPositionTracker cline' = Some tr'
                        /\ (length added <= 1)%nat
                        /\ (forall g,
                              Props.positionsOf tr' g
                              = Props.positionsOf tr g
                                  ++ (if String.eqb
                                           (SearchAndReplace.strOr
                                              (SearchAndReplace.path block)) g
                                      then added else []))
                        /\ (added <> [] ->
                            SearchAndReplace.askApproval env = true)
                        /\ (forall pos,
                              In pos added ->
                              EditPositionTracker.filePath pos
                              = SearchAndReplace.strOr
                                  (SearchAndReplace.path block)
                              /\ EditPositionTracker.editType pos
                                 = EditPositionTracker.replace
                              /\ EditPositionTracker.startLine pos
                                 = EditPositionTracker.endLine pos)
                  end).
  { intros Heq. rewrite Heq.
    destruct (SearchAndReplace.editPositionTracker cline) as [tr|];
      [|reflexivity].
    exists tr, []. split; [reflexivity|]. split; [cbn; lia|].
    split; [|split].
    - intros g. destruct (String.eqb _ g); now rewrite app_nil_r.
    - congruence.
    - intros pos []. }
  destruct (request_cases fuel env cline block)
    as [H|[[param H]|(c & p & d & s & R & Hp & Hpath & Hs & Hr)]].
  - rewrite H in Hrun. injection Hrun as <-. now apply Hsame.
  - rewrite H in Hrun. injection Hrun as <-. now apply Hsame.
  - rewrite (tool_valid fuel env cline block c p d s R Hp Hpath Hs Hr) in Hrun.
    cbv zeta in Hrun.
    destruct (SearchAndReplace.validateAccess env (String c p));
      cbn [negb] in Hrun; [|injection Hrun as <-; now apply Hsame].
    destruct (SearchAndReplace.fileExistsAtPath env (String c p));
      cbn [negb] in Hrun; [|injection Hrun as <-; now apply Hsame].
    destruct (SearchAndReplace.readFileWithEncodingDetection env (String c p))
      as [text|]; [|injection Hrun as <-; now apply Hsame].
    destruct (SearchAndReplace.searchPattern _ _ _) as [re|]; [|discriminate].
    destruct (SearchAndReplace.emptyPatch text _);
      [injection Hrun as <-; now apply Hsame|].
    destruct (SearchAndReplace.askApproval env) eqn:Hok; cbn [negb] in Hrun;
      [|injection Hrun as <-; now apply Hsame].
    cbn [SearchAndReplace.editPositionTracker] in Hrun.
    destruct (SearchAndReplace.editPositionTracker cline) as [tr|] eqn:Htr.
    + unfold SearchAndReplace.trackedPosition in Hrun.
      destruct (SearchAndReplace.scan fuel re text (JS.split text)
                  (SearchAndReplace.bounds block) SearchAndReplace.scanStart)
        as [st|]; [|discriminate].
      rewrite Hpath. cbn [SearchAndReplace.strOr].
      destruct (SearchAndReplace.lastMatchPosition st) as [m|];
        cbn [option_map] in Hrun; injection Hrun as <-;
        cbn [SearchAndReplace.editPositionTracker].
      * exists (EditPositionTracker.trackPosition tr (String c p)
                  (SearchAndReplace.replacementPosition (String c p) R m)),
          [SearchAndReplace.replacementPosition (String c p) R m].
        split; [reflexivity|]. split; [cbn; lia|]. split; [|split].
        -- intros g. rewrite trackPosition_lookup.
           destruct (String.eqb (String c p) g) eqn:E;
             [|now rewrite app_nil_r].
           apply String.eqb_eq in E. now subst g.
        -- reflexivity.
        -- intros pos [<-|[]]. repeat split.
      * exists tr, []. split; [reflexivity|]. split; [cbn; lia|].
        split; [|split].
        -- intros g. destruct (String.eqb _ g); now rewrite app_nil_r.
        -- congruence.
        -- intros pos [].
    + injection Hrun as <-. reflexivity.
Qed.

(** The property at the approved request [foo -> bar] on ["foo"]. *)
Lemma X12_run_tracks_at_most_one_position_witness :
  exists tr' added,
    Some (EditPositionTracker.trackPosition EditPositionTracker.empty "f"
            (EditPositionTracker.mkEditPosition "f" 1 1 (Some 3) (Some 4)
               EditPositionTracker.replace)) = Some tr'
    /\ (length added <= 1)%nat
    /\ (forall g,
          Props.positionsOf tr' g
          = Props.positionsOf EditPositionTracker.empty g
              ++ (if String.eqb "f" g then added else []))
    /\ (added <> [] -> true = true)
    /\ (forall pos,
          In pos added ->
          EditPositionTracker.filePath pos = "f"%string
          /\ EditPositionTracker.editType pos = EditPositionTracker.replace
          /\ EditPositionTracker.startLine pos
             = EditPositionTracker.endLine pos).
Proof.
  exact (X12_run_tracks_at_most_one_position 5 (Inputs.envWith (lit "foo"))
           Inputs.task0 _
           (Inputs.request "foo" "bar" SearchAndReplace.noBounds) eq_refl).
Defined.

(** ** The position of a match *)

Section PositionFacts.

Import SearchAndReplace.

Lemma lineOffset_nonneg (lines : list jsstring) (k : nat) :
  0 <= Props.lineOffset lines k.
Proof.
  revert lines; induction k as [|k IH]; intros [|l ls]; cbn; try lia.
  specialize (IH ls). pose proof (len_nonneg l). lia.
Qed.

(** The [for] loop stops at the line that holds the index [matchStart]. *)
Lemma findStart_spec (lines : list jsstring) :
  forall (i charCount matchStart : Z),
    charCount <= matchStart ->
    matchStart < charCount + Props.lineOffset lines (length lines) ->
    exists (k : nat) (line : jsstring),
      nth_error lines k = Some line
      /\ findStart lines i charCount matchStart
         = (i + Z.of_nat k,
            matchStart - (charCount + Props.lineOffset lines k) + 1)
      /\ charCount + Props.lineOffset lines k <= matchStart
      /\ matchStart <= charCount + Props.lineOffset lines k + len line.
Proof.
  induction lines as [|l ls IH]; intros i cc ms Hle Hlt.
  - cbn in Hlt. lia.
  - cbn [findStart].
    destruct (cc + (len l + 1) >? ms) eqn:E.
    + apply Z.gtb_lt in E. exists 0%nat, l. cbn. repeat split; try lia.
      f_equal; lia.
    + assert (E' : cc + (len l + 1) <= ms).
      { destruct (Z.gtb_spec (cc + (len l + 1)) ms); [discriminate|lia]. }
      cbn [length Props.lineOffset] in Hlt.
      destruct (IH (i + 1) (cc + (len l + 1)) ms E' ltac:(lia))
        as (k & line & Hn & Hf & H1 & H2).
      exists (S k), line. cbn [nth_error Props.lineOffset].
      split; [exact Hn|]. rewrite Hf.
      repeat split; try lia. f_equal; lia.
Qed.

(** Whatever the lines, the start line index is not negative and the
    start column is at least 1. *)
Lemma findStart_pos (lines : list jsstring) :
  forall (i charCount matchStart : Z),
    0 <= i -> 0 <= charCount <= matchStart ->
    0 <= fst (findStart lines i charCount matchStart)
    /\ 1 <= snd (findStart lines i charCount matchStart).
Proof.
  induction lines as [|l ls IH]; intros i cc ms Hi Hc; cbn [findStart].
  - cbn. lia.
  - destruct (cc + (len l + 1) >? ms) eqn:E; [cbn; lia|].
    assert (E' : cc + (len l + 1) <= ms).
    { destruct (Z.gtb_spec (cc + (len l + 1)) ms); [discriminate|lia]. }
    pose proof (len_nonneg l). apply IH; lia.
Qed.

Lemma len_join (ls : list jsstring) :
  ls <> [] -> len (JS.join ls) = Props.lineOffset ls (length ls) - 1.
Proof.
  induction ls as [|l ls IH]; [congruence|]. intros _.
  destruct ls as [|l2 ls].
  - cbn. lia.
  - cbn [JS.join length Props.lineOffset] in *.
    rewrite len_app, len_cons, IH by discriminate. lia.
Qed.

Lemma join_skipn (ls : list jsstring) :
  forall k : nat,
    (k < length ls)%nat ->
    skipn (Z.to_nat (Props.lineOffset ls k)) (JS.join ls)
    = JS.join (skipn k ls).
Proof.
  induction ls as [|l ls IH]; intros k Hk; [cbn in Hk; lia|].
  destruct k as [|k]; [reflexivity|].
  cbn [length] in Hk. destruct ls as [|l2 ls]; [cbn in Hk; lia|].
  change (Props.lineOffset (l :: l2 :: ls) (S k))
    with (len l + 1 + Props.lineOffset (l2 :: ls) k).
  change (skipn (S k) (l :: l2 :: ls)) with (skipn k (l2 :: ls)).
  change (JS.join (l :: l2 :: ls)) with (l ++ nl :: JS.join (l2 :: ls)).
  pose proof (lineOffset_nonneg (l2 :: ls) k) as Hn.
  replace (Z.to_nat (len l + 1 + Props.lineOffset (l2 :: ls) k))
    with (length l + S (Z.to_nat (Props.lineOffset (l2 :: ls) k)))%nat
    by (unfold len; lia).
  rewrite skipn_app.
  rewrite (skipn_all2 l) by lia.
  replace (length l + S (Z.to_nat (Props.lineOffset (l2 :: ls) k)) - length l)%nat
    with (S (Z.to_nat (Props.lineOffset (l2 :: ls) k))) by lia.
  cbn [app skipn]. apply IH. lia.
Qed.

(** The start of a match inside the text: line, column and what follows. *)
Lemma positionOf_start (text : jsstring) (matchStart : nat) :
  (matchStart <= length text)%nat ->
  exists (k : nat) (line : jsstring) (col : Z),
    findStart (JS.split text) 0 0 (Z.of_nat matchStart) = (Z.of_nat k, col)
    /\ nth_error (JS.split text) k = Some line
    /\ 1 <= col <= len line + 1
    /\ skipn matchStart text
       = skipn (Z.to_nat (col - 1)) (JS.join (skipn k (JS.split text))).
Proof.
  intros Hms.
  pose proof (len_join (JS.split text) (split_not_nil text)) as Hlen.
  rewrite join_split in Hlen.
  destruct (findStart_spec (JS.split text) 0 0 (Z.of_nat matchStart)
              ltac:(lia) ltac:(unfold len in Hlen; lia))
    as (k & line & Hn & Hf & H1 & H2).
  exists k, line, (Z.of_nat matchStart - (0 + Props.lineOffset (JS.split text) k) + 1).
  split; [rewrite Hf; f_equal; lia|]. split; [exact Hn|].
  split; [lia|].
  assert (Hk : (k < length (JS.split text))%nat)
    by (apply nth_error_Some; congruence).
  rewrite <- (join_skipn (JS.split text) k Hk), skipn_skipn, join_split.
  f_equal. pose proof (lineOffset_nonneg (JS.split text) k). lia.
Qed.

Lemma findEnd_from (rest : list jsstring) :
  forall (cur remaining col d1 d2 : Z),
    d1 <= cur -> d1 <= fst (findEnd rest cur remaining col (d1, d2)).
Proof.
  induction rest as [|l rest IH]; intros cur n col d1 d2 Hd; cbn [findEnd].
  - cbn. lia.
  - destruct (n >? 0); [|cbn; lia].
    destruct (n <=? len l - col + 1); [cbn; lia|].
    apply IH. lia.
Qed.

End PositionFacts.

(** X13.  For a match that starts inside the text, the start line and the
    start column that the scan computes locate it: the line exists, the
    column lies between 1 and one past the end of that line, and the text
    from the match on is the text from that column of that line on. *)
Theorem X13_match_start_is_located :
  forall (text : jsstring) (matchStart matchLength : nat),
    (matchStart <= length text)%nat ->
    let p :=
      SearchAndReplace.positionOf (JS.split text) matchStart matchLength in
    let k := Z.to_nat (SearchAndReplace.mStartLine p - 1) in
    1 <= SearchAndReplace.mStartLine p <= len (JS.split text)
    /\ (exists line,
          nth_error (JS.split text) k = Some line
          /\ 1 <= SearchAndReplace.mStartColumn p <= len line + 1)
    /\ skipn matchStart text
       = skipn (Z.to_nat (SearchAndReplace.mStartColumn p - 1))
           (JS.join (skipn k (JS.split text))).
Proof.
  intros text ms n Hms.
  destruct (positionOf_start text ms Hms) as (k & line & col & Hf & Hn & Hc & Hs).
  unfold SearchAndReplace.positionOf. rewrite Hf.
  destruct (SearchAndReplace.findEnd _ _ _ _ _) as [eli ec].
  cbv zeta. cbn [SearchAndReplace.mStartLine SearchAndReplace.mStartColumn].
  replace (Z.to_nat (Z.of_nat k + 1 - 1)) with k by lia.
  assert (Hk : (k < length (JS.split text))%nat)
    by (apply nth_error_Some; congruence).
  split; [unfold len; lia|]. split; [now exists line|exact Hs].
Qed.

(** The property at the second [foo] of the two-line text [foo / foo]. *)
Lemma X13_match_start_is_located_witness :
  skipn 4 (Inputs.lines2 "foo" "foo")
  = skipn 0 (JS.join (skipn 1 (JS.split (Inputs.lines2 "foo" "foo")))).
Proof.
  exact (proj2 (proj2 (X13_match_start_is_located
                         (Inputs.lines2 "foo" "foo") 4 3 ltac:(cbn; lia)))).
Defined.

Section MatchEnd.

Import SearchAndReplace.

Lemma nth_error_skipn_cons {A : Type} (l : list A) :
  forall (k : nat) (x : A),
    nth_error l k = Some x -> exists r, skipn k l = x :: r.
Proof.
  induction l as [|y l IH]; intros [|k] x; cbn; try discriminate.
  - intros [= ->]. now exists l.
  - apply IH.
Qed.

Lemma firstn_reaches {A : Type} (a b : list A) (x : A) (n : nat) :
  (length a < n)%nat -> In x (firstn n (a ++ x :: b)).
Proof.
  intros H. rewrite firstn_app. apply in_or_app. right.
  destruct (n - length a)%nat as [|m] eqn:E; [lia|]. now left.
Qed.

(** A match without a newline fits in what is left of its line. *)
Lemma match_fits (text : jsstring) (matchStart n k : nat) (line : jsstring)
  (rest : list jsstring) (col : Z) :
  (matchStart + n <= length text)%nat ->
  ~ In nl (firstn n (skipn matchStart text)) ->
  1 <= col <= len line + 1 ->
  skipn matchStart text
  = skipn (Z.to_nat (col - 1)) (JS.join (line :: rest)) ->
  Z.of_nat n <= len line - col + 1.
Proof.
  intros Hin Hnl Hc Hs.
  destruct (Z_le_gt_dec (Z.of_nat n) (len line - col + 1)) as [H|H];
    [exact H|exfalso].
  destruct rest as [|l2 r].
  - cbn [JS.join] in Hs. apply (f_equal (@length ascii)) in Hs.
    rewrite !length_skipn in Hs. unfold len in *. lia.
  - change (JS.join (line :: l2 :: r))
      with (line ++ nl :: JS.join (l2 :: r)) in Hs.
    rewrite skipn_app in Hs.
    replace (Z.to_nat (col - 1) - length line)%nat with 0%nat in Hs
      by (unfold len in *; lia).
    cbn [skipn] in Hs. apply Hnl. rewrite Hs. apply firstn_reaches.
    rewrite length_skipn. unfold len in *. lia.
Qed.

End MatchEnd.

(** X14.  The end of a match is never before its start line.  A match
    that lies inside the text and holds no newline ends on the line it
    starts on, at the column [start column + length - 1]; for an empty
    match this is the column before the start column. *)
Theorem X14_match_end_on_its_line :
  (forall (lines : list jsstring) (matchStart matchLength : nat),
      SearchAndReplace.mStartLine
        (SearchAndReplace.positionOf lines matchStart matchLength)
      <= SearchAndReplace.mEndLine
           (SearchAndReplace.positionOf lines matchStart matchLength))
  /\ (forall (text : jsstring) (matchStart matchLength : nat),
        (matchStart + matchLength <= length text)%nat ->
        ~ In nl (firstn matchLength (skipn matchStart text)) ->
        let p :=
          SearchAndReplace.positionOf (JS.split text) matchStart matchLength in
        SearchAndReplace.mEndLine p = SearchAndReplace.mStartLine p
        /\ SearchAndReplace.mEndColumn p
           = SearchAndReplace.mStartColumn p + Z.of_nat matchLength - 1).
Proof.
  split.
  - intros lines ms n. unfold SearchAndReplace.positionOf.
    destruct (SearchAndReplace.findStart lines 0 0 (Z.of_nat ms))
      as [sli sc] eqn:Ef.
    pose proof (findEnd_from (skipn (Z.to_nat sli) lines) sli (Z.of_nat n) sc
                  sli (sc + Z.of_nat n - 1) (Z.le_refl _)) as H.
    destruct (SearchAndReplace.findEnd _ _ _ _ _) as [eli ec].
    cbn in *. lia.
  - intros text ms n Hin Hnl.
    destruct (positionOf_start text ms ltac:(lia))
      as (k & line & col & Hf & Hn & Hc & Hs).
    destruct (nth_error_skipn_cons _ _ _ Hn) as [rest Hrest].
    rewrite Hrest in Hs.
    pose proof (match_fits text ms n k line rest col Hin Hnl Hc Hs) as Hfit.
    cbv zeta. unfold SearchAndReplace.positionOf. rewrite Hf.
    rewrite Nat2Z.id, Hrest. cbn [SearchAndReplace.findEnd].
    destruct (Z.of_nat n >? 0) eqn:Epos.
    + replace (Z.of_nat n <=? len line - col + 1) with true
        by (symmetry; apply Z.leb_le; exact Hfit).
      cbn. split; lia.
    + cbn. split; lia.
Qed.

(** The property at the second [foo] of the two-line text [foo / foo]. *)
Lemma X14_match_end_on_its_line_witness :
  SearchAndReplace.mEndLine
    (SearchAndReplace.positionOf (JS.split (Inputs.lines2 "foo" "foo")) 4 3)
  = SearchAndReplace.mStartLine
      (SearchAndReplace.positionOf (JS.split (Inputs.lines2 "foo" "foo")) 4 3)
  /\ SearchAndReplace.mEndColumn
       (SearchAndReplace.positionOf (JS.split (Inputs.lines2 "foo" "foo")) 4 3)
     = SearchAndReplace.mStartColumn
         (SearchAndReplace.positionOf (JS.split (Inputs.lines2 "foo" "foo"))
            4 3) + Z.of_nat 3 - 1.
Proof.
  refine (proj2 X14_match_end_on_its_line (Inputs.lines2 "foo" "foo")
            4%nat 3%nat _ _).
  - cbn. lia.
  - cbn. intros [H|[H|[H|[]]]]; discriminate H.
Defined.

Section RecordedShape.

Import SearchAndReplace.

Lemma visited_positionOf (re : JS.RegExp) (text : jsstring)
  (lines : list jsstring) (b : Bounds) (fuel : nat) :
  forall (st : ScanState) (m : MatchPosition),
    In m (Spec.visited fuel re text lines b st) ->
    exists i n, m = positionOf lines i n.
Proof.
  induction fuel as [|fuel IH]; intros st m; cbn [Spec.visited]; [intros []|].
  destruct (JS.exec re text (lastIndex st)) as [[[i n]|] li]; [|intros []].
  destruct (scanStep re text lines b st) as [st'|]; [|intros []].
  intros [<-|H]; [now exists i, n|now apply (IH st')].
Qed.

Lemma positionOf_pos (lines : list jsstring) (i n : nat) :
  1 <= mStartLine (positionOf lines i n)
  /\ 1 <= mStartColumn (positionOf lines i n).
Proof.
  unfold positionOf.
  pose proof (findStart_pos lines 0 0 (Z.of_nat i) ltac:(lia) ltac:(lia)) as H.
  destruct (findStart lines 0 0 (Z.of_nat i)) as [sli sc].
  destruct (findEnd _ _ _ _ _) as [eli ec]. cbn in *. lia.
Qed.

End RecordedShape.

(** X16.  Every position that search_and_replace records is a one-column
    range on one line: it names the path of the request, has the type
    [replace], its end line is its start line, which is at least 1, its
    end column is its start column plus 1, and its start column is not
    negative. *)
Theorem X16_recorded_position_shape :
  forall (fuel : nat) (validRelPath : string) (re : JS.RegExp)
         (validReplace fileContent : jsstring) (b : SearchAndReplace.Bounds)
         (pos : EditPositionTracker.EditPosition),
    SearchAndReplace.trackedPosition fuel validRelPath re validReplace b
      fileContent = Some (Some pos) ->
    EditPositionTracker.filePath pos = validRelPath
    /\ EditPositionTracker.editType pos = EditPositionTracker.replace
    /\ 1 <= EditPositionTracker.startLine pos
    /\ EditPositionTracker.endLine pos = EditPositionTracker.startLine pos
    /\ exists col,
         0 <= col
         /\ EditPositionTracker.startColumn pos = Some col
         /\ EditPositionTracker.endColumn pos = Some (col + 1).
Proof.
  intros fuel path re R text b pos H.
  unfold SearchAndReplace.trackedPosition in H.
  destruct (SearchAndReplace.scan fuel re text (JS.split text) b
              SearchAndReplace.scanStart) as [st|] eqn:Hscan; [|discriminate].
  pose proof (scan_lastThat _ _ _ _ _ _ _ Hscan) as Hlast.
  destruct (SearchAndReplace.lastMatchPosition st) as [m|]; [|discriminate].
  injection H as <-.
  destruct (Spec.lastThat _ _) as [y|] eqn:E; [|discriminate].
  injection Hlast as ->. apply lastThat_Some in E. destruct E as [Hin _].
  destruct (visited_positionOf _ _ _ _ _ _ _ Hin) as (i & n & ->).
  destruct (positionOf_pos (JS.split text) i n) as [Hl Hc].
  pose proof (len_split_pos R) as HR.
  unfold SearchAndReplace.replacementPosition. cbn.
  repeat split; try lia.
  eexists. split; [|split; reflexivity].
  destruct (len (JS.split R) =? 1).
  - pose proof (len_nonneg R). lia.
  - apply len_nonneg.
Qed.

(** The property at the request [foo -> bar] on ["foo foo foo"]. *)
Lemma X16_recorded_position_shape_witness :
  EditPositionTracker.endLine
    (EditPositionTracker.mkEditPosition "f" 1 1 (Some 11) (Some 12)
       EditPositionTracker.replace) = 1.
Proof.
  exact (proj1 (proj2 (proj2 (proj2
           (X16_recorded_position_shape 13 "f"
              (Spec.literal false (lit "foo")) (lit "bar") (lit "foo foo foo")
              SearchAndReplace.noBounds _ eq_refl))))).
Defined.

(** ** The position tracking of apply_diff *)

(** X17.  Every position that apply_diff hands to [trackPosition] is a
    caret that satisfies the invariant of the data model: it names the
    path of the request, has the type [modify], its start and end line are
    the same, its start and end column are the same and at least 1. *)
Theorem X17_applyDiff_records_a_caret :
  forall (relPath : string) (blockStartLine : Z) (diffContent : jsstring)
         (content : option jsstring)
         (allMatches : list ApplyDiff.SearchReplaceMatch)
         (startLineMatch : option Z) (searchMatch : option jsstring),
    let pos :=
      ApplyDiff.trackedPosition relPath
        (ApplyDiff.finalPosition blockStartLine diffContent content
           allMatches startLineMatch searchMatch) in
    Spec.invariant pos
    /\ EditPositionTracker.filePath pos = relPath
    /\ EditPositionTracker.editType pos = EditPositionTracker.modify
    /\ EditPositionTracker.startLine pos = EditPositionTracker.endLine pos
    /\ EditPositionTracker.startColumn pos = EditPositionTracker.endColumn pos.
Proof.
  intros. split; [apply applyDiff_position_invariant|]. repeat split.
Qed.

Section BlockOrder.

Import ApplyDiff.

Lemma startLine_unique (l : list SearchReplaceMatch) :
  NoDup (map startLine l) ->
  forall a b, In a l -> In b l -> startLine a = startLine b -> a = b.
Proof.
  induction l as [|x l IH]; intros Hnd a b Ha Hb Hk; [destruct Ha|].
  cbn [map] in Hnd. inversion Hnd as [|k ks Hnot Hnd']. subst.
  destruct Ha as [<-|Ha], Hb as [<-|Hb].
  - reflexivity.
  - exfalso. apply Hnot. rewrite Hk. now apply in_map.
  - exfalso. apply Hnot. rewrite <- Hk. now apply in_map.
  - now apply IH.
Qed.

(** A list of blocks with distinct start lines has one sorted order. *)
Lemma sorted_unique (l1 : list SearchReplaceMatch) :
  forall l2,
    StronglySorted Spec.byStartLine l1 ->
    StronglySorted Spec.byStartLine l2 ->
    Permutation l1 l2 ->
    NoDup (map startLine l1) ->
    l1 = l2.
Proof.
  induction l1 as [|a t1 IH]; intros l2 H1 H2 Hp Hnd.
  - now apply Permutation_nil in Hp.
  - destruct l2 as [|b t2].
    + apply Permutation_sym, Permutation_nil in Hp. discriminate.
    + inversion H1 as [|? ? Hs1 Hf1]. inversion H2 as [|? ? Hs2 Hf2]. subst.
      assert (Hb : In b (a :: t1))
        by (eapply Permutation_in; [apply Permutation_sym, Hp|now left]).
      assert (Ha : In a (b :: t2))
        by (eapply Permutation_in; [apply Hp|now left]).
      assert (Hab : startLine a <= startLine b).
      { destruct Hb as [<-|Hb]; [lia|].
        rewrite Forall_forall in Hf1. apply (Hf1 _ Hb). }
      assert (Hba : startLine b <= startLine a).
      { destruct Ha as [<-|Ha]; [lia|].
        rewrite Forall_forall in Hf2. apply (Hf2 _ Ha). }
      assert (a = b)
        by (apply (startLine_unique (a :: t1) Hnd); [now left|exact Hb|lia]).
      subst b. f_equal. apply IH; try assumption.
      * now apply Permutation_cons_inv in Hp.
      * cbn [map] in Hnd. now inversion Hnd.
Qed.

Lemma sortMatches_order_free (l l' : list SearchReplaceMatch) :
  Permutation l l' -> NoDup (map startLine l) ->
  sortMatches l = sortMatches l'.
Proof.
  intros Hp Hnd. apply sorted_unique.
  - apply sortMatches_sorted.
  - apply sortMatches_sorted.
  - etransitivity; [apply Permutation_sym, sortMatches_perm|].
    etransitivity; [exact Hp|apply sortMatches_perm].
  - eapply Permutation_NoDup; [|exact Hnd].
    apply Permutation_map, sortMatches_perm.
Qed.

End BlockOrder.

(** X18.  When the blocks have distinct start lines, the order in which
    they are given does not matter: every arrangement of the blocks is
    processed in the same order and gives the same final position. *)
Theorem X18_block_order_does_not_matter :
  forall (blockStartLine : Z) (diffContent : jsstring)
         (content : option jsstring)
         (allMatches allMatches' : list ApplyDiff.SearchReplaceMatch)
         (startLineMatch : option Z) (searchMatch : option jsstring),
    Permutation allMatches allMatches' ->
    NoDup (map ApplyDiff.startLine allMatches) ->
    ApplyDiff.sortMatches allMatches = ApplyDiff.sortMatches allMatches'
    /\ ApplyDiff.finalPosition blockStartLine diffContent content allMatches
         startLineMatch searchMatch
       = ApplyDiff.finalPosition blockStartLine diffContent content
           allMatches' startLineMatch searchMatch.
Proof.
  intros b diff content l l' slm sm Hp Hnd.
  pose proof (sortMatches_order_free l l' Hp Hnd) as Hs.
  split; [exact Hs|]. unfold ApplyDiff.finalPosition.
  destruct content as [[|c cs]|]; try reflexivity.
  destruct (ApplyDiff.truthy diff); [|reflexivity].
  destruct l as [|m l], l' as [|m' l'].
  - reflexivity.
  - apply Permutation_nil in Hp. discriminate.
  - apply Permutation_sym, Permutation_nil in Hp. discriminate.
  - now rewrite Hs.
Qed.

(** The property at the blocks declared at lines 10 and 20. *)
Lemma X18_block_order_does_not_matter_witness :
  ApplyDiff.sortMatches [Inputs.blockAt20; Inputs.blockAt10]
  = ApplyDiff.sortMatches [Inputs.blockAt10; Inputs.blockAt20].
Proof.
  refine (proj1 (X18_block_order_does_not_matter 1 (lit "d") (Some (lit "x"))
                   [Inputs.blockAt20; Inputs.blockAt10]
                   [Inputs.blockAt10; Inputs.blockAt20] None None _ _)).
  - apply perm_swap.
  - cbn. constructor; [|constructor; [|constructor]].
    + intros [H|[]]; discriminate H.
    + intros [].
Defined.

Section ColumnBounds.

Import ApplyDiff.

Lemma trimStart_length (s : jsstring) :
  (length (JS.trimStart s) <= length s)%nat.
Proof.
  induction s as [|c s IH]; cbn [JS.trimStart]; [lia|].
  destruct (JS.isWhiteSpace c); cbn [length]; lia.
Qed.

Lemma trimEnd_length (s : jsstring) : len (JS.trimEnd s) <= len s.
Proof.
  unfold JS.trimEnd, len. rewrite length_rev.
  pose proof (trimStart_length (rev s)) as H. rewrite length_rev in H. lia.
Qed.

Lemma indexOf_inside (s p : jsstring) (k : nat) :
  JS.indexOf s p = Some k -> Z.of_nat k + len p <= len s.
Proof.
  intros H. apply indexOf_Some in H. destruct H as [[Hk Ho] _].
  apply (f_equal (@length ascii)) in Ho.
  rewrite length_firstn, length_skipn in Ho. unfold len. lia.
Qed.

(** An end column computed on a line lies between 1 and one past the end
    of that line. *)
Lemma endColumn_inside (line needle : jsstring) :
  1 <= (if truthy line then
          match JS.indexOf line needle with
          | Some startIndex => Z.of_nat startIndex + len needle + 1
          | None => len (JS.trimEnd line) + 1
          end
        else 1) <= len line + 1.
Proof.
  pose proof (len_nonneg line). pose proof (len_nonneg needle).
  destruct (truthy line); [|lia].
  destruct (JS.indexOf line needle) as [k|] eqn:E.
  - apply indexOf_inside in E. lia.
  - pose proof (trimEnd_length line). pose proof (len_nonneg (JS.trimEnd line)).
    lia.
Qed.

Lemma processBlocks_is_last (ls : list jsstring)
  (ms : list SearchReplaceMatch) :
  forall st, ms <> [] ->
             exists st' m, processBlocks ls st ms = processBlock ls st' m.
Proof.
  induction ms as [|m ms IH]; intros st Hne; [congruence|].
  cbn [processBlocks fold_left]. destruct ms as [|m2 ms].
  - now exists st, m.
  - apply (IH (processBlock ls st m)). discriminate.
Qed.

Lemma endColumnOf_inside (ls : list jsstring) (n : Z) (r line : jsstring) :
  Spec.finalLine ls n = Some line ->
  1 <= endColumnOf ls n (JS.split r) <= len line + 1.
Proof.
  intros H. unfold endColumnOf.
  destruct (finalLine_lineAt _ _ _ H) as [-> ->].
  rewrite len_split_gtb. cbn [andb]. apply endColumn_inside.
Qed.

End ColumnBounds.

(** X20.  The column that apply_diff records is a place on the line it
    records: whenever the final document has a line with the recorded
    line number, the recorded column lies between 1 and one past the end
    of that line. *)
Theorem X20_recorded_column_lies_on_the_line :
  forall (blockStartLine : Z) (diffContent content : jsstring)
         (allMatches : list ApplyDiff.SearchReplaceMatch)
         (startLineMatch : option Z) (searchMatch : option jsstring)
         (line : jsstring),
    let f :=
      ApplyDiff.finalPosition blockStartLine diffContent (Some content)
        allMatches startLineMatch searchMatch in
    Spec.finalLine (JS.split content) (ApplyDiff.finalEndLine f) = Some line ->
    1 <= ApplyDiff.finalEndColumn f <= len line + 1.
Proof.
  intros b diff content l slm sm line f Hline.
  pose proof (len_nonneg line) as Hlen.
  subst f. unfold ApplyDiff.finalPosition in *.
  destruct content as [|c cs]; [cbn in *; lia|].
  destruct (ApplyDiff.truthy diff); [|cbn in *; lia].
  destruct l as [|m l].
  - unfold ApplyDiff.legacyBlock in *.
    destruct sm as [r|]; [|cbn in *; lia].
    rewrite len_split_gtb in *. cbn [andb] in *.
    cbn [ApplyDiff.finalEndLine ApplyDiff.finalStartLine
         ApplyDiff.finalEndColumn] in *.
    destruct (finalLine_lineAt _ _ _ Hline) as [-> ->].
    apply endColumn_inside.
  - destruct (processBlocks_is_last (JS.split (c :: cs))
                (ApplyDiff.sortMatches (m :: l))
                (ApplyDiff.mkLoopState 0
                   (ApplyDiff.mkFinal b 1 b 1))) as (st' & m' & Heq).
    { intros Hnil.
      pose proof (sortMatches_perm (m :: l)) as Hp. rewrite Hnil in Hp.
      apply Permutation_sym, Permutation_nil in Hp. discriminate. }
    rewrite Heq in *.
    cbn [ApplyDiff.processBlock ApplyDiff.final ApplyDiff.finalEndLine
         ApplyDiff.finalEndColumn] in *.
    now apply endColumnOf_inside.
Qed.

(** The property at the block of the source's comment. *)
Lemma X20_recorded_column_lies_on_the_line_witness :
  1 <= 17 <= len (lit "    <h1>333</h1>") + 1.
Proof.
  exact (X20_recorded_column_lies_on_the_line 1 (lit "diff")
           (lit "    <h1>333</h1>") [Inputs.headingBlock] None None
           (lit "    <h1>333</h1>") eq_refl).
Defined.

(** X21.  For a complete request, the mistake counter after a run that
    returns is the counter before when the access is denied, one more
    when the file does not exist, 1 when the file exists but cannot be
    read, and 0 in every other case (no change, rejection by the user,
    edit saved); the file is read once when the access is allowed and the
    file exists, and not at all otherwise. *)
Theorem X21_mistake_counter_after_a_run :
  forall (fuel : nat) (env : SearchAndReplace.Env)
         (cline cline' : SearchAndReplace.Task)
         (block : SearchAndReplace.ToolUse)
         (c d : ascii) (p : string) (s R : jsstring),
    SearchAndReplace.partial block = false ->
    SearchAndReplace.path block = Some (String c p) ->
    SearchAndReplace.search block = Some (d :: s) ->
    SearchAndReplace.replace block = Some R ->
    SearchAndReplace.searchAndReplaceTool fuel env cline block
    = SearchAndReplace.Returned cline' ->
    SearchAndReplace.consecutiveMistakeCount cline'
    = (if negb (SearchAndReplace.validateAccess env (String c p))
       then SearchAndReplace.consecutiveMistakeCount cline
       else if negb (SearchAndReplace.fileExistsAtPath env (String c p))
       then SearchAndReplace.consecutiveMistakeCount cline + 1
       else match SearchAndReplace.readFileWithEncodingDetection env
                    (String c p) with
            | None => 1
            | Some _ => 0
            end)
    /\ SearchAndReplace.filesRead cline'
       = (if SearchAndReplace.validateAccess env (String c p)
             && SearchAndReplace.fileExistsAtPath env (String c p)
          then SearchAndReplace.filesRead cline ++ [String c p]
          else SearchAndReplace.filesRead cline).
Proof.
  intros fuel env cline cline' block c d p s R Hp Hpath Hs Hr Hrun.
  rewrite (tool_valid fuel env cline block c p d s R Hp Hpath Hs Hr) in Hrun.
  cbv zeta in Hrun.
  destruct (SearchAndReplace.validateAccess env (String c p));
    cbn [negb andb] in *; [|injection Hrun as <-; split; reflexivity].
  destruct (SearchAndReplace.fileExistsAtPath env (String c p));
    cbn [negb] in *; [|injection Hrun as <-; split; reflexivity].
  destruct (SearchAndReplace.readFileWithEncodingDetection env (String c p))
    as [text|]; [|injection Hrun as <-; split; reflexivity].
  destruct (SearchAndReplace.searchPattern _ _ _) as [re|]; [|discriminate].
  destruct (SearchAndReplace.emptyPatch text _);
    [injection Hrun as <-; split; reflexivity|].
  destruct (SearchAndReplace.askApproval env); cbn [negb] in Hrun;
    [|injection Hrun as <-; split; reflexivity].
  match type of Hrun with
  | match ?t with _ => _ end = _ => destruct t as [tracker'|]
  end; [|discriminate].
  injection Hrun as <-. split; reflexivity.
Qed.

(** The property at a request on a file that cannot be read, for a task
    that has made seven mistakes before. *)
Lemma X21_mistake_counter_after_a_run_witness :
  1 = (if negb true then 7
       else if negb true then 7 + 1
       else match @None jsstring with None => 1 | Some _ => 0 end)
  /\ ["f"%string] = (if true && true then [] ++ ["f"%string] else []).
Proof.
  exact (X21_mistake_counter_after_a_run 0
           (SearchAndReplace.mkEnv (fun _ => true) (fun _ => true)
              (fun _ => None) true)
           (SearchAndReplace.mkTask 7 [] [] [] None [] false) _
           (Inputs.request "foo" "bar" SearchAndReplace.noBounds)
           "f"%char "f"%char EmptyString (lit "oo") (lit "bar")
           eq_refl eq_refl eq_refl eq_refl eq_refl).
Defined.

(** ** The scan and the replacement see the same matches *)

Section SameMatches.

Import SearchAndReplace.

Lemma qualifies_open_lines (b : Bounds) (p : MatchPosition) :
  bStartLine b = None \/ bEndLine b = None -> qualifies b p = true.
Proof.
  intros Hb. rewrite qualifies_lines. unfold withinLineRange.
  destruct Hb as [-> | ->]; [reflexivity|]. now destruct (bStartLine b).
Qed.


End SameMatches.

(** X23.  Blocks that are given in ascending order of their start lines,
    blocks of the same start line included, are processed in the order
    given: sorting leaves such a list as it is. *)
Theorem X23_ascending_blocks_keep_their_order :
  forall (allMatches : list ApplyDiff.SearchReplaceMatch),
    StronglySorted Spec.byStartLine allMatches ->
    ApplyDiff.sortMatches allMatches = allMatches.
Proof.
  intros l Hs. induction Hs as [|m l Hl IH Hm]; [reflexivity|].
  cbn [ApplyDiff.sortMatches fold_right]. fold (ApplyDiff.sortMatches l).
  rewrite IH. destruct l as [|x l]; [reflexivity|].
  cbn [ApplyDiff.insertMatch]. inversion Hm as [|? ? Hx _]. subst.
  unfold Spec.byStartLine in Hx.
  now replace (ApplyDiff.startLine m <=? ApplyDiff.startLine x) with true
    by (symmetry; now apply Z.leb_le).
Qed.

(** The property at the blocks declared at lines 10 and 20. *)
Lemma X23_ascending_blocks_keep_their_order_witness :
  ApplyDiff.sortMatches [Inputs.blockAt10; Inputs.blockAt20]
  = [Inputs.blockAt10; Inputs.blockAt20].
Proof.
  refine (X23_ascending_blocks_keep_their_order
            [Inputs.blockAt10; Inputs.blockAt20] _).
  repeat constructor. unfold Spec.byStartLine. cbn. lia.
Defined.

(** ** Lines and columns by walking over the text *)

Section Walk.

Import SearchAndReplace.

Lemma after_app (pos : Z * Z) (s t : jsstring) :
  Props.after pos (s ++ t) = Props.after (Props.after pos s) t.
Proof. apply fold_left_app. Qed.

(** A text without a newline stays on its line. *)
Lemma after_plain (s : jsstring) :
  forall (line column : Z),
    ~ In nl s -> Props.after (line, column) s = (line, column + len s).
Proof.
  induction s as [|c s IH]; intros line column Hnl.
  - cbn. f_equal. lia.
  - cbn [Props.after fold_left]. unfold Props.advance at 2.
    destruct (Ascii.eqb c nl) eqn:E.
    + apply Ascii.eqb_eq in E. exfalso. apply Hnl. now left.
    + cbn [fst snd]. fold (Props.after (line, column + 1) s).
      rewrite IH by (intros H; apply Hnl; now right).
      rewrite len_cons. f_equal. lia.
Qed.

(** No line of [split] holds a newline. *)
Lemma split_plain (text : jsstring) :
  forall l : jsstring, In l (JS.split text) -> ~ In nl l.
Proof.
  induction text as [|c s IH]; cbn [JS.split].
  - intros l [<-|[]] [].
  - destruct (Ascii.eqb c nl) eqn:E.
    + intros l [<-|H]; [intros []|now apply IH].
    + destruct (JS.split s) as [|l0 ls] eqn:Es.
      * intros l [<-|[]] [H|[]]. subst c.
        now rewrite Ascii.eqb_refl in E.
      * intros l [<-|H].
        -- intros [H|H]; [subst c; now rewrite Ascii.eqb_refl in E|].
           apply (IH l0); [now left|exact H].
        -- apply IH. now right.
Qed.

(** The [for] loop of line 358 finds the line and the column that walking
    over the text up to the index reaches. *)
Lemma findStart_after (lines : list jsstring) :
  (forall l, In l lines -> ~ In nl l) ->
  forall (i charCount line : Z) (j : nat),
    Z.of_nat j < Props.lineOffset lines (length lines) ->
    Props.after (line, 1) (firstn j (JS.join lines))
    = (line + (fst (findStart lines i charCount (charCount + Z.of_nat j)) - i),
       snd (findStart lines i charCount (charCount + Z.of_nat j))).
Proof.
  induction lines as [|l ls IH]; intros Hplain i cc line j Hj.
  - cbn in Hj. lia.
  - cbn [findStart].
    destruct (cc + (len l + 1) >? cc + Z.of_nat j) eqn:E.
    + apply Z.gtb_lt in E. cbn [fst snd].
      assert (Hf : firstn j (JS.join (l :: ls)) = firstn j l).
      { destruct ls as [|l2 r]; [reflexivity|].
        change (JS.join (l :: l2 :: r)) with (l ++ nl :: JS.join (l2 :: r)).
        rewrite firstn_app.
        replace (j - length l)%nat with 0%nat by (unfold len in E; lia).
        cbn [firstn]. apply app_nil_r. }
      rewrite Hf, after_plain.
      * unfold len. rewrite length_firstn. f_equal; unfold len in E; lia.
      * intros H. apply (Hplain l); [now left|].
        rewrite <- (firstn_skipn j l). apply in_or_app. now left.
    + assert (E' : cc + (len l + 1) <= cc + Z.of_nat j).
      { destruct (Z.gtb_spec (cc + (len l + 1)) (cc + Z.of_nat j));
          [discriminate|lia]. }
      destruct ls as [|l2 r]; [cbn in Hj; lia|].
      change (JS.join (l :: l2 :: r)) with (l ++ nl :: JS.join (l2 :: r)).
      change (Props.lineOffset (l :: l2 :: r) (length (l :: l2 :: r)))
        with (len l + 1 + Props.lineOffset (l2 :: r) (length (l2 :: r))) in Hj.
      rewrite firstn_app, (firstn_all2 l) by (unfold len in E'; lia).
      destruct (j - length l)%nat as [|j'] eqn:Ej; [unfold len in E'; lia|].
      cbn [firstn]. rewrite after_app, after_plain
        by (apply Hplain; now left).
      cbn [Props.after fold_left]. unfold Props.advance at 2.
      replace (Ascii.eqb nl nl) with true by reflexivity. cbn [fst snd].
      fold (Props.after (line + 1, 1) (firstn j' (JS.join (l2 :: r)))).
      replace (cc + Z.of_nat j) with (cc + (len l + 1) + Z.of_nat j')
        by (unfold len; lia).
      rewrite (IH (fun x H => Hplain x (or_intror H)) (i + 1)
                 (cc + (len l + 1)) (line + 1) j')
        by (unfold len in *; lia).
      f_equal. lia.
Qed.

(** The start line and the start column of a match are the line and the
    column of its index. *)
Lemma positionOf_locate (text : jsstring) (i n : nat) :
  (i <= length text)%nat ->
  (mStartLine (positionOf (JS.split text) i n),
   mStartColumn (positionOf (JS.split text) i n))
  = Props.locate text i.
Proof.
  intros Hi.
  pose proof (len_join (JS.split text) (split_not_nil text)) as Hlen.
  rewrite join_split in Hlen.
  assert (Hlt : Z.of_nat i
                < Props.lineOffset (JS.split text) (length (JS.split text)))
    by (unfold len in Hlen; lia).
  pose proof (findStart_after (JS.split text) (split_plain text) 0 0 1 i Hlt)
    as H.
  rewrite join_split in H. change (0 + Z.of_nat i) with (Z.of_nat i) in H.
  unfold Props.locate. rewrite H. unfold positionOf.
  destruct (findStart (JS.split text) 0 0 (Z.of_nat i)) as [k col].
  destruct (findEnd _ _ _ _ _) as [eli ec].
  cbn [mStartLine mStartColumn fst snd]. f_equal. lia.
Qed.

Lemma split_one (s : jsstring) : len (JS.split s) = 1 -> JS.split s = [s].
Proof.
  intros H. pose proof (join_split s) as Hj.
  destruct (JS.split s) as [|l [|l2 r]]; cbn in H; try (unfold len in H; cbn in H; lia).
  cbn in Hj. now subst.
Qed.

(** Where a text ends, in the terms of lines 443-453: the number of its
    lines and the length of the last of them. *)
Lemma after_split (s : jsstring) :
  forall (line column : Z),
    Props.after (line, column) s
    = (line + len (JS.split s) - 1,
       if len (JS.split s) =? 1 then column + len s
       else len (last (JS.split s) []) + 1).
Proof.
  induction s as [|c s IH]; intros line column.
  - cbn. f_equal; lia.
  - cbn [Props.after fold_left]. unfold Props.advance at 2.
    cbn [JS.split fst snd].
    pose proof (len_split_pos s) as Hpos.
    pose proof (split_not_nil s) as Hne.
    destruct (Ascii.eqb c nl) eqn:E.
    + fold (Props.after (line + 1, 1) s). rewrite IH, len_cons.
      replace (len (JS.split s) + 1 =? 1) with false
        by (symmetry; apply Z.eqb_neq; lia).
      f_equal; [lia|].
      destruct (len (JS.split s) =? 1) eqn:E1.
      * apply Z.eqb_eq in E1. rewrite (split_one s E1). cbn [last]. lia.
      * destruct (JS.split s) as [|l0 ls]; [congruence|]. reflexivity.
    + fold (Props.after (line, column + 1) s). rewrite IH.
      destruct (JS.split s) as [|l0 ls] eqn:Es; [congruence|].
      rewrite !len_cons. f_equal.
      destruct ls as [|l1 ls'].
      * cbn [last]. replace (len [] + 1 =? 1) with true by reflexivity.
        lia.
      * replace (len (l1 :: ls') + 1 =? 1) with false
          by (symmetry; apply Z.eqb_neq;
              pose proof (len_nonneg ls'); rewrite len_cons; lia).
        reflexivity.
Qed.

(** The position that lines 441-464 build from a match is the end of the
    replacement written from the index of the match on. *)
Lemma replacementPosition_end (validRelPath : string)
  (text validReplace : jsstring) (i n : nat) :
  (i <= length text)%nat ->
  replacementPosition validRelPath validReplace
    (positionOf (JS.split text) i n)
  = Props.endOfReplacement validRelPath text validReplace i.
Proof.
  intros Hi. unfold Props.endOfReplacement.
  rewrite <- (positionOf_locate text i n Hi), after_split.
  unfold replacementPosition.
  destruct (len (JS.split validReplace) =? 1); f_equal; f_equal; lia.
Qed.

End Walk.

(** ** The scan for any regular expression *)

Section ScanWith.

Import SearchAndReplace.

Lemma lastOf_cons {A : Type} (x : A) (l : list A) :
  Props.lastOf (x :: l)
  = match Props.lastOf l with Some y => Some y | None => Some x end.
Proof.
  unfold Props.lastOf. cbn [map]. revert x.
  induction l as [|y l IH]; intros x; [reflexivity|].
  change (last (Some x :: map Some (y :: l)) None)
    with (last (map Some (y :: l)) None).
  cbn [map]. rewrite (IH y).
  destruct (last (map Some l) None); reflexivity.
Qed.

Lemma lastThat_all {A : Type} (f : A -> bool) (l : list A) :
  (forall x, f x = true) -> Spec.lastThat f l = Props.lastOf l.
Proof.
  intros Hf. induction l as [|x l IH]; [reflexivity|].
  cbn [Spec.lastThat]. now rewrite lastOf_cons, IH, Hf.
Qed.

Variable exec : Exec.
Variable text : jsstring.
Variable lines : list jsstring.
Variable b : Bounds.

Hypothesis Hexec : Props.execContract exec text.

(** All matches are found within [length text + 1] searches. *)
Lemma matchesWith_fuel :
  forall (fuel extra li : nat),
    (length text < fuel + li)%nat ->
    Props.matchesWith (fuel + extra) exec text li
    = Props.matchesWith fuel exec text li.
Proof.
  induction fuel as [|fuel IH]; intros extra li Hf.
  - cbn [Nat.add Props.matchesWith]. destruct extra as [|extra]; [reflexivity|].
    cbn [Props.matchesWith].
    destruct (exec text li) as [[[i n]|] li'] eqn:E; [|reflexivity].
    destruct (Hexec _ _ _ _ E) as (H1 & H2 & _). lia.
  - cbn [Nat.add Props.matchesWith].
    destruct (exec text li) as [[[i n]|] li'] eqn:E; [|reflexivity].
    destruct (Hexec _ _ _ _ E) as (H1 & H2 & ->).
    f_equal. apply IH. destruct (Nat.eqb n 0) eqn:En.
    + lia.
    + apply Nat.eqb_neq in En. lia.
Qed.

Lemma matchesWith_count :
  forall (fuel li : nat),
    (length (Props.matchesWith fuel exec text li)
     <= length text + 1 - li)%nat.
Proof.
  induction fuel as [|fuel IH]; intros li; cbn [Props.matchesWith];
    [cbn; lia|].
  destruct (exec text li) as [[[i n]|] li'] eqn:E; [|cbn; lia].
  destruct (Hexec _ _ _ _ E) as (H1 & H2 & ->).
  cbn [length].
  specialize (IH (if Nat.eqb n 0 then i + n + 1 else i + n)%nat).
  destruct (Nat.eqb n 0) eqn:En.
  - lia.
  - apply Nat.eqb_neq in En. lia.
Qed.

Hypothesis Hopen : bStartLine b = None \/ bEndLine b = None.

(** Without both line bounds every match qualifies: the scan goes through
    the matches, counts them and keeps the last. *)
Lemma scanWith_open :
  forall (fuel : nat) (st : ScanState),
    (length text + 1 - lastIndex st < fuel)%nat ->
    exists st',
      scanWith fuel exec text lines b st = Some st'
      /\ lastMatchPosition st'
         = match Props.lastOf (Props.matchesWith fuel exec text (lastIndex st))
           with
           | Some m => Some (positionOf lines (fst m) (snd m))
           | None => lastMatchPosition st
           end
      /\ matchCount st'
         = matchCount st
           + len (Props.matchesWith fuel exec text (lastIndex st)).
Proof.
  induction fuel as [|fuel IH]; intros st Hf; [lia|].
  cbn [scanWith Props.matchesWith]. unfold scanStepWith.
  destruct (exec text (lastIndex st)) as [[[i n]|] li'] eqn:E.
  - destruct (Hexec _ _ _ _ E) as (H1 & H2 & ->).
    rewrite (qualifies_open_lines b _ Hopen).
    destruct (IH (mkScanState (if Nat.eqb n 0 then i + n + 1 else i + n)%nat
                    (matchCount st + 1) (Some (positionOf lines i n))))
      as (st' & Hs & Hl & Hc).
    { cbn [lastIndex]. destruct (Nat.eqb n 0) eqn:En.
      - lia.
      - apply Nat.eqb_neq in En. lia. }
    exists st'. split; [exact Hs|].
    cbn [lastIndex matchCount lastMatchPosition] in Hl, Hc. split.
    + rewrite Hl, lastOf_cons.
      now destruct (Props.lastOf _) as [m|].
    + rewrite Hc, len_cons. lia.
  - exists st. split; [reflexivity|]. split; [reflexivity|]. cbn. lia.
Qed.

End ScanWith.

Section ScanOfModel.

Import SearchAndReplace.

Variable re : JS.RegExp.

(** The [exec] of the regular expressions embedded here is one. *)
Lemma exec_contract (text : jsstring) :
  Props.execContract (JS.exec re) text.
Proof.
  intros li i n li' H. apply exec_Some in H. tauto.
Qed.

Lemma scan_scanWith (text : jsstring) (lines : list jsstring) (b : Bounds)
  (fuel : nat) :
  forall st : ScanState,
    scan fuel re text lines b st = scanWith fuel (JS.exec re) text lines b st.
Proof.
  induction fuel as [|fuel IH]; intros st; [reflexivity|].
  cbn [scan scanWith].
  change (scanStepWith (JS.exec re) text lines b st)
    with (scanStep re text lines b st).
  destruct (scanStep re text lines b st); [apply IH|reflexivity].
Qed.

Lemma trackedPosition_With (fuel : nat) (validRelPath : string)
  (validReplace : jsstring) (b : Bounds) (text : jsstring) :
  trackedPosition fuel validRelPath re validReplace b text
  = trackedPositionWith fuel validRelPath (JS.exec re) validReplace b text.
Proof.
  unfold trackedPosition, trackedPositionWith. now rewrite scan_scanWith.
Qed.

Lemma collect_matchesWith (text : jsstring) (fuel : nat) :
  forall li : nat,
    JS.collect fuel re text li = Props.matchesWith fuel (JS.exec re) text li.
Proof.
  induction fuel as [|fuel IH]; intros li; [reflexivity|].
  cbn [JS.collect Props.matchesWith].
  destruct (JS.exec re text li) as [[[i n]|] li']; [|reflexivity].
  f_equal. apply IH.
Qed.

End ScanOfModel.

(** The position recorded for a request without bounds: the end of the
    replacement written from the last match on. *)
Lemma trackedPositionWith_unbounded (exec : SearchAndReplace.Exec)
  (fuel : nat) (validRelPath : string) (validReplace text : jsstring) :
  Props.execContract exec text ->
  (length text + 2 <= fuel)%nat ->
  SearchAndReplace.trackedPositionWith fuel validRelPath exec validReplace
    SearchAndReplace.noBounds text
  = Some (option_map
            (fun m =>
               Props.endOfReplacement validRelPath text validReplace (fst m))
            (Props.lastOf (Props.matchesWith (S (length text)) exec text 0))).
Proof.
  intros Hexec Hfuel.
  destruct (scanWith_open exec text (JS.split text) SearchAndReplace.noBounds
              Hexec (or_introl eq_refl) fuel SearchAndReplace.scanStart)
    as (st & Hs & Hl & _); [cbn; lia|].
  unfold SearchAndReplace.trackedPositionWith. rewrite Hs, Hl.
  cbn [SearchAndReplace.lastIndex SearchAndReplace.scanStart
       SearchAndReplace.lastMatchPosition].
  replace fuel with (S (length text) + (fuel - S (length text)))%nat by lia.
  rewrite (matchesWith_fuel exec text Hexec) by lia.
  clear Hs Hl. f_equal.
  destruct (Props.lastOf (Props.matchesWith (S (length text)) exec text 0))
    as [[i n]|] eqn:El; [|reflexivity].
  cbn [option_map fst snd]. f_equal.
  apply replacementPosition_end.
  assert (Hin : In (i, n) (Props.matchesWith (S (length text)) exec text 0)).
  { unfold Props.lastOf in El.
    induction (Props.matchesWith (S (length text)) exec text 0) as [|x l IH];
      [discriminate|].
    destruct l as [|y l]; [injection El as ->; now left|].
    right. apply IH. exact El. }
  clear El. revert Hin. generalize 0%nat.
  induction (S (length text)) as [|f IH]; intros li; cbn [Props.matchesWith];
    [intros []|].
  destruct (exec text li) as [[[i' n']|] li'] eqn:E; [|intros []].
  intros [[= -> ->]|H].
  - destruct (Hexec _ _ _ _ E) as (_ & H2 & _). lia.
  - exact (IH _ H).
Qed.

(** ** search_and_replace: the anchor of the recorded position *)

Section Anchor.

Import SearchAndReplace.

(** A match that the scan visits was found by [exec]: it lies inside the
    text and the pattern matches there. *)
Lemma visited_found (re : JS.RegExp) (text : jsstring)
  (lines : list jsstring) (b : Bounds) (fuel : nat) :
  forall (st : ScanState) (m : MatchPosition),
    In m (Spec.visited fuel re text lines b st) ->
    exists i n,
      m = positionOf lines i n
      /\ (i + n <= length text)%nat
      /\ JS.matchHere (JS.ignoreCase re) (JS.source re) (skipn i text)
         = Some n.
Proof.
  induction fuel as [|fuel IH]; intros st m; cbn [Spec.visited]; [intros []|].
  destruct (JS.exec re text (lastIndex st)) as [[[i n]|] li] eqn:E;
    [|intros []].
  destruct (scanStep re text lines b st) as [st'|]; [|intros []].
  intros [<-|H]; [|now apply (IH st')].
  apply exec_Some in E. destruct E as (_ & H2 & _ & H4).
  now exists i, n.
Qed.

Lemma positionOf_end_after_start (lines : list jsstring) (i n : nat) :
  mStartLine (positionOf lines i n) <= mEndLine (positionOf lines i n).
Proof.
  unfold positionOf.
  destruct (findStart lines 0 0 (Z.of_nat i)) as [sli sc] eqn:Ef.
  pose proof (findEnd_from (skipn (Z.to_nat sli) lines) sli (Z.of_nat n) sc
                sli (sc + Z.of_nat n - 1) (Z.le_refl _)) as H.
  destruct (findEnd _ _ _ _ _) as [eli ec]. cbn in *. lia.
Qed.

(** A match without a newline ends on the line it starts on. *)
Lemma positionOf_one_line (text : jsstring) (i n : nat) :
  (i + n <= length text)%nat ->
  ~ In nl (firstn n (skipn i text)) ->
  mEndLine (positionOf (JS.split text) i n)
  = mStartLine (positionOf (JS.split text) i n).
Proof.
  intros Hin Hnl.
  destruct (positionOf_start text i ltac:(lia))
    as (k & line & col & Hf & Hn & Hc & Hs).
  destruct (nth_error_skipn_cons _ _ _ Hn) as [rest Hrest].
  rewrite Hrest in Hs.
  pose proof (match_fits text i n k line rest col Hin Hnl Hc Hs) as Hfit.
  unfold positionOf. rewrite Hf.
  rewrite Nat2Z.id, Hrest. cbn [findEnd].
  destruct (Z.of_nat n >? 0).
  - replace (Z.of_nat n <=? len line - col + 1) with true
      by (symmetry; apply Z.leb_le; exact Hfit).
    reflexivity.
  - reflexivity.
Qed.

(** A line bound without the other does not enter the test of line 400:
    the scan runs as without line bounds. *)
Lemma scan_without_line_bounds (re : JS.RegExp) (text : jsstring)
  (lines : list jsstring) (b : Bounds) :
  bStartLine b = None \/ bEndLine b = None ->
  forall (fuel : nat) (st : ScanState),
    scan fuel re text lines b st
    = scan fuel re text lines
        (mkBounds None None (bStartColumn b) (bEndColumn b)) st.
Proof.
  intros Hb. induction fuel as [|fuel IH]; intros st; [reflexivity|].
  cbn [scan].
  assert (Hstep : scanStep re text lines b st
                  = scanStep re text lines
                      (mkBounds None None (bStartColumn b) (bEndColumn b)) st).
  { unfold scanStep.
    destruct (JS.exec re text (lastIndex st)) as [[[i n]|] li]; [|reflexivity].
    unfold qualifies, withinLineRange. cbn [bStartLine bEndLine].
    destruct Hb as [-> | ->]; [reflexivity|].
    now destruct (bStartLine b). }
  rewrite Hstep. clear Hstep.
  destruct (scanStep _ _ _ _ st); [apply IH|reflexivity].
Qed.

End Anchor.

(** C3 (amended).  For a request without bounds the scan ends, for every
    regular expression (one whose [exec] answers as that of a global regular
    expression does), within [length of the text + 2] turns, and the
    position handed to the store is the end of the replacement text
    written from the start of the last match in the original text on: its
    line is the line on which the replacement then ends, its end column
    the column after the replacement and its start column one less, which
    is the column of the last code unit of a replacement whose last line
    is not empty; without a match nothing is recorded.  Where the match
    ends does not enter.  The matches are those that the replacement
    substitutes.  In ["foo foo foo"] these are the
    occurrences at the indices 0, 4 and 8; the third starts at column 9,
    [bar] written from there ends before column 12, and the recorded
    columns are 11 and 12.  For [line2 -> L2] the text saved is
    [line1 / L2 / line3] and the recorded position is on line 2. *)
Theorem C3_recorded_position_follows_last_match :
  (forall (exec : SearchAndReplace.Exec) (fuel : nat) (validRelPath : string)
          (validReplace text : jsstring),
      Props.execContract exec text ->
      (length text + 2 <= fuel)%nat ->
      SearchAndReplace.trackedPositionWith fuel validRelPath exec validReplace
        SearchAndReplace.noBounds text
      = Some (option_map
                (fun m =>
                   Props.endOfReplacement validRelPath text validReplace
                     (fst m))
                (Props.lastOf
                   (Props.matchesWith (S (length text)) exec text 0))))
  /\ (forall (re : JS.RegExp) (fuel : nat) (validRelPath : string)
             (validReplace text : jsstring),
        (length text + 2 <= fuel)%nat ->
        SearchAndReplace.trackedPosition fuel validRelPath re validReplace
          SearchAndReplace.noBounds text
        = Some (option_map
                  (fun m =>
                     Props.endOfReplacement validRelPath text validReplace
                       (fst m))
                  (Props.lastOf (JS.collect (S (length text)) re text 0))))
  /\ (let text := lit "foo foo foo" in
      let run :=
        SearchAndReplace.searchAndReplaceTool 13 (Inputs.envWith text)
          Inputs.task0
          (Inputs.request "foo" "bar" SearchAndReplace.noBounds) in
      JS.collect 12 (Spec.literal false (lit "foo")) text 0
      = [(0%nat, 3%nat); (4%nat, 3%nat); (8%nat, 3%nat)]
      /\ Props.locate text 8 = (1, 9)
      /\ Props.after (1, 9) (lit "bar") = (1, 12)
      /\ Inputs.savedBy run = [("f"%string, lit "bar bar bar")]
      /\ Inputs.recorded run
         = [EditPositionTracker.mkEditPosition "f" 1 1 (Some 11) (Some 12)
              EditPositionTracker.replace])
  /\ (let text := Inputs.lines3 "line1" "line2" "line3" in
      let run :=
        SearchAndReplace.searchAndReplaceTool 19 (Inputs.envWith text)
          Inputs.task0
          (Inputs.request "line2" "L2" SearchAndReplace.noBounds) in
      JS.collect 18 (Spec.literal false (lit "line2")) text 0
      = [(6%nat, 5%nat)]
      /\ Props.locate text 6 = (2, 1)
      /\ Props.after (2, 1) (lit "L2") = (2, 3)
      /\ Inputs.savedBy run = [("f"%string, Inputs.lines3 "line1" "L2" "line3")]
      /\ Inputs.recorded run
         = [EditPositionTracker.mkEditPosition "f" 2 2 (Some 2) (Some 3)
              EditPositionTracker.replace]).
Proof.
  split; [|split; [|split]].
  - intros exec fuel path R text Hexec Hfuel.
    now apply trackedPositionWith_unbounded.
  - intros re fuel path R text Hfuel.
    rewrite trackedPosition_With, collect_matchesWith.
    apply trackedPositionWith_unbounded; [apply exec_contract|exact Hfuel].
  - cbv zeta. repeat split; reflexivity.
  - cbv zeta. repeat split; reflexivity.
Qed.

(** As the claim states it, the anchor is the last match within the
    requested line and column bounds.  The request below gives the end
    line 2 and the columns 1-3 for a text with [foo] on each of its three
    lines.  The edit changes lines 1 and 2; the last match within the
    requested bounds is the one on line 2, whose replacement ends at
    line 2, column 3; the position recorded is on line 3. *)
Lemma C3_recorded_position_follows_last_match_counterexample :
  let text := Inputs.lines3 "foo" "foo" "foo" in
  let b := SearchAndReplace.mkBounds None (Some 2) (Some 1) (Some 3) in
  let re := Spec.literal false (lit "foo") in
  let run :=
    SearchAndReplace.searchAndReplaceTool 5 (Inputs.envWith text) Inputs.task0
      (Inputs.request "foo" "bar" b) in
  let found :=
    Spec.visited 5 re text (JS.split text) b SearchAndReplace.scanStart in
  found
  = [SearchAndReplace.mkMatchPosition 1 1 1 3;
     SearchAndReplace.mkMatchPosition 2 2 1 3;
     SearchAndReplace.mkMatchPosition 3 3 1 3]
  /\ Spec.lastThat (Spec.withinRequestedBounds b) found
     = Some (SearchAndReplace.mkMatchPosition 2 2 1 3)
  /\ Inputs.savedBy run = [("f"%string, Inputs.lines3 "bar" "bar" "foo")]
  /\ Inputs.recorded run
     = [EditPositionTracker.mkEditPosition "f" 3 3 (Some 3) (Some 4)
          EditPositionTracker.replace]
  /\ Inputs.recorded run
     <> [Props.endOfReplacement "f" text (lit "bar") 4].
Proof.
  cbv zeta. repeat split; try reflexivity. discriminate.
Qed.

(** The amended claim at the request [foo -> bar] on ["foo foo foo"]. *)
Lemma C3_recorded_position_follows_last_match_witness :
  SearchAndReplace.trackedPositionWith 13 "f"
    (JS.exec (Spec.literal false (lit "foo"))) (lit "bar")
    SearchAndReplace.noBounds (lit "foo foo foo")
  = Some (Some (EditPositionTracker.mkEditPosition "f" 1 1 (Some 11)
                  (Some 12) EditPositionTracker.replace)).
Proof.
  refine (proj1 C3_recorded_position_follows_last_match
            (JS.exec (Spec.literal false (lit "foo"))) 13%nat "f"%string
            (lit "bar") (lit "foo foo foo") (exec_contract _ _) _).
  cbn. lia.
Defined.

(** C5 (amended).  When the request gives both a start line and an end
    line, the match that the scan keeps as the anchor is a match of the
    pattern inside the text that starts on a line from the start line to
    the end line; an anchor without a newline also ends on that line.
    When one of the two line bounds is missing, the line bounds do not
    restrict the anchor: the scan ends as the scan of the same request
    without line bounds does, and when the request has no column bound
    either, the anchor is the last match that the scan visits. *)
Theorem C5_anchor_within_line_bounds :
  forall (fuel : nat) (re : JS.RegExp) (text : jsstring)
         (b : SearchAndReplace.Bounds) (st : SearchAndReplace.ScanState),
    SearchAndReplace.scan fuel re text (JS.split text) b
      SearchAndReplace.scanStart = Some st ->
    (forall (startLine endLine : Z) (m : SearchAndReplace.MatchPosition),
        SearchAndReplace.bStartLine b = Some startLine ->
        SearchAndReplace.bEndLine b = Some endLine ->
        SearchAndReplace.lastMatchPosition st = Some m ->
        exists i n,
          JS.matchHere (JS.ignoreCase re) (JS.source re) (skipn i text)
          = Some n
          /\ (i + n <= length text)%nat
          /\ m = SearchAndReplace.positionOf (JS.split text) i n
          /\ SearchAndReplace.mStartLine m = fst (Props.locate text i)
          /\ startLine <= fst (Props.locate text i) <= endLine
          /\ (~ In nl (firstn n (skipn i text)) ->
              SearchAndReplace.mEndLine m = fst (Props.locate text i)))
    /\ (SearchAndReplace.bStartLine b = None
        \/ SearchAndReplace.bEndLine b = None ->
        SearchAndReplace.scan fuel re text (JS.split text)
          (SearchAndReplace.mkBounds None None
             (SearchAndReplace.bStartColumn b)
             (SearchAndReplace.bEndColumn b))
          SearchAndReplace.scanStart = Some st
        /\ (SearchAndReplace.bStartColumn b = None ->
            SearchAndReplace.bEndColumn b = None ->
            SearchAndReplace.lastMatchPosition st
            = Props.lastOf
                (Spec.visited fuel re text (JS.split text) b
                   SearchAndReplace.scanStart))).
Proof.
  intros fuel re text b st Hscan.
  pose proof (scan_lastThat _ _ _ _ _ _ _ Hscan) as Hlast.
  cbn [SearchAndReplace.lastMatchPosition SearchAndReplace.scanStart]
    in Hlast.
  split.
  - intros sl el m Hs He Hm. rewrite Hm in Hlast.
    destruct (Spec.lastThat _ _) as [y|] eqn:E; [|discriminate].
    injection Hlast as ->. apply lastThat_Some in E. destruct E as [Hin Hq].
    destruct (visited_found _ _ _ _ _ _ _ Hin) as (i & n & -> & Hb & Hmatch).
    exists i, n.
    rewrite qualifies_lines in Hq.
    unfold SearchAndReplace.withinLineRange in Hq.
    rewrite Hs, He in Hq. apply andb_true_iff in Hq. destruct Hq as [H1 H2].
    rewrite Z.geb_leb in H1. apply Z.leb_le in H1. apply Z.leb_le in H2.
    pose proof (positionOf_locate text i n ltac:(lia)) as Hloc.
    apply (f_equal fst) in Hloc. cbn [fst] in Hloc.
    pose proof (positionOf_end_after_start (JS.split text) i n) as Hend.
    repeat split; try assumption; try lia.
    intros Hnl. rewrite <- Hloc. now apply positionOf_one_line.
  - intros Hb. split.
    + rewrite <- Hscan. symmetry. apply scan_without_line_bounds. exact Hb.
    + intros _ _. rewrite Hlast.
      rewrite (lastThat_all _ _ (fun p => qualifies_open_lines b p Hb)).
      now destruct (Props.lastOf _).
Qed.

(** As the claim states it, a bound that is given always restricts the
    anchor, and the anchor lies within the requested lines.  The first
    request below gives the end line 1 (and columns 1-3) but no start
    line; the text has [foo] on lines 1 and 2; the edit changes line 1
    only, and the anchor is the match on line 2.  The second request gives
    the lines 1-1 (and columns 1-3) and a pattern whose only match in the
    text [xab / bb] starts on line 1 and ends at its index 5, on line 2;
    that match is the anchor. *)
Lemma C5_anchor_within_line_bounds_counterexample :
  (let text := Inputs.lines2 "foo" "foo" in
   let b := SearchAndReplace.mkBounds None (Some 1) (Some 1) (Some 3) in
   let re := Spec.literal false (lit "foo") in
   let anchor := SearchAndReplace.mkMatchPosition 2 2 1 3 in
   SearchAndReplace.searchPattern false false (lit "foo") = Some re
   /\ SearchAndReplace.newContent re (lit "bar") b text
      = Inputs.lines2 "bar" "foo"
   /\ (exists st,
         SearchAndReplace.scan 4 re text (JS.split text) b
           SearchAndReplace.scanStart = Some st
         /\ SearchAndReplace.lastMatchPosition st = Some anchor)
   /\ Spec.withinRequestedBounds b anchor = false
   /\ Inputs.recorded
        (SearchAndReplace.searchAndReplaceTool 4 (Inputs.envWith text)
           Inputs.task0 (Inputs.request "foo" "bar" b))
      = [EditPositionTracker.mkEditPosition "f" 2 2 (Some 3) (Some 4)
           EditPositionTracker.replace])
  /\ (let text := Inputs.lines2 "xab" "bb" in
      let pattern := lit "ab" ++ nl :: lit "*b*" in
      let b := SearchAndReplace.mkBounds (Some 1) (Some 1) (Some 1) (Some 3) in
      exists re st,
        SearchAndReplace.searchPattern true false pattern = Some re
        /\ SearchAndReplace.newContent re (lit "Y") b text
           = Inputs.lines2 "xY" "bb"
        /\ JS.collect 7 re text 0 = [(1%nat, 5%nat)]
        /\ Props.locate text 1 = (1, 2)
        /\ Props.locate text 5 = (2, 2)
        /\ SearchAndReplace.scan 3 re text (JS.split text) b
             SearchAndReplace.scanStart = Some st
        /\ SearchAndReplace.lastMatchPosition st
           = Some (SearchAndReplace.positionOf (JS.split text) 1 5)
        /\ SearchAndReplace.mEndLine
             (SearchAndReplace.positionOf (JS.split text) 1 5) = 1
        /\ Inputs.recorded
             (SearchAndReplace.searchAndReplaceTool 3 (Inputs.envWith text)
                Inputs.task0
                (SearchAndReplace.mkToolUse (Some "f"%string) (Some pattern)
                   (Some (lit "Y")) true false b false))
           = [EditPositionTracker.mkEditPosition "f" 1 1 (Some 2) (Some 3)
                EditPositionTracker.replace]).
Proof.
  split.
  - cbv zeta. split; [reflexivity|]. split; [reflexivity|].
    split; [eexists; split; reflexivity|]. split; reflexivity.
  - cbv zeta. eexists. eexists. repeat split; reflexivity.
Qed.

(** The amended claim at a request for lines 1-2 of a text with [foo] on
    each of its three lines: the anchor is the match at the index 4, on
    line 2. *)
Lemma C5_anchor_within_line_bounds_witness :
  exists i n,
    JS.matchHere false (Spec.literalItems (lit "foo"))
      (skipn i (Inputs.lines3 "foo" "foo" "foo")) = Some n
    /\ (i + n <= length (Inputs.lines3 "foo" "foo" "foo"))%nat
    /\ SearchAndReplace.mkMatchPosition 2 2 1 3
       = SearchAndReplace.positionOf
           (JS.split (Inputs.lines3 "foo" "foo" "foo")) i n
    /\ 2 = fst (Props.locate (Inputs.lines3 "foo" "foo" "foo") i)
    /\ 1 <= fst (Props.locate (Inputs.lines3 "foo" "foo" "foo") i) <= 2
    /\ (~ In nl (firstn n (skipn i (Inputs.lines3 "foo" "foo" "foo"))) ->
        2 = fst (Props.locate (Inputs.lines3 "foo" "foo" "foo") i)).
Proof.
  exact (proj1 (C5_anchor_within_line_bounds 5
                  (Spec.literal false (lit "foo"))
                  (Inputs.lines3 "foo" "foo" "foo")
                  (SearchAndReplace.mkBounds (Some 1) (Some 2) (Some 1)
                     (Some 3))
                  _ eq_refl)
           1 2 (SearchAndReplace.mkMatchPosition 2 2 1 3)
           eq_refl eq_refl eq_refl).
Defined.

(** X11.  Whatever a run that returns has saved, it has saved after all
    the checks: either the saved contents and the edit flag are as they
    were, or the request is complete, its access check passed, its file
    exists and was read, its pattern compiled, its new content differs
    from the file content and the user approved, and what the run added
    to the saved contents is this new content, once, under the path of
    the request. *)
Theorem X11_saves_only_an_approved_change :
  forall (fuel : nat) (env : SearchAndReplace.Env)
         (cline cline' : SearchAndReplace.Task)
         (block : SearchAndReplace.ToolUse),
    SearchAndReplace.searchAndReplaceTool fuel env cline block
    = SearchAndReplace.Returned cline' ->
    (SearchAndReplace.saved cline' = SearchAndReplace.saved cline
     /\ SearchAndReplace.didEditFile cline'
        = SearchAndReplace.didEditFile cline)
    \/ (exists c p d s R fileContent re,
          SearchAndReplace.partial block = false
          /\ SearchAndReplace.path block = Some (String c p)
          /\ SearchAndReplace.search block = Some (d :: s)
          /\ SearchAndReplace.replace block = Some R
          /\ SearchAndReplace.validateAccess env (String c p) = true
          /\ SearchAndReplace.fileExistsAtPath env (String c p) = true
          /\ SearchAndReplace.readFileWithEncodingDetection env (String c p)
             = Some fileContent
          /\ SearchAndReplace.searchPattern (SearchAndReplace.use_regex block)
               (SearchAndReplace.ignore_case block) (d :: s) = Some re
          /\ SearchAndReplace.askApproval env = true
          /\ SearchAndReplace.newContent re R (SearchAndReplace.bounds block)
               fileContent <> fileContent
          /\ SearchAndReplace.saved cline'
             = SearchAndReplace.saved cline
                 ++ [(String c p,
                      SearchAndReplace.newContent re R
                        (SearchAndReplace.bounds block) fileContent)]).
Proof.
  intros fuel env cline cline' block Hrun.
  destruct (request_cases fuel env cline block)
    as [H|[[param H]|(c & p & d & s & R & Hp & Hpath & Hs & Hr)]].
  - rewrite H in Hrun. injection Hrun as <-. left. split; reflexivity.
  - rewrite H in Hrun. injection Hrun as <-. left. split; reflexivity.
  - rewrite (tool_valid fuel env cline block c p d s R Hp Hpath Hs Hr) in Hrun.
    cbv zeta in Hrun.
    destruct (SearchAndReplace.validateAccess env (String c p)) eqn:Ha;
      cbn [negb] in Hrun;
      [|injection Hrun as <-; left; split; reflexivity].
    destruct (SearchAndReplace.fileExistsAtPath env (String c p)) eqn:He;
      cbn [negb] in Hrun;
      [|injection Hrun as <-; left; split; reflexivity].
    destruct (SearchAndReplace.readFileWithEncodingDetection env (String c p))
      as [text|] eqn:Hread;
      [|injection Hrun as <-; left; split; reflexivity].
    destruct (SearchAndReplace.searchPattern _ _ _) as [re|] eqn:Hre;
      [|discriminate].
    destruct (SearchAndReplace.emptyPatch text _) eqn:Hpatch;
      [injection Hrun as <-; left; split; reflexivity|].
    destruct (SearchAndReplace.askApproval env) eqn:Hok; cbn [negb] in Hrun;
      [|injection Hrun as <-; left; split; reflexivity].
    match type of Hrun with
    | match ?t with _ => _ end = _ => destruct t as [tracker'|] eqn:Ht
    end; [|discriminate].
    injection Hrun as <-. right.
    exists c, p, d, s, R, text, re. cbn.
    repeat split; try assumption; try reflexivity.
    intros Heq. unfold SearchAndReplace.emptyPatch in Hpatch.
    rewrite Heq in Hpatch.
    now rewrite (proj2 (eqString_eq text text) eq_refl) in Hpatch.
Qed.

(** The property at the approved request [foo -> bar] on ["foo"]. *)
Lemma X11_saves_only_an_approved_change_witness :
  ([("f"%string, lit "bar")] = SearchAndReplace.saved Inputs.task0
   /\ true = SearchAndReplace.didEditFile Inputs.task0)
  \/ (exists c p d s R fileContent re,
        SearchAndReplace.partial
          (Inputs.request "foo" "bar" SearchAndReplace.noBounds) = false
        /\ SearchAndReplace.path
             (Inputs.request "foo" "bar" SearchAndReplace.noBounds)
           = Some (String c p)
        /\ SearchAndReplace.search
             (Inputs.request "foo" "bar" SearchAndReplace.noBounds)
           = Some (d :: s)
        /\ SearchAndReplace.replace
             (Inputs.request "foo" "bar" SearchAndReplace.noBounds) = Some R
        /\ SearchAndReplace.validateAccess (Inputs.envWith (lit "foo"))
             (String c p) = true
        /\ SearchAndReplace.fileExistsAtPath (Inputs.envWith (lit "foo"))
             (String c p) = true
        /\ SearchAndReplace.readFileWithEncodingDetection
             (Inputs.envWith (lit "foo")) (String c p) = Some fileContent
        /\ SearchAndReplace.searchPattern false false (d :: s) = Some re
        /\ SearchAndReplace.askApproval (Inputs.envWith (lit "foo")) = true
        /\ SearchAndReplace.newContent re R SearchAndReplace.noBounds
             fileContent <> fileContent
        /\ [("f"%string, lit "bar")]
           = [] ++ [(String c p,
                     SearchAndReplace.newContent re R
                       SearchAndReplace.noBounds fileContent)]).
Proof.
  exact (X11_saves_only_an_approved_change 5 (Inputs.envWith (lit "foo"))
           Inputs.task0 _
           (Inputs.request "foo" "bar" SearchAndReplace.noBounds) eq_refl).
Defined.

(** X15.  When the request does not give both line bounds, the scan ends
    for every regular expression whose [exec] answers as that of a global
    regular expression does, also one that matches the empty string: the
    loop is left within [length of the text + 2] turns, and [matchCount]
    is then the number of the matches in the text, at most
    [length of the text + 1].  The regular expressions embedded here are
    of this kind.  For a non-empty literal search text the scan ends
    within that many turns whatever the bounds are. *)
Theorem X15_scan_ends_without_both_line_bounds :
  (forall (exec : SearchAndReplace.Exec) (text : jsstring)
          (b : SearchAndReplace.Bounds),
      Props.execContract exec text ->
      SearchAndReplace.bStartLine b = None
      \/ SearchAndReplace.bEndLine b = None ->
      exists st,
        SearchAndReplace.scanWith (length text + 2) exec text (JS.split text)
          b SearchAndReplace.scanStart = Some st
        /\ SearchAndReplace.matchCount st
           = len (Props.matchesWith (length text + 2) exec text 0)
        /\ SearchAndReplace.matchCount st <= len text + 1)
  /\ (forall (re : JS.RegExp) (text : jsstring)
             (b : SearchAndReplace.Bounds),
        SearchAndReplace.bStartLine b = None
        \/ SearchAndReplace.bEndLine b = None ->
        exists st,
          SearchAndReplace.scan (length text + 2) re text (JS.split text) b
            SearchAndReplace.scanStart = Some st
          /\ SearchAndReplace.matchCount st <= len text + 1)
  /\ (forall (ic : bool) (a : ascii) (P text : jsstring)
             (b : SearchAndReplace.Bounds),
        exists re st,
          SearchAndReplace.searchPattern false ic (a :: P) = Some re
          /\ SearchAndReplace.scan (length text + 2) re text (JS.split text)
               b SearchAndReplace.scanStart = Some st).
Proof.
  assert (H : forall (exec : SearchAndReplace.Exec) (text : jsstring)
                     (b : SearchAndReplace.Bounds),
             Props.execContract exec text ->
             SearchAndReplace.bStartLine b = None
             \/ SearchAndReplace.bEndLine b = None ->
             exists st,
               SearchAndReplace.scanWith (length text + 2) exec text
                 (JS.split text) b SearchAndReplace.scanStart = Some st
               /\ SearchAndReplace.matchCount st
                  = len (Props.matchesWith (length text + 2) exec text 0)
               /\ SearchAndReplace.matchCount st <= len text + 1).
  { intros exec text b Hexec Hb.
    destruct (scanWith_open exec text (JS.split text) b Hexec Hb
                (length text + 2) SearchAndReplace.scanStart)
      as (st & Hs & _ & Hc); [cbn; lia|].
    cbn [SearchAndReplace.lastIndex SearchAndReplace.matchCount
         SearchAndReplace.scanStart] in Hc.
    exists st. split; [exact Hs|]. split; [rewrite Hc; lia|].
    pose proof (matchesWith_count exec text Hexec (length text + 2) 0) as Hn.
    rewrite Hc. unfold len. lia. }
  split; [exact H|]. split.
  - intros re text b Hb.
    destruct (H (JS.exec re) text b (exec_contract re text) Hb)
      as (st & Hs & _ & Hc).
    exists st. split; [|exact Hc]. now rewrite scan_scanWith.
  - intros ic a P text b. exists (Spec.literal ic (a :: P)).
    destruct (scan_ends_within_length (Spec.literal ic (a :: P)) text b
                (movesOn_literal ic a P text (JS.split text) b))
      as [[st Hst] _].
    exists st. split; [apply searchPattern_literal|exact Hst].
Qed.

(** The property at the pattern [x*] on the text ["ab"], without bounds:
    the scan ends after the three empty matches at 0, 1 and 2. *)
Lemma X15_scan_ends_without_both_line_bounds_witness :
  exists st,
    SearchAndReplace.scanWith 4
      (JS.exec (JS.mkRegExp [JS.mkItem (JS.Lit "x"%char) true] false))
      (lit "ab") (JS.split (lit "ab")) SearchAndReplace.noBounds
      SearchAndReplace.scanStart = Some st
    /\ SearchAndReplace.matchCount st
       = len [(0%nat, 0%nat); (1%nat, 0%nat); (2%nat, 0%nat)]
    /\ SearchAndReplace.matchCount st <= 3.
Proof.
  exact (proj1 X15_scan_ends_without_both_line_bounds
           (JS.exec (JS.mkRegExp [JS.mkItem (JS.Lit "x"%char) true] false))
           (lit "ab") SearchAndReplace.noBounds (exec_contract _ _)
           (or_introl eq_refl)).
Defined.

(** X19.  When no block is collected from the diff, the position that
    apply_diff records is the default one, line [start_line] of the
    request and column 1: the number that the single-block branch reads
    after [:start_line:] goes to [finalStartLine], which is not recorded,
    and the single-block expression finds nothing. *)
Theorem X19_no_block_records_the_default_position :
  forall (relPath : string) (blockStartLine : Z) (diffContent : jsstring)
         (content : option jsstring) (startLineMatch : option Z),
    ApplyDiff.trackedPosition relPath
      (ApplyDiff.finalPosition blockStartLine diffContent content []
         startLineMatch None)
    = EditPositionTracker.mkEditPosition relPath blockStartLine blockStartLine
        (Some 1) (Some 1) EditPositionTracker.modify.
Proof.
  intros relPath n diff content slm.
  unfold ApplyDiff.finalPosition.
  destruct content as [[|c cs]|]; try reflexivity.
  destruct (ApplyDiff.truthy diff); reflexivity.
Qed.


